(* ===== verification/_CoqProject ===== *)
-Q . S2P
Prelude.v
GoStrconv.v
Dom.v
Extract.v
Cache.v
CacheWf.v
Part001.v
Legacy.v
Utf8.v
Itoa.v
Timefmt.v
Json.v
Marshal.v
HtmlSafe.v
Runes.v
Api.v
Logging.v
