(* ===== verification/Prelude.v ===== *)
(** * A verification development for dhedegaard/pollen

    The program fetches the pollen page of the Danish weather service,
    extracts one forecast record per nested table, keeps the result in an
    in-memory cache and serves it over HTTP.  Three variants of the program
    are in the repository:

    - [src/unnamed/part_000]: [fetchCache] (read path, RWMutex read lock,
      spawns [go rebuildCache()] on a miss), [rebuildCache] (write lock held
      across fetch and extraction, publishes [cache] and [cacheTimestamp]),
      [refreshCacheJob] (rebuild, then wait ten minutes, forever; a failed
      rebuild calls [log.Fatalln]) and two HTTP handlers, one of which reads
      [cacheTimestamp] for the [X-Cache-Timestamp] header;
    - [src/unnamed/part_001]: the same without the timestamp, and a
      refresh job that waits one tick before its first rebuild;
    - [src/main.go]: a single request-driven [fetchParseAndJsonify] guarded
      by a plain [sync.Mutex] that is released during the fetch.

    The three variants share the extraction loop (the two nested
    [Each] callbacks over [doc.Find("div.tx-dmi-data-store table table")]
    and [selection.Find("tr")]).

    ** Files and what they model

    - [Prelude] (this file): the result type of fallible Go code with
      stdpp's monad classes and the [mapM] lemmas (first error wins), Go's
      64-bit [int] range and its wrap-around, [count_if] on thread pools, a
      lemma on loops whose accumulator carries a sticky error (the
      [if err != nil { return }] guard of both callbacks), the [pollen]
      hint databases and the development's tactics.
    - [GoStrconv] (Module [Strconv]): [strconv.Atoi] on 64-bit Go, with its
      fast path (strings of 1 to 18 bytes), [ParseInt] and [ParseUint]
      (cutoff and wrap-around overflow checks on [uint64]).  Library code,
      modelled from Go's algorithm, because the extractor's behaviour on a
      value cell is exactly this function's.
    - [Dom] (Module [Dom]): the parsed HTML tree (elements, text and
      comment nodes) and the goquery/cascadia operations the code calls:
      [Find] with a matcher, [First], [Last], [Text], [Length], the
      class-word matcher and the block selector
      [div.tx-dmi-data-store table table]; beside them, what they denote:
      [positions] (every node of a tree with its ancestors, in document
      order), [html_words] (the words CSS's [~=] compares) and
      [block_position] (the selector read as CSS defines it).
    - [Extract] (Module [Extract]): the records [forecast] and
      [forecastValue], the inner row callback [row_step], the outer block
      callback [block_step] and [extract], written as [fold_left] over the
      selections with the code's error flags; the abstract contract
      [extract_spec] (per-row tags folded by [mapM]); the scenarios of the
      specification on concrete pages (Module [Scenarios]).
    - [Cache] (Module [Cache]): the shared [cache], [cacheTimestamp] and
      [cacheMutex] as [globals], the RWMutex as a counter with a writer
      phase, and every goroutine as a thread with a program counter:
      [handler_step] is [fetchCache] plus the handler's response,
      [rebuild_step] is [rebuildCache], [job_step] is [refreshCacheJob];
      [exec] runs one labelled event (a goroutine's action with the fetch
      outcome it sees, a tick, a new request) and [step]/[reachable] are
      the interleaving semantics from [init] ([main]); [run_states] lists
      the states a run passes through.  The cache talks to
      the extractor through the [Scraper] class, whose instance
      [extract_scraper] is [Extract.extract] with the promise that a
      snapshot is the full record list of a page.  [variant] selects
      part_000 (timestamp, rebuild before the first tick) or part_001.
      Module [Runs] holds concrete runs and the witnesses.
    - [CacheWf] (Module [CacheWf]): ranks of the request and rebuild
      goroutines ([handler_rank], [rebuild_rank]) and their sum over the
      pool ([potential]); the well-formed states ([wf_state]); the
      steps that publish no snapshot ([quiet_step]).
    - [Part001] (Module [Part001]): part_001's own [fetchCache] with its
      [GET /] handler, [rebuildCache] (no stamping statement),
      [refreshCacheJob] (tick first) and [main], translated from its
      lines, against which the shared model at [part_001] is checked.
    - [Legacy] (Module [Legacy]): [src/main.go]'s [fetchParseAndJsonify]
      as request goroutines over the cache and a held/free [sync.Mutex]
      ([lstep_pc]); the fetch runs without the lock, and a hit returns
      [cache] as read again after the [Unlock] (line 50).  Module [LRuns] holds
      its concrete runs.
    - [Utf8] (Module [Utf8]): [utf8.DecodeRuneInString] and
      [utf8.EncodeRune] with their tables, masks and shifts.
    - [Itoa] (Module [Itoa]): [strconv.AppendInt] in base 10: the fast path
      for [0 .. 99] and [formatBits]' two-digits-per-turn loop over
      [smallsString]; a one-digit-per-turn reference printer
      ([ndigits], [dec_string]) that the loop is proved to agree with.
    - [Timefmt] (Module [Timefmt]): [time.Time.Format] for a UTC time at
      second precision: the [time] package's [appendInt], [absClock], the
      calendar of [absDate] in 400-year cycles ([civil_from_days]), the
      layouts [time.RFC3339] ([format_rfc3339]) and ["15:04:05"]
      ([format_clock]); a reader of the RFC 3339 text as a client reads
      the header ([parse_rfc3339], with [days_from_civil]).
    - [Json] (Module [Json]): [encoding/json]'s [appendString] with HTML
      escaping, the decoder's string reader ([unquote] with the scanner's
      escape rules and surrogate pairs), and [string([]rune(s))] as
      [to_valid].
    - [Marshal] (Module [Marshal]): JSON values, the compact text
      [json.Marshal] writes for the cached [[]forecast] under the struct
      tags ([marshal], what [c.JSON] sends), the decoder's scanner
      ([parse_value]) and [json.Unmarshal] back into [[]forecast]
      ([unmarshal]); Module [WireScenarios] holds its concrete cases.
    - [HtmlSafe] (Module [HtmlSafe]): what it means for the body to be
      safe inside HTML ([html_clean]: no raw [<], [>], [&], no control
      byte), proved of the string escaper, [AppendInt], the value printer
      and [marshal]; Section [Printer] carries any such property of texts
      through [print_value].
    - [Runes] (Module [Runes]): the runes of a text as [for range] yields
      them ([runes]); how [valid_utf8] and [runes] split after a valid
      prefix; the body read as runes.
    - [Api] (Module [Api]): the replies of the JSON routes, as the code
      writes them from a [response]: part_000 [GET /api] ([api_reply],
      with the [X-Cache-Timestamp] value), part_001 [GET /]
      ([root_reply]), main.go [GET /] ([legacy_reply]), and part_000
      [GET /] up to its template ([index_reply]); [cacheTimestamp] as a
      [time.Time] ([stamp_time]: the zero time, then the clock in Unix
      seconds); the [Content-Type] gin's renderers set ([plain_type],
      [json_type]); the listen address from [LISTEN_ADDR] ([listen_addr],
      [serve_addr]) and main.go's fixed [:8000] ([legacy_listen_addr]).
    - [Logging] (Module [Logging]): the process's log: [init]'s
      [log.SetFlags(log.LstdFlags)] ([init_flags]), the [log] package's
      [itoa], [formatHeader] and [output], [fmt.Appendln], the texts of
      the rebuild's errors ([fetch_error_text] and [parse_error_text],
      with [strconv.Quote] and the [NumError] text), and the refresh loop with its [log.Println] and
      [log.Fatalln] as a writer of lines ([logged], [job_turn],
      [refresh_log]).

    ** Theorems

    - [Logging]: the refresh job's log has one success line per
      successful rebuild and stops at the first failure with one line
      carrying its error ([refresh_log_first_error]); the interleaving
      model's job exits exactly on that line ([job_step_exit]); [log]'s
      [itoa] and [time]'s [appendInt] agree on date and clock fields, so
      the log prefix and the header show the same instant
      ([log_header_rfc3339]).

    - [Extract]: the Go loop refines the all-or-nothing contract
      ([extract_refines]); success exactly when every two-cell row holds
      ["-"] or an [int] ([extract_succeeds_iff]); on failure the error is the
      [ParseError] of the first bad value in document order
      ([extract_first_error]); on success one record per block with one
      measurement per two-cell row, and conversely ([extract_ok_iff]),
      hence the counts and the [int64] bounds; scenarios A, B, C, signed
      values, overlapping nested blocks.
    - [GoStrconv]: the fast path of [Atoi] agrees with [ParseInt] on every
      input; [Atoi] succeeds exactly on an optional sign followed by at
      least one decimal digit whose value fits in 64 bits, and returns that
      value; the returned [int] is always in range.
    - [Cache]: invariants by induction over [reachable] (lock counters match
      the goroutines, hence mutual exclusion; only snapshots the scraper
      promised are published or served); a step changes the cache only by
      publishing a successful extraction, and never clears it; a cold read
      answers [CacheEmpty] in two always-enabled steps after spawning one
      rebuild; an eager rebuild's error is discarded; a failed periodic
      rebuild exits the process; the only step that depends on the page
      is taken inside the write section, so a request arriving during a
      rebuild waits through the fetch ([cold_read_waits_for_fetch]); a
      request blocked at [RLock] waits on a goroutine that can step now,
      so there is no deadlock ([blocked_read_progress]); in part_000 the
      unlocked read of [cacheTimestamp] races with its write
      ([timestamp_data_race]) and a run can end with a reply whose body
      and header were never the cache and its timestamp together
      ([timestamp_mismatch]); still, no timestamp is ahead of the
      clock ([stamp_inv]) and, since [cache] and [cacheTimestamp] are
      written in one write section, no reply of part_000 carries the zero
      timestamp ([stamped_inv]).
    - [Part001]: in every reachable state of part_001 the shared model
      steps exactly as part_001's own functions and [cacheTimestamp] stays
      zero ([part_001_is_its_code]), so the [Cache] theorems at [part_001]
      are theorems of part_001's code.
    - [Timefmt]: one 400-year cycle is checked day by day (a boolean table
      evaluated once, [cycle_table]), and so is every valid date of a
      cycle ([dates_table]); the era arithmetic lifts both to all days:
      the calendar and the day count are inverse bijections between day
      numbers and valid dates, and the year never decreases; the years
      [1 .. 9999] are exactly the times from the zero [time.Time] to the
      end of 9999 ([year_range]); the reader accepts exactly the texts
      [Format(time.RFC3339)] writes for times with a four-digit year and
      gives back their time ([rfc3339_roundtrip]).
    - [CacheWf]: the steps of request and rebuild goroutines terminate,
      at most [potential] of them from any state ([workers_terminate],
      a measure argument through [wf_incl] and [well_founded_ltof]);
      every reachable state is well formed: one refresh job at thread 0,
      and no timestamp code in part_001 ([reachable_wf]); two reads with
      no publication between them get the same outcome
      ([read_idempotent]); concrete part_001 states in which a request
      waits while the spawned rebuild fetches.
    - [Dom]: [Document.Find] returns the nodes its matcher accepts at
      the document's positions, in document order; the compiled block selector accepts
      exactly the positions of [block_position] ([forecast_block_spec]).
    - [Legacy]: mutual exclusion of the mutex; only promised snapshots are
      stored or served; two cold requests can fetch at once and the later
      store overwrites a snapshot already served; the read of [cache] at
      line 50 races with a concurrent store, so a hit can answer with a
      snapshot it never tested under the mutex ([legacy_cache_read_race]);
      a filled cache with no rebuild in flight never changes again.
    - [Utf8], [Json]: a rune decoded without error re-encodes to the bytes
      it came from; reading back an encoded string gives its [to_valid],
      which is the string itself exactly when it is valid UTF-8
      ([string_roundtrip_iff]).
    - [Itoa]: [ParseInt] reads back the text [AppendInt] writes for every
      [int64] ([format_int_parse]); the text is canonical (no leading
      zero), as the JSON number grammar requires; it is the plain decimal
      text [dec_string] of the number ([format_int_dec]), which the
      [Marshal] claim [format_int_reference] carries to the measurement
      objects.
    - [Marshal]: every value the encoder writes is read back as itself up to
      [to_valid] ([parse_print]); [unmarshal (marshal fs)] gives the records
      with their strings made valid UTF-8 ([marshal_roundtrip]), exactly
      [fs] when its strings are valid UTF-8 ([marshal_roundtrip_exact]),
      and only then ([marshal_exact_iff]); one measurement's object decodes
      back to its value ([value_json_roundtrip]); the round trip holds
      for every snapshot the extractor publishes
      ([extract_wire_roundtrip]); a Latin-1 byte does not survive.
    - [HtmlSafe]: every body [c.JSON] writes is [html_clean], whatever
      bytes the scraped strings hold ([marshal_html_clean]); a city name
      holding [</script>] is written with its escapes
      ([script_city_escaped]).
    - [Runes]: every body is valid UTF-8 and holds no raw U+2028 or
      U+2029, so it can be embedded in JavaScript ([marshal_js_safe]);
      concrete escapes of both cases ([separator_escaped]).
    - [Api]: end to end, every answered request of a reachable state got
      the cache-empty 500 or a 200 whose body [json.Unmarshal] decodes
      into the records the extractor produced from some page
      ([served_replies_decode]); the same holds of main.go's server, whose
      500 replies carry a fetch or extraction error
      ([legacy_replies_decode]); both rest on [promised_snapshot_decodes].
      The [X-Cache-Timestamp] of every 200 reply of part_000 reads back as
      a time a rebuild set, never the zero time and never later than the
      clock ([api_header_parses]).

    ** Bounds and choices

    Go's [int] is taken 64 bits wide (amd64, arm64).  Strings are Rocq
    [string]s, i.e. byte strings as in Go.  The DOM functions are
    structural on the tree, the extraction loops are folds over finite
    selections, and the concurrent program is a relation whose runs are
    finite lists of events.  Three loops advance by more than one element
    and take fuel: [escape_loop], [unquote_loop] and [to_valid_loop] get
    the length of their input, and each turn consumes at least one byte
    ([escape_unquote] is proved for any fuel above the text's length);
    [formatBits] gets ten turns, enough below [100 ^ 10 > 2 ^ 64]
    ([format_bits_loop_digits]); the JSON parser gets the input's length
    plus one, and [jsize_print] shows a value needs no more calls than its
    text has bytes.  The model's clock counts seconds since the Unix
    epoch, one per tick; the header theorem assumes it has not passed the
    year 9999, the last year [time.RFC3339] writes with four digits.  The
    calendar tables cover one cycle of 146097 days and its valid dates,
    which is all the calendar needs since it repeats every 400 years
    (together about forty seconds of evaluation).  Goroutine interleaving is sequentially
    consistent at the granularity of one shared-variable access or lock
    operation (a racing read of the multiword [time.Time] is one atomic
    read, which hides torn values but not the race itself); the RWMutex
    lets a new writer announce ahead of readers that blocked behind the
    previous one, where Go admits those readers first: this only adds
    schedules, so the safety theorems cover Go's; the ten-minute ticker is a tick event that may fire at any
    time, which over-approximates the real schedule (sound for the safety
    theorems; the counterexamples use schedules the ticker allows).

    ** Not modelled, and the plan

    The HTML parser ([goquery.NewDocument]) and the network fetch are
    external: the model starts from the parsed tree, and fetch outcomes are
    inputs.  gin's router, templates and static files are I/O wrappers;
    the log is modelled as the lines written, not the stream (stderr) they
    go to, in the process's zone taken to be UTC, and [strconv.Quote]'s
    printability test above U+00FF ([unicode] tables) is a parameter of
    the error texts, which the concrete texts do not use.  goquery removes duplicate nodes from a [Find] over several
    roots; every [Find] in the program starts from a single node, where no
    duplicate can arise, so the model has no deduplication step.
    The JSON decoder folds keys to their ASCII lower case; Go's Unicode
    simple folding (which also matches U+017F and U+212A against [s] and
    [k]) is not modelled, and nil and empty slices are both the empty list
    (the code only builds non-nil ones).
    part_000's [GET /] renders [templates/index.html] through
    [html/template]; the template is not among the sources, so the model
    stops at the data handed to it.  [time.Time] is modelled in UTC at
    second precision: the code only formats UTC times with layouts that
    drop nanoseconds. *)

From Stdlib Require Export ZArith Lia Ascii.
From stdpp Require Export base list strings relations.

Declare Scope pollen_scope.
Delimit Scope pollen_scope with pollen.
Open Scope pollen_scope.

Create HintDb pollen discriminated.
Hint Constants Transparent : pollen.
Create Rewrite HintDb pollen_rw.

(** ** Results of fallible Go code

    A Go function returning [(T, error)] is modelled as a [result]: [Ok]
    when the error is [nil], [Err] otherwise.  The monad instances let
    stdpp's [mapM] and [x ← m; k] notation run over it. *)

Inductive result (E A : Type) : Type :=
| Ok (a : A)
| Err (e : E).
Arguments Ok {E A} a.
Arguments Err {E A} e.

#[export] Instance result_ret E : MRet (result E) := fun _ x => Ok x.
#[export] Instance result_bind E : MBind (result E) :=
  fun _ _ f r => match r with Ok a => f a | Err e => Err e end.

(** Go's [err != nil] on an optional error. *)
Definition is_set {A} (o : option A) : bool :=
  match o with Some _ => true | None => false end.

Definition is_ok {E A} (r : result E A) : bool :=
  match r with Ok _ => true | Err _ => false end.

(** [mapM] in the result monad stops at the first error. *)
Lemma mapM_result_nil {E A B} (f : A -> result E B) : mapM f [] = Ok [].
Proof. reflexivity. Qed.

Lemma mapM_result_cons {E A B} (f : A -> result E B) x l :
  mapM f (x :: l) =
    match f x with
    | Ok y => match mapM f l with Ok k => Ok (y :: k) | Err e => Err e end
    | Err e => Err e
    end.
Proof. reflexivity. Qed.

#[export] Hint Rewrite @mapM_result_nil @mapM_result_cons : pollen_rw.

Lemma mapM_result_Ok {E A B} (f : A -> result E B) l l' :
  mapM f l = Ok l' <-> Forall2 (fun x y => f x = Ok y) l l'.
Proof.
  revert l'. induction l as [|x l IH]; intros l'; rewrite ?mapM_result_cons.
  - split; [intros [= <-]; constructor | intros H; by inversion H].
  - split.
    + destruct (f x) as [y|e] eqn:Hx; [|done].
      destruct (mapM f l) as [k|e] eqn:Hl; [|done]. intros [= <-].
      constructor; [done|]. by apply IH.
    + intros H. inversion H as [|? y ? k Hx Hl]; subst.
      rewrite Hx. by apply IH in Hl as ->.
Qed.

(** An error of [mapM] is the error of the first element that fails. *)
Lemma mapM_result_Err {E A B} (f : A -> result E B) l e :
  mapM f l = Err e <->
  exists l1 x l2, l = l1 ++ x :: l2 /\ Forall (fun y => is_ok (f y) = true) l1 /\ f x = Err e.
Proof.
  induction l as [|x l IH]; rewrite ?mapM_result_cons.
  - split; [done|]. intros (l1 & x & l2 & H & _). by destruct l1.
  - split.
    + destruct (f x) as [y|e'] eqn:Hx.
      * destruct (mapM f l) as [k|e'] eqn:Hl; [done|]. intros [= ->].
        destruct (proj1 IH eq_refl) as (l1 & x' & l2 & -> & Hok & Hx').
        exists (x :: l1), x', l2. split; [done|]. split; [|done].
        constructor; [by rewrite Hx|done].
      * intros [= ->]. by exists [], x, l.
    + intros (l1 & x' & l2 & Hl & Hok & Hx').
      destruct l1 as [|y l1]; simplify_eq/=; [by rewrite Hx'|].
      inversion Hok as [|? ? Hy Hok']; subst.
      destruct (f y) as [z|]; [|done].
      rewrite (proj2 IH); [done|]. by exists l1, x', l2.
Qed.

(** The first element of a list that fails a predicate is unique. *)
Lemma first_failure_unique {A} (P : A -> Prop) l1 x l2 l1' x' l2' :
  l1 ++ x :: l2 = l1' ++ x' :: l2' ->
  Forall P l1 -> Forall P l1' -> ~ P x -> ~ P x' ->
  l1 = l1' /\ x = x' /\ l2 = l2'.
Proof.
  revert l1'. induction l1 as [|y l1 IH]; intros [|y' l1'] Heq H1 H1' Hx Hx';
    simpl in Heq.
  - by injection Heq as -> ->.
  - injection Heq as -> _. by inversion H1'.
  - injection Heq as <- _. by inversion H1.
  - injection Heq as -> Heq. inversion H1; inversion H1'; subst.
    by destruct (IH l1' Heq) as (-> & -> & ->).
Qed.

(** ** Counting the elements of a list that satisfy a test *)

Fixpoint count_if {A} (f : A -> bool) (l : list A) : nat :=
  match l with
  | [] => 0
  | x :: l' => (if f x then 1 else 0) + count_if f l'
  end.

Lemma count_if_app {A} (f : A -> bool) l1 l2 :
  count_if f (l1 ++ l2) = count_if f l1 + count_if f l2.
Proof. induction l1; simpl; lia. Qed.

(** Replacing the element at [i] changes the count by the two tests. *)
Lemma count_if_insert {A} (f : A -> bool) l i x y :
  l !! i = Some x ->
  count_if f (<[i := y]> l) + (if f x then 1 else 0) = count_if f l + (if f y then 1 else 0).
Proof.
  revert i. induction l as [|z l IH]; intros [|i] H; simplify_eq/=; [lia|].
  specialize (IH i H). lia.
Qed.

Lemma count_if_lookup {A} (f : A -> bool) l i x :
  l !! i = Some x -> (if f x then 1 else 0) <= count_if f l.
Proof.
  revert i. induction l as [|z l IH]; intros [|i] H; simplify_eq/=; [lia|].
  specialize (IH i H). lia.
Qed.

Lemma count_if_mono {A} (f f' : A -> bool) l :
  (forall x, f x = true -> f' x = true) -> count_if f l <= count_if f' l.
Proof.
  intros H. induction l as [|x l IH]; simpl; [lia|].
  destruct (f x) eqn:E; [rewrite (H x E)|destruct (f' x)]; lia.
Qed.

Lemma count_if_pos {A} (f : A -> bool) l :
  0 < count_if f l -> exists i x, l !! i = Some x /\ f x = true.
Proof.
  induction l as [|x l IH]; simpl; [lia|]. destruct (f x) eqn:E; [by exists 0, x|].
  intros H. destruct (IH H) as (i & y & ? & ?). by exists (S i), y.
Qed.

#[export] Hint Rewrite @count_if_app : pollen_rw.

(** ** Go's [int] on a 64-bit target *)

Definition min_int64 : Z := - 2 ^ 63.
Definition max_int64 : Z := 2 ^ 63 - 1.

Definition in_int64 (z : Z) : Prop := (min_int64 <= z <= max_int64)%Z.

#[export] Instance in_int64_dec z : Decision (in_int64 z).
Proof. unfold in_int64. apply _. Defined.

(** Two's-complement wrap-around of a 64-bit signed integer. *)
Definition wrap_int64 (z : Z) : Z := ((z + 2 ^ 63) mod 2 ^ 64 - 2 ^ 63)%Z.

Lemma wrap_int64_id z : in_int64 z -> wrap_int64 z = z.
Proof.
  unfold in_int64, min_int64, max_int64, wrap_int64. intros H.
  rewrite Z.mod_small; lia.
Qed.

Lemma wrap_int64_range z : in_int64 (wrap_int64 z).
Proof.
  unfold in_int64, min_int64, max_int64, wrap_int64.
  pose proof (Z.mod_pos_bound (z + 2 ^ 63) (2 ^ 64)). lia.
Qed.

#[export] Hint Resolve wrap_int64_range : pollen.

(** ** Loops with a sticky error flag

    Both callbacks of the extractor start with [if err != nil { return }]:
    once the accumulator records an error, the remaining iterations leave it
    unchanged. *)

Section Sticky.
Context {A B : Type} (f : A -> B -> A) (stuck : A -> Prop).
Hypothesis f_stuck : forall a b, stuck a -> f a b = a.

Lemma fold_left_stuck l a : stuck a -> fold_left f l a = a.
Proof.
  revert a. induction l as [|b l IH]; intros a Ha; simpl; [done|].
  rewrite f_stuck by done. by apply IH.
Qed.
End Sticky.

(** ** Tactics *)

Ltac invc H := inversion H; clear H; subst.

(** [case_if] splits on the first boolean condition of the goal and keeps
    its equation. *)
Ltac case_if :=
  match goal with
  | |- context [if ?c then _ else _] =>
      let E := fresh "E" in destruct c eqn:E
  end.
