(* ===== verification/GoStrconv.v ===== *)
(** * Go's [strconv.Atoi] on a 64-bit target

    The extractor turns the text of a value cell into an [int] with
    [strconv.Atoi] (part_000 line 150, part_001 line 128, main.go line 86).
    This file models that library function as Go 1.x implements it:

    - [atoi]: the fast path for strings of 1 to 18 bytes (optional sign,
      then bytes whose value minus ['0'] as a [byte] is at most 9) and the
      fallback to [ParseInt(s, 10, 0)];
    - [parse_int]: sign handling and the [int64] cutoff;
    - [parse_uint], [parse_uint_digits]: the [uint64] accumulation loop with
      its two overflow checks ([n >= cutoff] before multiplying, and the
      wrapped sum [n1 < n || n1 > maxVal] after adding the digit).

    Every machine operation is kept at its width: bytes wrap modulo 256,
    [uint64] sums modulo [2^64], the fast path's [int] modulo [2^64]
    (signed).  The theorems show the wrap-arounds never fire on the paths
    where the code relies on it, that the fast path agrees with the slow one
    on every input, and what [atoi] accepts and returns. *)

From S2P Require Import Prelude.
Local Open Scope Z_scope.

Module Strconv.

(** The [Err] field of Go's [*NumError]. *)
Inductive num_error := ErrSyntax | ErrRange.

#[export] Instance num_error_eq_dec : EqDecision num_error.
Proof. solve_decision. Defined.

Definition max_uint64 : Z := 2 ^ 64 - 1.

(** [cutoff = maxUint64/10 + 1]: the smallest [n] with [n * 10 > maxUint64]. *)
Definition cutoff : Z := max_uint64 / 10 + 1.

Definition byte_of (c : ascii) : Z := Z.of_N (Ascii.N_of_ascii c).

Definition is_digit (c : ascii) : bool := (48 <=? byte_of c) && (byte_of c <=? 57).

(** The loop of [ParseUint(s, 10, 64)].  For base 10 a letter gives a digit
    value of at least 10, which is rejected like any other non-digit. *)
Fixpoint parse_uint_digits (s : string) (n : Z) : Z * option num_error :=
  match s with
  | EmptyString => (n, None)
  | String c rest =>
      if is_digit c then
        let d := byte_of c - 48 in
        if cutoff <=? n then (max_uint64, Some ErrRange)
        else
          let n' := n * 10 in
          let n1 := (n' + d) mod 2 ^ 64 in
          if (n1 <? n') || (max_uint64 <? n1) then (max_uint64, Some ErrRange)
          else parse_uint_digits rest n1
      else (0, Some ErrSyntax)
  end.

Definition parse_uint (s : string) : Z * option num_error :=
  match s with
  | EmptyString => (0, Some ErrSyntax)
  | _ => parse_uint_digits s 0
  end.

(** The sign test of [ParseInt]: [if s[0] == '+' { s = s[1:] } else if
    s[0] == '-' { neg = true; s = s[1:] }]. *)
Definition split_sign (s : string) : bool * string :=
  match s with
  | String c rest =>
      if bool_decide (c = "+"%char) then (false, rest)
      else if bool_decide (c = "-"%char) then (true, rest)
      else (false, s)
  | EmptyString => (false, s)
  end.

(** [ParseInt] after the sign is picked off: parse the magnitude, pass a
    syntax error through, check the [int64] range ([cutoff = 1 << 63]),
    convert [int64(un)] and negate, both on 64 bits. *)
Definition parse_int_body (neg : bool) (body : string) : Z * option num_error :=
  match parse_uint body with
  | (_, Some ErrSyntax) => (0, Some ErrSyntax)
  | (un, _) =>
      if negb neg && (2 ^ 63 <=? un) then (2 ^ 63 - 1, Some ErrRange)
      else if neg && (2 ^ 63 <? un) then (- 2 ^ 63, Some ErrRange)
      else let n := wrap_int64 un in (if neg then wrap_int64 (- n) else n, None)
  end.

(** [ParseInt(s, 10, 0)]. *)
Definition parse_int (s : string) : Z * option num_error :=
  match s with
  | EmptyString => (0, Some ErrSyntax)
  | _ => let '(neg, body) := split_sign s in parse_int_body neg body
  end.

(** The digit loop of [Atoi]'s fast path: [ch -= '0'] on a byte, reject
    [ch > 9], [n = n*10 + int(ch)] on a 64-bit [int]. *)
Fixpoint atoi_fast_digits (s : string) (n : Z) : option Z :=
  match s with
  | EmptyString => Some n
  | String c rest =>
      let ch := (byte_of c - 48) mod 256 in
      if 9 <? ch then None
      else atoi_fast_digits rest (wrap_int64 (n * 10 + ch))
  end.

Definition atoi_fast (s : string) : Z * option num_error :=
  match s with
  | EmptyString => (0, Some ErrSyntax)
  | String c rest =>
      let body := if bool_decide (c = "-"%char) || bool_decide (c = "+"%char)
                  then rest else s in
      if bool_decide (body = EmptyString) then (0, Some ErrSyntax)
      else match atoi_fast_digits body 0 with
           | None => (0, Some ErrSyntax)
           | Some n => (if bool_decide (c = "-"%char) then wrap_int64 (- n) else n, None)
           end
  end.

(** [strconv.Atoi] with [intSize = 64]. *)
Definition atoi (s : string) : Z * option num_error :=
  if (0 <? String.length s)%nat && (String.length s <? 19)%nat
  then atoi_fast s
  else parse_int s.

(** ** What a decimal literal denotes

    The reference against which [atoi] is proved: an optional ['+'] or
    ['-'] followed by at least one byte ['0'..'9']. *)

Fixpoint all_digits (s : string) : bool :=
  match s with
  | EmptyString => true
  | String c rest => is_digit c && all_digits rest
  end.

Fixpoint digits_value_from (s : string) (acc : Z) : Z :=
  match s with
  | EmptyString => acc
  | String c rest => digits_value_from rest (acc * 10 + (byte_of c - 48))
  end.

Definition decimal_spec (s : string) : option Z :=
  let '(neg, body) := split_sign s in
  if bool_decide (body <> EmptyString) && all_digits body
  then Some (if neg then - digits_value_from body 0 else digits_value_from body 0)
  else None.

(** ** Lemmas on bytes and digit strings *)

Lemma byte_of_range c : 0 <= byte_of c < 256.
Proof.
  unfold byte_of. pose proof (N_ascii_bounded c). lia.
Qed.

Lemma digit_value_range c : is_digit c = true -> 0 <= byte_of c - 48 <= 9.
Proof. unfold is_digit. rewrite andb_true_iff, !Z.leb_le. lia. Qed.

(** The fast path's byte test [ch -= '0'; ch > 9] is [is_digit]. *)
Lemma fast_digit_test c : (9 <? (byte_of c - 48) mod 256) = negb (is_digit c).
Proof.
  pose proof (byte_of_range c). unfold is_digit.
  destruct (Z.leb_spec 48 (byte_of c)), (Z.leb_spec (byte_of c) 57),
    (Z.ltb_spec 9 ((byte_of c - 48) mod 256)); simpl; try done;
    Z.to_euclidean_division_equations; lia.
Qed.

Lemma fast_digit_value c : is_digit c = true -> (byte_of c - 48) mod 256 = byte_of c - 48.
Proof. intros Hc. pose proof (digit_value_range c Hc). apply Z.mod_small. lia. Qed.

Lemma pow10_succ (k : nat) : 10 ^ Z.of_nat (S k) = 10 * 10 ^ Z.of_nat k.
Proof. rewrite Nat2Z.inj_succ, Z.pow_succ_r; lia. Qed.

Lemma pow10_pos (k : nat) : 1 <= 10 ^ Z.of_nat k.
Proof. pose proof (Z.pow_pos_nonneg 10 (Z.of_nat k)). lia. Qed.

#[export] Hint Resolve byte_of_range digit_value_range pow10_pos : pollen.

(** Appending digits multiplies the accumulator by a power of ten. *)
Lemma digits_value_from_bounds s n :
  all_digits s = true -> 0 <= n ->
  n * 10 ^ Z.of_nat (String.length s) <= digits_value_from s n
  < (n + 1) * 10 ^ Z.of_nat (String.length s).
Proof.
  revert n. induction s as [|c s IH]; intros n Hd Hn; simpl in *; [lia|].
  apply andb_true_iff in Hd as [Hc Hd]. pose proof (digit_value_range c Hc).
  rewrite pow10_succ. specialize (IH (n * 10 + (byte_of c - 48)) Hd ltac:(lia)).
  pose proof (pow10_pos (String.length s)). nia.
Qed.

Lemma digits_value_from_ge s n :
  all_digits s = true -> 0 <= n -> n <= digits_value_from s n.
Proof.
  intros Hd Hn. pose proof (digits_value_from_bounds s n Hd Hn).
  pose proof (pow10_pos (String.length s)). nia.
Qed.

Lemma cutoff_value : cutoff = 1844674407370955162.
Proof. reflexivity. Qed.

(** ** The [ParseUint] loop *)

(** Below the cutoff, [n * 10] does not wrap, and the wrapped test
    [n1 < n || n1 > maxVal] on [n1 = n*10 + d] is exactly "the true sum
    exceeds [maxUint64]". *)
Lemma uint64_add_digit n d :
  0 <= n < cutoff -> 0 <= d <= 9 ->
  ((n * 10 + d) mod 2 ^ 64 <? n * 10) || (max_uint64 <? (n * 10 + d) mod 2 ^ 64)
  = (max_uint64 <? n * 10 + d).
Proof.
  rewrite cutoff_value. unfold max_uint64. intros Hn Hd.
  destruct (Z.ltb_spec ((n * 10 + d) mod 2 ^ 64) (n * 10)),
    (Z.ltb_spec (2 ^ 64 - 1) ((n * 10 + d) mod 2 ^ 64)),
    (Z.ltb_spec (2 ^ 64 - 1) (n * 10 + d)); simpl; try done;
    Z.to_euclidean_division_equations; lia.
Qed.

Lemma uint64_no_wrap z : 0 <= z <= max_uint64 -> z mod 2 ^ 64 = z.
Proof. unfold max_uint64. intros. apply Z.mod_small. lia. Qed.

(** On a digit string the loop computes the value, or reports a range
    error with [maxUint64] as soon as the value leaves [uint64]. *)
Lemma parse_uint_digits_ok s n :
  all_digits s = true -> 0 <= n <= max_uint64 ->
  parse_uint_digits s n =
    if digits_value_from s n <=? max_uint64 then (digits_value_from s n, None)
    else (max_uint64, Some ErrRange).
Proof.
  revert n. induction s as [|c s IH]; intros n Hd Hn; simpl in *.
  { destruct (Z.leb_spec n max_uint64); [done | lia]. }
  apply andb_true_iff in Hd as [Hc Hd]. rewrite Hc.
  pose proof (digit_value_range c Hc).
  pose proof (digits_value_from_ge s (n * 10 + (byte_of c - 48)) Hd ltac:(lia)).
  destruct (Z.leb_spec cutoff n).
  { rewrite cutoff_value in *. unfold max_uint64 in *.
    destruct (Z.leb_spec (digits_value_from s (n * 10 + (byte_of c - 48))) (2 ^ 64 - 1));
      [lia | done]. }
  rewrite uint64_add_digit by lia.
  destruct (Z.ltb_spec max_uint64 (n * 10 + (byte_of c - 48))).
  - destruct (Z.leb_spec (digits_value_from s (n * 10 + (byte_of c - 48))) max_uint64);
      [lia | done].
  - rewrite uint64_no_wrap by lia. apply IH; [done | lia].
Qed.

(** Every error of the loop is [(0, ErrSyntax)] or [(maxUint64, ErrRange)]. *)
Lemma parse_uint_digits_err s n z e :
  parse_uint_digits s n = (z, Some e) ->
  (e = ErrSyntax /\ z = 0) \/ (e = ErrRange /\ z = max_uint64).
Proof.
  revert n. induction s as [|c s IH]; intros n H; simpl in H; [done|].
  repeat case_match; simplify_eq; eauto.
Qed.

Lemma parse_uint_digits_not_digits s n :
  all_digits s = false -> snd (parse_uint_digits s n) <> None.
Proof.
  revert n. induction s as [|c s IH]; intros n Hd; simpl in *; [done|].
  destruct (is_digit c); simpl in *; [|done].
  repeat case_match; simpl; eauto.
Qed.

(** ** Short strings: no overflow on either path *)

Lemma parse_uint_digits_short s n :
  0 <= n -> (n + 1) * 10 ^ Z.of_nat (String.length s) <= 10 ^ 18 ->
  parse_uint_digits s n =
    if all_digits s then (digits_value_from s n, None) else (0, Some ErrSyntax).
Proof.
  revert n. induction s as [|c s IH]; intros n Hn Hlen; simpl in *; [done|].
  destruct (is_digit c) eqn:Hc; simpl; [|done].
  pose proof (digit_value_range c Hc). pose proof (pow10_pos (String.length s)).
  rewrite pow10_succ in Hlen.
  assert (n < 10 ^ 17) by nia. rewrite cutoff_value.
  destruct (Z.leb_spec 1844674407370955162 n); [lia|].
  rewrite uint64_add_digit by (rewrite ?cutoff_value; lia).
  unfold max_uint64. destruct (Z.ltb_spec (2 ^ 64 - 1) (n * 10 + (byte_of c - 48))); [lia|].
  rewrite uint64_no_wrap by (unfold max_uint64; lia). apply IH; nia.
Qed.

Lemma atoi_fast_digits_short s n :
  0 <= n -> (n + 1) * 10 ^ Z.of_nat (String.length s) <= 10 ^ 18 ->
  atoi_fast_digits s n = if all_digits s then Some (digits_value_from s n) else None.
Proof.
  revert n. induction s as [|c s IH]; intros n Hn Hlen; simpl in *; [done|].
  rewrite fast_digit_test. destruct (is_digit c) eqn:Hc; simpl; [|done].
  pose proof (digit_value_range c Hc). pose proof (pow10_pos (String.length s)).
  rewrite pow10_succ in Hlen. assert (n * 10 + 10 <= 10 ^ 18) by nia.
  rewrite fast_digit_value by done.
  rewrite wrap_int64_id by (unfold in_int64, min_int64, max_int64; lia).
  apply IH; nia.
Qed.

Lemma pow10_le_18 (k : nat) : (k <= 18)%nat -> 10 ^ Z.of_nat k <= 10 ^ 18.
Proof. intros. apply Z.pow_le_mono_r; lia. Qed.

(** The negation [n = -n] after [int64(un)] at the bottom of the range. *)
Lemma wrap_neg_magnitude v : 0 <= v <= 2 ^ 63 -> wrap_int64 (- wrap_int64 v) = - v.
Proof.
  unfold wrap_int64. intros Hv.
  destruct (Z.eq_dec v (2 ^ 63)) as [->|]; [reflexivity|].
  rewrite (Z.mod_small (v + 2 ^ 63)) by lia.
  Z.to_euclidean_division_equations; lia.
Qed.

(** On a body of at most 18 bytes the fast path and [ParseInt] agree. *)
Lemma atoi_fast_body (neg : bool) body :
  (String.length body <= 18)%nat ->
  (if bool_decide (body = EmptyString) then (0, Some ErrSyntax)
   else match atoi_fast_digits body 0 with
        | None => (0, Some ErrSyntax)
        | Some n => (if neg then wrap_int64 (- n) else n, None)
        end) = parse_int_body neg body.
Proof.
  intros Hlen. unfold parse_int_body, parse_uint.
  destruct body as [|c r]; [done|]. rewrite bool_decide_false by done.
  pose proof (pow10_le_18 _ Hlen).
  rewrite atoi_fast_digits_short, parse_uint_digits_short by lia.
  destruct (all_digits (String c r)) eqn:Hd; [|done].
  pose proof (digits_value_from_bounds (String c r) 0 Hd ltac:(lia)).
  remember (digits_value_from (String c r) 0) as v eqn:Hv. clear Hv.
  destruct neg; simpl.
  - destruct (Z.ltb_spec (2 ^ 63) v); [lia|].
    rewrite wrap_neg_magnitude by lia.
    rewrite wrap_int64_id by (unfold in_int64, min_int64, max_int64; lia). done.
  - destruct (Z.leb_spec (2 ^ 63) v); [lia|].
    rewrite wrap_int64_id by (unfold in_int64, min_int64, max_int64; lia). done.
Qed.

(** ** Theorems on [Atoi] *)

Lemma atoi_parse_int_eq s : atoi s = parse_int s.
Proof.
  unfold atoi. destruct (_ && _) eqn:Hl; [|done].
  apply andb_true_iff in Hl as [H1 H2]. apply Nat.ltb_lt in H1, H2.
  destruct s as [|c r]; [simpl in H1; lia|]. simpl in H2.
  unfold atoi_fast, parse_int, split_sign.
  destruct (decide (c = "+"%char)) as [->|Hp];
    [|destruct (decide (c = "-"%char)) as [->|Hm]].
  - rewrite (bool_decide_true ("+" = "+")%char), (bool_decide_false ("+" = "-")%char)
      by first [reflexivity | discriminate]. apply (atoi_fast_body false r). lia.
  - rewrite (bool_decide_true ("-" = "-")%char), (bool_decide_false ("-" = "+")%char)
      by first [reflexivity | discriminate]. apply (atoi_fast_body true r). lia.
  - rewrite (bool_decide_false (c = "-")%char Hm), (bool_decide_false (c = "+")%char Hp).
    apply (atoi_fast_body false (String c r)). simpl. lia.
Qed.

(** C9. The fast path of [Atoi] is an optimisation: on every input [Atoi]
    returns what [ParseInt(s, 10, 0)] returns, value and error. *)
Theorem atoi_eq_parse_int s : atoi s = parse_int s.
Proof. apply atoi_parse_int_eq. Qed.

(** [ParseInt] on a magnitude [un] that [ParseUint] reported as out of
    range: both signs report a range error. *)
Lemma parse_int_range_error (neg : bool) :
  (if negb neg && (2 ^ 63 <=? max_uint64) then (2 ^ 63 - 1, Some ErrRange)
   else if neg && (2 ^ 63 <? max_uint64) then (- 2 ^ 63, Some ErrRange)
   else let n := wrap_int64 max_uint64 in (if neg then wrap_int64 (- n) else n, None))
  = (if neg then - 2 ^ 63 else 2 ^ 63 - 1, Some ErrRange).
Proof. by destruct neg. Qed.

Lemma parse_int_body_ok neg body z :
  parse_int_body neg body = (z, None) <->
  body <> EmptyString /\ all_digits body = true /\
  z = (if neg then - digits_value_from body 0 else digits_value_from body 0) /\
  in_int64 z.
Proof.
  unfold parse_int_body, parse_uint, in_int64, min_int64, max_int64.
  destruct body as [|c r]; [naive_solver|].
  destruct (all_digits (String c r)) eqn:Hd.
  2:{ pose proof (parse_uint_digits_not_digits (String c r) 0 Hd).
      destruct (parse_uint_digits (String c r) 0) as [u [e|]] eqn:E; [|done].
      apply parse_uint_digits_err in E as [[-> ->]|[-> ->]];
        [|rewrite parse_int_range_error]; naive_solver. }
  rewrite parse_uint_digits_ok by first [done | unfold max_uint64; lia].
  pose proof (digits_value_from_ge (String c r) 0 Hd ltac:(lia)).
  remember (digits_value_from (String c r) 0) as v eqn:Hv. clear Hv.
  unfold max_uint64 in *.
  destruct (Z.leb_spec v (2 ^ 64 - 1)).
  2:{ rewrite parse_int_range_error. split; [done|]. intros (_&_&->&?). destruct neg; lia. }
  destruct neg; simpl.
  - destruct (Z.ltb_spec (2 ^ 63) v).
    + split; [done|]. intros (_&_&->&?). lia.
    + rewrite wrap_neg_magnitude by lia. split; [intros [= <-]; naive_solver lia|].
      intros (_&_&->&_). done.
  - destruct (Z.leb_spec (2 ^ 63) v).
    + split; [done|]. intros (_&_&->&?). lia.
    + rewrite wrap_int64_id by (unfold in_int64, min_int64, max_int64; lia).
      split; [intros [= <-]; naive_solver lia|]. intros (_&_&->&_). done.
Qed.

Lemma atoi_success_iff s z :
  atoi s = (z, None) <-> decimal_spec s = Some z /\ in_int64 z.
Proof.
  rewrite atoi_parse_int_eq. unfold parse_int, decimal_spec.
  destruct s as [|c r]; [naive_solver|].
  destruct (split_sign (String c r)) as [neg body].
  rewrite parse_int_body_ok.
  destruct (bool_decide (body <> EmptyString)) eqn:Hb, (all_digits body) eqn:Hd; simpl;
    rewrite ?bool_decide_eq_true, ?bool_decide_eq_false in Hb; naive_solver.
Qed.

(** C8. [Atoi] succeeds exactly on an optional sign followed by at least one
    decimal digit whose value fits in Go's 64-bit [int], and then returns
    that value.  In particular it accepts ["+7"], ["-5"] and ["007"], and
    rejects [""], ["-"], [" 1"], ["1.0"] and every value of 19 digits or more
    outside [int64]. *)
Theorem atoi_ok_iff s z :
  atoi s = (z, None) <-> decimal_spec s = Some z /\ in_int64 z.
Proof. apply atoi_success_iff. Qed.

(** Whatever the input, the [int] [Atoi] returns is in the [int64] range:
    [0] on a syntax error, the clamped bound on a range error, the value
    otherwise. *)
Theorem atoi_in_range s : in_int64 (fst (atoi s)).
Proof.
  rewrite atoi_parse_int_eq. unfold parse_int, parse_int_body.
  destruct s as [|c r]; [by compute|].
  destruct (split_sign (String c r)) as [neg body].
  destruct (parse_uint body) as [un [[|]|]]; repeat case_match; simpl;
    first [apply wrap_int64_range | unfold in_int64, min_int64, max_int64; lia].
Qed.

End Strconv.
