(* ===== verification/Dom.v ===== *)
(** * The parsed page and the goquery operations the extractor calls

    [goquery.NewDocument] parses the page into a tree of [html.Node]s; the
    extractor then only calls [Find] (with a CSS selector compiled by
    cascadia), [First], [Last], [Text], [Length] and [Each].  This file
    models the tree and those operations:

    - [node]: element nodes (tag, attributes, children), text nodes and
      comment nodes; a [document] is the list of children of the document
      node;
    - a [selection] is the list of nodes of a goquery [Selection];
    - [match_all] is cascadia's [matchAllInto] (the node, then its subtrees
      in document order), [find_in] is goquery's [findWithMatcher] from one
      node (matches among the element children's subtrees), [sel_find] its
      lifting to a selection;
    - matchers receive the node's ancestors (nearest first), as cascadia's
      descendant combinator walks [n.Parent]; [match_include] is cascadia's
      [matchInclude] on the whitespace-separated words of [class];
    - [forecast_block] is the selector [div.tx-dmi-data-store table table],
      [tag_is "tr"] and [tag_is "td"] the two type selectors;
    - [positions], [html_words] and [block_position] say what those
      operations and selectors denote, and the last theorems prove that
      [doc_find] and [forecast_block] compute exactly that. *)

From S2P Require Import Prelude.

Module Dom.

Inductive node : Type :=
| Element (tag : string) (attrs : list (string * string)) (children : list node)
| TextNode (data : string)
| CommentNode (data : string).

Definition document := list node.
Definition selection := list node.

(** A cascadia matcher: the ancestors of the node (nearest first), then the
    node. *)
Definition matcher := list node -> node -> bool.

Definition is_element (n : node) : bool :=
  match n with Element _ _ _ => true | _ => false end.

(** [Selection.Text]: the text nodes of the subtree, in document order;
    comments contribute nothing. *)
Fixpoint node_text (n : node) : string :=
  match n with
  | TextNode s => s
  | CommentNode _ => ""
  | Element _ _ cs =>
      (fix go (cs : list node) : string :=
         match cs with
         | [] => ""
         | c :: cs' => node_text c +:+ go cs'
         end) cs
  end.

Definition sel_text (s : selection) : string :=
  foldr (fun n acc => node_text n +:+ acc) "" s.

(** [Selection.First], [Selection.Last], [Selection.Length]. *)
Definition sel_first (s : selection) : selection :=
  match s with [] => [] | n :: _ => [n] end.

Definition sel_last (s : selection) : selection :=
  match last s with None => [] | Some n => [n] end.

Definition sel_length (s : selection) : nat := length s.

(** cascadia's [matchAllInto]: the node itself if it matches, then every
    node of its subtrees, in document order. *)
Fixpoint match_all (m : matcher) (anc : list node) (n : node) : list node :=
  (if m anc n then [n] else []) ++
  match n with
  | Element _ _ cs =>
      (fix go (cs : list node) : list node :=
         match cs with
         | [] => []
         | c :: cs' => match_all m (n :: anc) c ++ go cs'
         end) cs
  | _ => []
  end.

(** goquery's [findWithMatcher] from one node: the matches in the subtree
    of each element child. *)
Definition find_in (m : matcher) (anc : list node) (n : node) : list node :=
  match n with
  | Element _ _ cs =>
      flat_map (fun c => if is_element c then match_all m (n :: anc) c else []) cs
  | _ => []
  end.

(** [Selection.Find] on a selection whose nodes are taken with an empty
    ancestor list: used for the type selectors [tr] and [td], which do not
    look at ancestors. *)
Definition sel_find (m : matcher) (s : selection) : selection :=
  flat_map (find_in m []) s.

(** [Document.Find]: the document node is the root; its element children
    have no element ancestor. *)
Definition doc_find (m : matcher) (d : document) : selection :=
  flat_map (fun c => if is_element c then match_all m [] c else []) d.

(** ** Selectors *)

Definition tag_is (t : string) : matcher :=
  fun _ n => match n with Element t' _ _ => bool_decide (t' = t) | _ => false end.

Definition is_html_space (c : ascii) : bool :=
  bool_decide (c = " "%char) || bool_decide (c = "009"%char) ||
  bool_decide (c = "013"%char) || bool_decide (c = "010"%char) ||
  bool_decide (c = "012"%char).

(** cascadia's [matchInclude(val, s)]: cut [s] at each of [" \t\r\n\f"],
    compare each piece with [val]; a last piece is compared only when it is
    not empty (the loop runs [for s != ""]).  [seg] is the current piece. *)
Fixpoint match_include_from (val seg s : string) : bool :=
  match s with
  | EmptyString => negb (bool_decide (seg = "")) && bool_decide (seg = val)
  | String c rest =>
      if is_html_space c then bool_decide (seg = val) || match_include_from val "" rest
      else match_include_from val (seg +:+ String c EmptyString) rest
  end.

Definition match_include (val s : string) : bool := match_include_from val "" s.

(** A class selector: some [class] attribute includes the word. *)
Definition has_class (cls : string) : matcher :=
  fun _ n =>
    match n with
    | Element _ attrs _ =>
        existsb (fun kv => bool_decide (kv.1 = "class") && match_include cls kv.2) attrs
    | _ => false
    end.

(** The descendant combinator [A B]: the node matches [B] and some
    ancestor matches [A] (with that ancestor's own ancestors). *)
Fixpoint some_ancestor (a : matcher) (anc : list node) : bool :=
  match anc with
  | [] => false
  | p :: rest => a rest p || some_ancestor a rest
  end.

Definition descendant (a b : matcher) : matcher :=
  fun anc n => b anc n && some_ancestor a anc.

Definition compound (a b : matcher) : matcher :=
  fun anc n => a anc n && b anc n.

(** [div.tx-dmi-data-store table table] (part_000 line 125). *)
Definition forecast_block : matcher :=
  descendant (descendant (compound (tag_is "div") (has_class "tx-dmi-data-store"))
                         (tag_is "table"))
             (tag_is "table").

(** ** What the selectors denote *)

(** Induction on trees, through the list of children. *)
Section NodeInd.
Variable P : node -> Prop.
Hypothesis Helem : forall tag attrs cs, Forall P cs -> P (Element tag attrs cs).
Hypothesis Htext : forall s, P (TextNode s).
Hypothesis Hcomment : forall s, P (CommentNode s).

Fixpoint node_ind' (n : node) : P n :=
  match n with
  | Element tag attrs cs =>
      Helem tag attrs cs
        ((fix go (cs : list node) : Forall P cs :=
            match cs with
            | [] => @List.Forall_nil _ P
            | c :: cs' => @List.Forall_cons _ P c cs' (node_ind' c) (go cs')
            end) cs)
  | TextNode s => Htext s
  | CommentNode s => Hcomment s
  end.
End NodeInd.

(** Every node of a subtree with its ancestors (nearest first), in
    document order: the node, then its children's subtrees left to right. *)
Fixpoint positions (anc : list node) (n : node) : list (list node * node) :=
  (anc, n) ::
  match n with
  | Element _ _ cs =>
      (fix go (cs : list node) : list (list node * node) :=
         match cs with
         | [] => []
         | c :: cs' => positions (n :: anc) c ++ go cs'
         end) cs
  | _ => []
  end.

(** The positions under the document node: those of each element child. *)
Definition doc_positions (d : document) : list (list node * node) :=
  flat_map (fun c => if is_element c then positions [] c else []) d.

(** The matches of [m] among positions, in their order. *)
Definition matches (m : matcher) (ps : list (list node * node)) : list node :=
  map snd (filter (fun p => m p.1 p.2) ps).

Lemma matches_app m ps qs : matches m (ps ++ qs) = matches m ps ++ matches m qs.
Proof. unfold matches. by rewrite filter_app, map_app. Qed.

Lemma matches_flat_map {A} m (f : A -> list (list node * node)) l :
  matches m (flat_map f l) = flat_map (fun x => matches m (f x)) l.
Proof. induction l as [|x l IH]; [done|]. simpl. by rewrite matches_app, IH. Qed.

Ltac decide_bool :=
  match goal with |- context [@decide (Is_true ?b) _] => destruct b; simpl end.

Lemma match_all_positions m anc n : match_all m anc n = matches m (positions anc n).
Proof.
  revert anc. induction n as [tag attrs cs IH|s|s] using node_ind'; intros anc;
    unfold matches; simpl.
  2,3: rewrite filter_cons; simpl; decide_bool; reflexivity.
  fold (matches m).
  generalize (Element tag attrs cs :: anc) as a. intros a.
  assert ((fix go (cs0 : list node) : list node :=
             match cs0 with
             | [] => []
             | c :: cs' => match_all m a c ++ go cs'
             end) cs =
          matches m ((fix go (cs0 : list node) : list (list node * node) :=
             match cs0 with
             | [] => []
             | c :: cs' => positions a c ++ go cs'
             end) cs)) as ->.
  { induction IH as [|c cs' Hc _ IHcs]; [done|]. by rewrite matches_app, Hc, IHcs. }
  unfold matches. rewrite filter_cons. simpl. decide_bool; reflexivity.
Qed.

(** The words of a [class] value: the pieces between the white-space bytes
    [" \t\r\n\f"], empty pieces dropped (CSS's [~=]). *)
Fixpoint words_from (seg s : string) : list string :=
  match s with
  | EmptyString => if bool_decide (seg = "") then [] else [seg]
  | String c rest =>
      if is_html_space c then
        if bool_decide (seg = "") then words_from "" rest else seg :: words_from "" rest
      else words_from (seg +:+ String c EmptyString) rest
  end.

Definition html_words (s : string) : list string := words_from "" s.

Lemma match_include_from_words val seg s :
  val <> "" -> match_include_from val seg s = true <-> In val (words_from seg s).
Proof.
  intros Hv. revert seg. induction s as [|c rest IH]; intros seg; simpl.
  - case_bool_decide as Hs; simpl; [subst; split; [done|intros []]|].
    rewrite bool_decide_eq_true. split; [intros ->; by left|intros [->|[]]; done].
  - destruct (is_html_space c).
    + rewrite orb_true_iff, IH, bool_decide_eq_true.
      case_bool_decide as Hs; simpl; naive_solver.
    + apply IH.
Qed.

(** cascadia's [matchInclude] is CSS's [~=]: one of the words is [val]. *)
Lemma match_include_words val s :
  val <> "" -> match_include val s = true <-> In val (html_words s).
Proof. apply match_include_from_words. Qed.

Definition is_tag (t : string) (n : node) : Prop :=
  match n with Element t' _ _ => t' = t | _ => False end.

Definition has_class_word (w : string) (n : node) : Prop :=
  match n with
  | Element _ attrs _ => exists v, In ("class", v) attrs /\ In w (html_words v)
  | _ => False
  end.

(** [div.tx-dmi-data-store table table] at a position: a [table] with a
    [table] among its ancestors, which has among its own ancestors a [div]
    whose class includes the word [tx-dmi-data-store]. *)
Definition block_position (anc : list node) (x : node) : Prop :=
  is_tag "table" x /\
  exists a1 t a2 d a3, anc = a1 ++ t :: a2 ++ d :: a3 /\ is_tag "table" t /\
                       is_tag "div" d /\ has_class_word "tx-dmi-data-store" d.

Lemma tag_is_spec t anc n : tag_is t anc n = true <-> is_tag t n.
Proof. destruct n; simpl; [apply bool_decide_eq_true|done|done]. Qed.

Lemma has_class_spec cls anc n :
  cls <> "" -> has_class cls anc n = true <-> has_class_word cls n.
Proof.
  intros Hc. destruct n as [tag attrs cs| |]; simpl; [|done|done].
  rewrite existsb_exists. split.
  - intros ([k v] & Hin & Hm). apply andb_true_iff in Hm as [Hk Hm].
    apply bool_decide_eq_true in Hk. simpl in Hk, Hm. subst k.
    exists v. split; [done|]. by apply match_include_words.
  - intros (v & Hin & Hw). exists ("class", v). split; [done|].
    apply andb_true_iff. split; [by apply bool_decide_eq_true|]. by apply match_include_words.
Qed.

Lemma some_ancestor_spec a anc :
  some_ancestor a anc = true <-> exists a1 p rest, anc = a1 ++ p :: rest /\ a rest p = true.
Proof.
  induction anc as [|p rest IH]; simpl.
  - split; [done|]. intros ([|? ?] & ? & ? & ? & _); discriminate.
  - rewrite orb_true_iff, IH. split.
    + intros [H|(a1 & q & r & -> & H)]; [by exists [], p, rest|].
      by exists (p :: a1), q, r.
    + intros ([|b a1] & q & r & Heq & H); simpl in Heq; injection Heq as -> ->; [by left|].
      right. by exists a1, q, r.
Qed.

Lemma forecast_block_spec_aux anc x : forecast_block anc x = true <-> block_position anc x.
Proof.
  unfold forecast_block, descendant, compound, block_position.
  rewrite andb_true_iff, tag_is_spec, some_ancestor_spec.
  split.
  - intros [Hx (a1 & t & r & -> & Ht)]. apply andb_true_iff in Ht as [Ht Hd].
    apply tag_is_spec in Ht. apply some_ancestor_spec in Hd as (a2 & d & a3 & -> & Hd).
    apply andb_true_iff in Hd as [Hdiv Hcls]. apply tag_is_spec in Hdiv.
    apply has_class_spec in Hcls; [|done]. split; [done|]. by exists a1, t, a2, d, a3.
  - intros [Hx (a1 & t & a2 & d & a3 & -> & Ht & Hdiv & Hcls)]. split; [done|].
    exists a1, t, (a2 ++ d :: a3). split; [done|]. apply andb_true_iff. split; [by apply tag_is_spec|].
    apply some_ancestor_spec. exists a2, d, a3. split; [done|].
    apply andb_true_iff. split; [by apply tag_is_spec|]. by apply has_class_spec.
Qed.

Lemma doc_find_matches_aux m d : doc_find m d = matches m (doc_positions d).
Proof.
  unfold doc_find, doc_positions. rewrite matches_flat_map. apply flat_map_ext.
  intros c. destruct (is_element c); [apply match_all_positions|done].
Qed.

(** [Document.Find] returns the nodes matched at the positions of the
    document, each once per position and in document order: the element
    children of the document node one after the other, each node before the
    subtrees of its children, the children left to right. *)
Theorem doc_find_document_order m d : doc_find m d = matches m (doc_positions d).
Proof. apply doc_find_matches_aux. Qed.

(** C33. The compiled selector [div.tx-dmi-data-store table table] holds at a
    node with given ancestors exactly when the node is a [table], one of its
    ancestors is a [table], and an ancestor of that one is a [div] whose
    [class] attribute has [tx-dmi-data-store] among its white-space
    separated words. *)
Theorem forecast_block_spec anc x : forecast_block anc x = true <-> block_position anc x.
Proof. apply forecast_block_spec_aux. Qed.

End Dom.
