(* ===== verification/Extract.v ===== *)
(** * The extractor: from the parsed page to the forecast records

    The body of [rebuildCache] between the fetch and the publication
    (part_000 lines 122-176, identical in part_001 lines 100-154 and
    main.go lines 58-112): two nested [Each] callbacks, each guarded by
    a sticky error flag ([outerErr], [err]).

    - [row_step] is the inner callback over [selection.Find("tr")]: skip
      if [err] is set or the row does not have exactly two [td]
      descendants; otherwise read the last cell, keep [0] for ["-"] or
      call [strconv.Atoi], set [err] on failure, and append the value
      either way;
    - [block_step] is the outer callback over the blocks: skip if
      [outerErr] is set; read the first and last rows' text; run the inner
      loop; propagate its error or append the record;
    - [extract] runs the outer loop and returns the records or the error.

    [extract_spec] is the abstract contract of the specification (section
    9): each row is classified into a tagged [row_kind], the tags are folded
    with [mapM] in the result monad, all or nothing.  [extract_refines]
    proves the Go loop computes exactly that. *)

From S2P Require Import Prelude GoStrconv Dom.
Import Dom.
Local Open Scope Z_scope.

Module Extract.

(** [type forecastValue struct { Name string; Value int }] *)
Record forecastValue := mkValue { Name : string; Value : Z }.

(** [type forecast struct { CityName, ForecastText string; Values []forecastValue }] *)
Record forecast := mkForecast {
  CityName : string;
  ForecastText : string;
  Values : list forecastValue
}.

(** The errors a rebuild can return: the fetch error of
    [goquery.NewDocument] (its message is opaque here) and the parse error
    [fmt.Errorf("unable to parse pollen value for \"%s\": %v", strValue,
    innerErr)]. *)
Inductive pollen_error :=
| FetchError (msg : string)
| ParseError (strValue : string) (cause : Strconv.num_error).

(** [sel.Find("td")] on a one-row selection. *)
Definition row_cells (sel : node) : selection := sel_find (tag_is "td") [sel].

(** [selection.Find("tr")] on a one-block selection. *)
Definition block_rows (block : node) : selection := sel_find (tag_is "tr") [block].

(** The state the inner callback closes over: [err] and [forecastValues]. *)
Record row_state := mkRowState { err : option pollen_error; forecastValues : list forecastValue }.

(** The inner callback (part_000 lines 138-161). *)
Definition row_step (st : row_state) (sel : node) : row_state :=
  if is_set (err st) || negb (sel_length (row_cells sel) =? 2)%nat then st
  else
    let strValue := sel_text (sel_last (row_cells sel)) in
    let '(value, err') :=
      if negb (bool_decide (strValue = "-"))
      then let '(v, innerErr) := Strconv.atoi strValue in
           (v, match innerErr with
               | Some e => Some (ParseError strValue e)
               | None => None
               end)
      else (0, None) in
    mkRowState err'
      (forecastValues st ++ [mkValue (sel_text (sel_first (row_cells sel))) value]).

(** The state the outer callback closes over: [outerErr] and [forecasts]. *)
Record block_state := mkBlockState { outerErr : option pollen_error; forecasts : list forecast }.

(** The outer callback (part_000 lines 125-173). *)
Definition block_step (st : block_state) (selection : node) : block_state :=
  if is_set (outerErr st) then st
  else
    let cityName := sel_text (sel_first (block_rows selection)) in
    let forecastText := sel_text (sel_last (block_rows selection)) in
    let inner := fold_left row_step (block_rows selection) (mkRowState None []) in
    match err inner with
    | Some e => mkBlockState (Some e) (forecasts st)
    | None =>
        mkBlockState None
          (forecasts st ++ [mkForecast cityName forecastText (forecastValues inner)])
    end.

(** The extraction (part_000 lines 122-176, without the lock and fetch). *)
Definition extract (doc : document) : result pollen_error (list forecast) :=
  let st := fold_left block_step (doc_find forecast_block doc) (mkBlockState None []) in
  match outerErr st with
  | Some e => Err e
  | None => Ok (forecasts st)
  end.

(** ** The abstract contract

    Each row is tagged: skipped (not exactly two cells), a measurement, or
    a bad value; a block's record exists only if none of its rows is bad,
    and the document's records only if every block's does. *)

Inductive row_kind :=
| SkippedRow
| MeasurementRow (v : forecastValue)
| BadRow (e : pollen_error).

(** The text of the value cell and of the name cell of a row. *)
Definition cell_value (tr : node) : string := sel_text (sel_last (row_cells tr)).
Definition cell_name (tr : node) : string := sel_text (sel_first (row_cells tr)).

Definition two_cells (tr : node) : bool := (length (row_cells tr) =? 2)%nat.

Definition classify_row (tr : node) : row_kind :=
  if two_cells tr then
    if bool_decide (cell_value tr = "-") then MeasurementRow (mkValue (cell_name tr) 0)
    else match Strconv.atoi (cell_value tr) with
         | (v, None) => MeasurementRow (mkValue (cell_name tr) v)
         | (_, Some e) => BadRow (ParseError (cell_value tr) e)
         end
  else SkippedRow.

Definition row_result (k : row_kind) : result pollen_error (list forecastValue) :=
  match k with
  | SkippedRow => Ok []
  | MeasurementRow v => Ok [v]
  | BadRow e => Err e
  end.

Definition block_spec (b : node) : result pollen_error forecast :=
  vss ← mapM (fun tr => row_result (classify_row tr)) (block_rows b);
  mret (mkForecast (sel_text (sel_first (block_rows b))) (sel_text (sel_last (block_rows b)))
          (concat vss)).

Definition extract_spec (doc : document) : result pollen_error (list forecast) :=
  mapM block_spec (doc_find forecast_block doc).

(** ** Lemmas *)

Lemma row_fold_stuck e vs l :
  fold_left row_step l (mkRowState (Some e) vs) = mkRowState (Some e) vs.
Proof.
  apply (fold_left_stuck _ (fun st => is_set (err st) = true)); [|done].
  intros st b H. unfold row_step. by rewrite H.
Qed.

Lemma block_fold_stuck e fs l :
  fold_left block_step l (mkBlockState (Some e) fs) = mkBlockState (Some e) fs.
Proof.
  apply (fold_left_stuck _ (fun st => is_set (outerErr st) = true)); [|done].
  intros st b H. unfold block_step. by rewrite H.
Qed.

(** One run of the inner callback with [err == nil], by the row's tag. *)
Lemma row_step_classify vs tr :
  match classify_row tr with
  | SkippedRow => row_step (mkRowState None vs) tr = mkRowState None vs
  | MeasurementRow v => row_step (mkRowState None vs) tr = mkRowState None (vs ++ [v])
  | BadRow e => err (row_step (mkRowState None vs) tr) = Some e
  end.
Proof.
  unfold classify_row, row_step, two_cells, cell_value, cell_name, sel_length. simpl.
  destruct (length (row_cells tr) =? 2)%nat; simpl; [|done].
  case_bool_decide; simpl; [done|].
  by destruct (Strconv.atoi _) as [v [e|]].
Qed.

Lemma row_fold_spec trs vs :
  match mapM (fun tr => row_result (classify_row tr)) trs with
  | Ok vss => fold_left row_step trs (mkRowState None vs) = mkRowState None (vs ++ concat vss)
  | Err e => err (fold_left row_step trs (mkRowState None vs)) = Some e
  end.
Proof.
  revert vs. induction trs as [|tr trs IH]; intros vs.
  { simpl. by rewrite app_nil_r. }
  pose proof (row_step_classify vs tr) as Hs.
  rewrite mapM_result_cons. cbn [fold_left].
  destruct (classify_row tr) as [|v|e]; simpl.
  - rewrite Hs. specialize (IH vs).
    destruct (mapM _ trs); [done|done].
  - rewrite Hs. specialize (IH (vs ++ [v])).
    destruct (mapM _ trs); [|done]. by rewrite IH, <- app_assoc.
  - destruct (row_step (mkRowState None vs) tr) as [e' vs'] eqn:E.
    simpl in Hs. subst e'. by rewrite row_fold_stuck.
Qed.

Lemma block_step_spec fs b :
  block_step (mkBlockState None fs) b =
    match block_spec b with
    | Ok f => mkBlockState None (fs ++ [f])
    | Err e => mkBlockState (Some e) fs
    end.
Proof.
  unfold block_step, block_spec. simpl.
  pose proof (row_fold_spec (block_rows b) []) as H.
  destruct (mapM _ (block_rows b)) as [vss|e]; simpl.
  - by rewrite H.
  - by rewrite H.
Qed.

Lemma block_fold_spec bs fs :
  match mapM block_spec bs with
  | Ok fs' => fold_left block_step bs (mkBlockState None fs) = mkBlockState None (fs ++ fs')
  | Err e => outerErr (fold_left block_step bs (mkBlockState None fs)) = Some e
  end.
Proof.
  revert fs. induction bs as [|b bs IH]; intros fs.
  { simpl. by rewrite app_nil_r. }
  rewrite mapM_result_cons. cbn [fold_left]. rewrite block_step_spec.
  destruct (block_spec b) as [f|e].
  - specialize (IH (fs ++ [f])). destruct (mapM block_spec bs); [|done].
    by rewrite IH, <- app_assoc.
  - by rewrite block_fold_stuck.
Qed.

(** ** Row tags *)

(** A value cell the contract accepts: the placeholder, or a decimal
    integer that fits in Go's [int]. *)
Definition value_ok (raw : string) : Prop :=
  raw = "-" \/ exists z, Strconv.decimal_spec raw = Some z /\ in_int64 z.

(** A row the contract accepts: not a measurement row, or a good value. *)
Definition row_ok (tr : node) : Prop := two_cells tr = true -> value_ok (cell_value tr).

Definition block_ok (b : node) : Prop := Forall row_ok (block_rows b).

(** The measurement a row yields: its name cell, [0] for the placeholder,
    the decimal value otherwise. *)
Definition measurement_of (tr : node) (v : forecastValue) : Prop :=
  Name v = cell_name tr /\
  (cell_value tr = "-" /\ Value v = 0 \/
   cell_value tr <> "-" /\ Strconv.decimal_spec (cell_value tr) = Some (Value v) /\
   in_int64 (Value v)).

Lemma classify_measurement tr v :
  classify_row tr = MeasurementRow v <-> two_cells tr = true /\ measurement_of tr v.
Proof.
  destruct v as [n z]. unfold classify_row, measurement_of. simpl.
  destruct (two_cells tr); [|naive_solver].
  case_bool_decide as Hd.
  - split; [intros [= -> ->]; naive_solver|].
    by intros (_ & -> & [[_ ->]|[? _]]).
  - destruct (Strconv.atoi (cell_value tr)) as [z' [ne|]] eqn:Ha.
    + split; [done|]. intros (_ & _ & [[? _]|(_ & Hs & Hr)]); [done|].
      pose proof (proj2 (Strconv.atoi_success_iff _ _) (conj Hs Hr)). congruence.
    + apply Strconv.atoi_success_iff in Ha as [Hs Hr].
      split; [intros [= -> ->]; naive_solver|].
      intros (_ & -> & [[? _]|(_ & Hs' & _)]); [done|]. congruence.
Qed.

Lemma classify_bad tr e :
  classify_row tr = BadRow e <->
  two_cells tr = true /\ ~ value_ok (cell_value tr) /\
  exists ne, e = ParseError (cell_value tr) ne /\ snd (Strconv.atoi (cell_value tr)) = Some ne.
Proof.
  unfold classify_row, value_ok.
  destruct (two_cells tr); [|naive_solver].
  case_bool_decide as Hd; [naive_solver|].
  destruct (Strconv.atoi (cell_value tr)) as [z [ne|]] eqn:Ha.
  - split; [intros [= <-]|naive_solver].
    split; [done|]. split; [|by eexists]. intros [?|(z' & Hs & Hr)]; [done|].
    pose proof (proj2 (Strconv.atoi_success_iff _ _) (conj Hs Hr)). congruence.
  - apply Strconv.atoi_success_iff in Ha. naive_solver.
Qed.

Lemma row_result_ok tr : is_ok (row_result (classify_row tr)) = true <-> row_ok tr.
Proof.
  unfold row_ok. destruct (classify_row tr) as [|v|e] eqn:Hc; simpl.
  - unfold classify_row in Hc. destruct (two_cells tr); [|naive_solver].
    case_bool_decide; [done|]. by destruct (Strconv.atoi _) as [? [|]].
  - apply classify_measurement in Hc as (_ & _ & [[-> _]|(_ & Hs & Hr)]);
      unfold value_ok; naive_solver.
  - apply classify_bad in Hc. naive_solver.
Qed.

Lemma rows_ok_measurements trs vss :
  mapM (fun tr => row_result (classify_row tr)) trs = Ok vss ->
  Forall2 measurement_of (filter (fun tr => two_cells tr = true) trs) (concat vss).
Proof.
  rewrite mapM_result_Ok. induction 1 as [|tr vs trs vss Hr _ IH]; simpl; [constructor|].
  rewrite filter_cons. destruct (classify_row tr) as [|v|e] eqn:Hc; simplify_eq/=.
  - unfold classify_row in Hc. destruct (two_cells tr) eqn:Ht.
    + case_bool_decide; [done|]. by destruct (Strconv.atoi _) as [? [|]].
    + rewrite decide_False by done. done.
  - apply classify_measurement in Hc as [Ht Hm]. rewrite decide_True by done.
    by constructor.
Qed.

Lemma block_spec_ok b : is_ok (block_spec b) = true <-> block_ok b.
Proof.
  unfold block_spec, block_ok. split.
  - destruct (mapM _ (block_rows b)) as [vss|e] eqn:H; [|done]. intros _.
    apply mapM_result_Ok in H. induction H; constructor; [|done].
    apply row_result_ok. by rewrite H.
  - intros Hok. destruct (mapM _ (block_rows b)) as [vss|e] eqn:H; [done|].
    apply mapM_result_Err in H as (l1 & x & l2 & Hl & _ & Hx).
    rewrite Hl, Forall_app, Forall_cons in Hok. destruct Hok as (_ & Hx' & _).
    apply row_result_ok in Hx'. by rewrite Hx in Hx'.
Qed.

(** ** Theorems *)

Lemma extract_eq_spec doc : extract doc = extract_spec doc.
Proof.
  unfold extract, extract_spec.
  pose proof (block_fold_spec (doc_find forecast_block doc) []) as H.
  destruct (mapM block_spec _) as [fs|e]; by rewrite H.
Qed.

(** C1. Refinement: the Go extraction loop, with its two sticky error flags
    and early returns, computes exactly the all-or-nothing contract: the
    row tags of every block folded with [mapM]. *)
Theorem extract_refines doc : extract doc = extract_spec doc.
Proof. apply extract_eq_spec. Qed.

Lemma extract_ok_blocks_ok doc :
  is_ok (extract doc) = true <-> Forall block_ok (doc_find forecast_block doc).
Proof.
  rewrite extract_eq_spec. unfold extract_spec. split.
  - destruct (mapM block_spec _) as [fs|e] eqn:H; [|done]. intros _.
    apply mapM_result_Ok in H. induction H; constructor; [|done].
    apply block_spec_ok. by rewrite H.
  - intros Hok. destruct (mapM block_spec _) as [fs|e] eqn:H; [done|].
    apply mapM_result_Err in H as (l1 & x & l2 & Hl & _ & Hx).
    rewrite Hl, Forall_app, Forall_cons in Hok. destruct Hok as (_ & Hx' & _).
    apply block_spec_ok in Hx'. by rewrite Hx in Hx'.
Qed.

(** The extraction succeeds exactly when every two-cell row of every
    block holds ["-"] or a decimal integer in Go's [int] range. *)
Theorem extract_succeeds_iff doc :
  is_ok (extract doc) = true <-> Forall block_ok (doc_find forecast_block doc).
Proof. apply extract_ok_blocks_ok. Qed.

Lemma classify_bad_not_ok tr e : classify_row tr = BadRow e -> ~ row_ok tr.
Proof. intros H Hok. apply classify_bad in H as (Ht & Hv & _). by apply Hv, Hok. Qed.

Lemma block_spec_Err b e :
  block_spec b = Err e <->
  exists rs1 tr rs2, block_rows b = rs1 ++ tr :: rs2 /\ Forall row_ok rs1 /\
    classify_row tr = BadRow e.
Proof.
  unfold block_spec.
  destruct (mapM _ (block_rows b)) as [vss|e'] eqn:H; simpl.
  - split; [done|]. intros (rs1 & tr & rs2 & Hr & _ & Htr).
    apply mapM_result_Ok in H. rewrite Hr in H.
    apply Forall2_app_inv_l in H as (? & ? & _ & H & _).
    inversion H as [|? ? ? ? Hx]; subst. by rewrite Htr in Hx.
  - apply mapM_result_Err in H as (rs1 & tr & rs2 & Hr & Hok & Htr).
    assert (Forall row_ok rs1).
    { eapply Forall_impl; [done|]. intros y Hy. by apply row_result_ok. }
    assert (exists e0, classify_row tr = BadRow e0) as [e0 He0]
      by (destruct (classify_row tr); simplify_eq/=; eauto).
    rewrite He0 in Htr. simplify_eq/=.
    split; [intros [= <-]; by exists rs1, tr, rs2|].
    intros (rs1' & tr' & rs2' & Hr' & Hok' & Htr').
    destruct (first_failure_unique row_ok rs1 tr rs2 rs1' tr' rs2') as (_ & <- & _);
      eauto using classify_bad_not_ok; [by rewrite <- Hr, <- Hr'|].
    congruence.
Qed.

(** C2. All or nothing: the extraction fails exactly when some block has a
    two-cell row whose value is neither ["-"] nor an [int], every earlier
    block and every earlier row of that block being fine; the error is the
    [ParseError] of that first bad value, and no record is returned. *)
Theorem extract_first_error doc e :
  extract doc = Err e <->
  exists bs1 b bs2 rs1 tr rs2,
    doc_find forecast_block doc = bs1 ++ b :: bs2 /\ Forall block_ok bs1 /\
    block_rows b = rs1 ++ tr :: rs2 /\ Forall row_ok rs1 /\
    two_cells tr = true /\ ~ value_ok (cell_value tr) /\
    exists ne, e = ParseError (cell_value tr) ne /\
               snd (Strconv.atoi (cell_value tr)) = Some ne.
Proof.
  rewrite extract_eq_spec. unfold extract_spec. rewrite mapM_result_Err. split.
  - intros (bs1 & b & bs2 & Hbs & Hok & Hb).
    apply block_spec_Err in Hb as (rs1 & tr & rs2 & Hrs & Hrok & Htr).
    apply classify_bad in Htr as (Ht & Hv & Hne).
    exists bs1, b, bs2, rs1, tr, rs2. repeat split; try done.
    eapply Forall_impl; [done|]. intros y Hy. by apply block_spec_ok.
  - intros (bs1 & b & bs2 & rs1 & tr & rs2 & Hbs & Hok & Hrs & Hrok & Ht & Hv & Hne).
    exists bs1, b, bs2. split; [done|]. split.
    + eapply Forall_impl; [done|]. intros y Hy. by apply block_spec_ok.
    + apply block_spec_Err. exists rs1, tr, rs2. repeat split; try done.
      by apply classify_bad.
Qed.

(** The record a block yields: its first and last rows' text, and one
    measurement per two-cell row, in document order. *)
Definition record_of (b : node) (f : forecast) : Prop :=
  CityName f = sel_text (sel_first (block_rows b)) /\
  ForecastText f = sel_text (sel_last (block_rows b)) /\
  Forall2 measurement_of (filter (fun tr => two_cells tr = true) (block_rows b)) (Values f).

Lemma measurement_of_unique tr v1 v2 :
  measurement_of tr v1 -> measurement_of tr v2 -> v1 = v2.
Proof.
  destruct v1 as [n1 z1], v2 as [n2 z2]. unfold measurement_of; simpl.
  intros (-> & [[? ->]|(? & H1 & _)]) (-> & [[? ->]|(? & H2 & _)]); congruence.
Qed.

Lemma record_of_unique b f1 f2 : record_of b f1 -> record_of b f2 -> f1 = f2.
Proof.
  destruct f1 as [c1 t1 v1], f2 as [c2 t2 v2]. unfold record_of; simpl.
  intros (-> & -> & H1) (-> & -> & H2). f_equal.
  eauto using Forall2_unique, measurement_of_unique.
Qed.

Lemma measurement_value_ok tr v : measurement_of tr v -> value_ok (cell_value tr).
Proof. unfold measurement_of, value_ok. naive_solver. Qed.

Lemma rows_ok_filter trs :
  Forall row_ok trs <->
  Forall (fun tr => value_ok (cell_value tr)) (filter (fun tr => two_cells tr = true) trs).
Proof.
  unfold row_ok. induction trs as [|tr trs IH]; [split; constructor|].
  rewrite filter_cons, Forall_cons. case_decide; rewrite ?Forall_cons; naive_solver.
Qed.

Lemma record_of_block_ok b f : record_of b f -> block_ok b.
Proof.
  intros (_ & _ & H). unfold block_ok. apply rows_ok_filter.
  eapply Forall2_Forall_l; [done|]. apply Forall_forall.
  intros v _ tr. apply measurement_value_ok.
Qed.

Lemma block_spec_record b f : block_spec b = Ok f -> record_of b f.
Proof.
  unfold block_spec. destruct (mapM _ (block_rows b)) as [vss|e] eqn:H; [|done].
  intros [= <-]. repeat split. by apply rows_ok_measurements.
Qed.

Lemma extract_Ok_records doc fs :
  extract doc = Ok fs <-> Forall2 record_of (doc_find forecast_block doc) fs.
Proof.
  rewrite extract_eq_spec. unfold extract_spec. split.
  - rewrite mapM_result_Ok. intros H. eapply Forall2_impl; [done|].
    intros b f. apply block_spec_record.
  - intros Hrec.
    assert (Forall block_ok (doc_find forecast_block doc)) as Hok.
    { eapply Forall2_Forall_l; [done|]. apply Forall_forall.
      intros f _ b. apply record_of_block_ok. }
    apply extract_ok_blocks_ok in Hok. rewrite extract_eq_spec in Hok.
    unfold extract_spec in Hok.
    destruct (mapM block_spec _) as [fs'|e] eqn:H; [|done].
    f_equal. apply mapM_result_Ok in H.
    eapply Forall2_unique; [|done|apply record_of_unique].
    eapply Forall2_impl; [done|]. intros b f. apply block_spec_record.
Qed.

(** C3. A successful extraction returns one record per block, in document
    order: the block's first and last rows' text, and one measurement per
    two-cell row ([0] for ["-"], the decimal value otherwise), and nothing
    else; conversely those records are what it returns. *)
Theorem extract_ok_iff doc fs :
  extract doc = Ok fs <-> Forall2 record_of (doc_find forecast_block doc) fs.
Proof. apply extract_Ok_records. Qed.

(** Counting: on success there are as many records as blocks, and each
    record has as many values as its block has two-cell rows. *)
Corollary extract_ok_counts doc fs :
  extract doc = Ok fs ->
  length fs = length (doc_find forecast_block doc) /\
  Forall2 (fun b f => length (Values f) =
                      length (filter (fun tr => two_cells tr = true) (block_rows b)))
    (doc_find forecast_block doc) fs.
Proof.
  rewrite extract_Ok_records. intros H. split; [symmetry; by eapply Forall2_length|].
  eapply Forall2_impl; [done|]. intros b f (_ & _ & Hv). symmetry.
  by eapply Forall2_length.
Qed.

Lemma extract_Ok_in_range doc fs :
  extract doc = Ok fs -> Forall (fun f => Forall (fun v => in_int64 (Value v)) (Values f)) fs.
Proof.
  rewrite extract_Ok_records. intros H.
  eapply Forall2_Forall_r; [done|]. apply Forall_forall.
  intros b _ f (_ & _ & Hv). eapply Forall2_Forall_r; [done|]. apply Forall_forall.
  intros tr _ v (_ & [[_ ->]|(_ & _ & ?)]); [|done].
  unfold in_int64, min_int64, max_int64. lia.
Qed.

(** Bounds: every value of a successful extraction is in the range of
    Go's 64-bit [int]. *)
Corollary extract_values_in_range doc fs :
  extract doc = Ok fs -> Forall (fun f => Forall (fun v => in_int64 (Value v)) (Values f)) fs.
Proof. apply extract_Ok_in_range. Qed.

(** ** Scenarios of the specification, on concrete pages *)

Module Scenarios.

Definition td (s : string) : node := Element "td" [] [TextNode s].
Definition tr (cells : list node) : node := Element "tr" [] cells.
Definition block (rows : list node) : node := Element "table" [] rows.

(** A page with the layout of the upstream site: the blocks are tables
    inside a table inside [div.tx-dmi-data-store]. *)
Definition dmi_page (blocks : list node) : document :=
  [Element "html" []
     [Element "body" []
        [Element "div" [("class", "page tx-dmi-data-store")]
           [Element "table" [] [tr [Element "td" [] blocks]]]]]].

Definition aarhus : node :=
  block [tr [td "Aarhus"]; tr [td "Birk"; td "12"]; tr [td "El"; td "-"];
         tr [td "Lav risiko"]].

(** Scenario A: one block for Aarhus with rows [("Birk","12")] and
    [("El","-")] gives one record with values [12] and [0]; its forecast
    text is the last row's text. *)
Example scenario_A :
  extract (dmi_page [aarhus]) =
    Ok [mkForecast "Aarhus" "Lav risiko" [mkValue "Birk" 12; mkValue "El" 0]].
Proof. vm_compute. reflexivity. Qed.

(** Scenario B: a value ["abc"] makes the whole extraction fail with a
    syntax [ParseError], although the block before it parsed cleanly. *)
Example scenario_B :
  extract (dmi_page [aarhus; block [tr [td "Odense"]; tr [td "Birk"; td "abc"]]]) =
    Err (ParseError "abc" Strconv.ErrSyntax).
Proof. vm_compute. reflexivity. Qed.

(** Scenario C: a block with a city row and no two-cell row gives a
    record with no values, not an error. *)
Example scenario_C :
  extract (dmi_page [block [tr [td "Esbjerg"]]]) =
    Ok [mkForecast "Esbjerg" "Esbjerg" []].
Proof. vm_compute. reflexivity. Qed.

(** Signed values are accepted: ["-3"] and ["+4"] are stored as [-3]
    and [4], although the specification describes values as non-negative
    counts. *)
Example negative_value_accepted :
  extract (dmi_page [block [tr [td "Vejle"]; tr [td "Birk"; td "-3"]; tr [td "Græs"; td "+4"]]]) =
    Ok [mkForecast "Vejle" "Græs+4" [mkValue "Birk" (-3); mkValue "Græs" 4]].
Proof. vm_compute. reflexivity. Qed.

(** Blocks overlap: a table nested in a block is itself a block, so its
    rows are counted in both records, and a row whose single cell holds a
    one-cell table has two [td] descendants and is read as a measurement. *)
Example nested_table_counted_twice :
  extract (dmi_page [block [tr [td "Ry"]; tr [Element "td" [] [block [tr [td "7"]]]]]]) =
    Ok [mkForecast "Ry" "7" [mkValue "7" 7]; mkForecast "7" "7" []].
Proof. vm_compute. reflexivity. Qed.

Definition aarhus_records : list forecast :=
  [mkForecast "Aarhus" "Lav risiko" [mkValue "Birk" 12; mkValue "El" 0]].

Lemma extract_ok_counts_witness :
  extract (dmi_page [aarhus]) = Ok aarhus_records /\
  length aarhus_records = length (doc_find forecast_block (dmi_page [aarhus])) /\
  Forall2 (fun b f => length (Values f) =
                      length (filter (fun tr => two_cells tr = true) (block_rows b)))
    (doc_find forecast_block (dmi_page [aarhus])) aarhus_records.
Proof.
  split; [vm_compute; reflexivity|].
  apply extract_ok_counts. vm_compute. reflexivity.
Defined.

Lemma extract_values_in_range_witness :
  extract (dmi_page [aarhus]) = Ok aarhus_records /\
  Forall (fun f => Forall (fun v => in_int64 (Value v)) (Values f)) aarhus_records.
Proof.
  split; [vm_compute; reflexivity|].
  apply (extract_values_in_range (dmi_page [aarhus])). vm_compute. reflexivity.
Defined.

End Scenarios.

End Extract.
