(* ===== verification/Cache.v ===== *)
(** * The cache, its refresh job and its readers (part_000, part_001)

    The program state is the package-level [cache], [cacheTimestamp] and
    [cacheMutex] (a [sync.RWMutex]), and the goroutines that share them:

    - the refresh job [refreshCacheJob], started by [main];
    - one goroutine per HTTP request, running [fetchCache] and then the
      handler's response;
    - one goroutine per [go rebuildCache()] that [fetchCache] spawns on a
      miss.

    Each goroutine is a [thread] with a program counter; a step runs one
    atomic action of one goroutine (a lock operation, one read or write of a
    shared variable, the fetch-and-extract, a spawn) or is an event of the
    environment (a new request, time passing).  The fetch is an input of the
    step: any outcome is possible.  [step] is defined through the
    executable [exec], so that runs can be evaluated.

    The extractor is reached through the [Scraper] interface: the cache's
    theorems hold for any scraper, with [snapshot_ok] the promise it makes
    about a successful result; the instance [extract_scraper] discharges it
    with the extractor of [Extract].

    [variant] selects the source: part_000 stamps [cacheTimestamp] and its
    handlers read it; its job rebuilds before the first tick.  part_001 has
    neither, and its job waits one tick first. *)

From S2P Require Import Prelude GoStrconv Dom Extract.
Import Dom Extract.

Module Cache.

(** ** What the cache needs from the extractor *)

Class Scraper := {
  scrape : document -> result pollen_error (list forecast);
  snapshot_ok : list forecast -> Prop;
  scrape_ok : forall d fs, scrape d = Ok fs -> snapshot_ok fs
}.

(** ** [sync.RWMutex]

    [Lock] first takes the writer mutex and announces itself
    ([WPending]); from then on [RLock] blocks, and the writer waits for the
    active readers to leave before it holds the lock ([WHeld]). *)

Inductive wstate := WFree | WPending | WHeld.

Record rwmutex := mkRW { writer : wstate; readers : nat }.

Definition rw_unlocked : rwmutex := mkRW WFree 0.

Definition rlock (m : rwmutex) : option rwmutex :=
  match writer m with WFree => Some (mkRW WFree (S (readers m))) | _ => None end.

Definition runlock (m : rwmutex) : rwmutex := mkRW (writer m) (readers m - 1).

Definition lock_announce (m : rwmutex) : option rwmutex :=
  match writer m with WFree => Some (mkRW WPending (readers m)) | _ => None end.

Definition lock_acquire (m : rwmutex) : option rwmutex :=
  match writer m, readers m with WPending, 0 => Some (mkRW WHeld 0) | _, _ => None end.

Definition unlock (m : rwmutex) : rwmutex := mkRW WFree (readers m).

(** ** Goroutines *)

(** The outcome of [goquery.NewDocument(url)]: a transport or status
    error, or the parsed page. *)
Inductive fetch_outcome := FetchFailed (msg : string) | Fetched (d : document).

(** [rebuildCache] (part_000 lines 113-182). *)
Inductive rebuild_pc :=
| RStart                                   (* before [cacheMutex.Lock()] *)
| RPending                                 (* announced, readers draining *)
| RLocked                                  (* holds the lock, before the fetch *)
| RParsed (r : result pollen_error (list forecast))  (* fetched and extracted *)
| RStamp                                   (* [cache] written, before [cacheTimestamp] *)
| RUnlock (r : result pollen_error unit)   (* returning: deferred [Unlock] *)
| RDone (r : result pollen_error unit).

(** What an HTTP handler sends. *)
Inductive response :=
| Resp500 (msg : string)
| Resp200 (output : list forecast) (timestamp : option nat).

(** [fetchCache] (part_000 lines 82-94) and the handler after it (lines
    46-74). *)
Inductive handler_pc :=
| HStart                            (* before [cacheMutex.RLock()] *)
| HLocked                           (* holds a read lock, before [cache == nil] *)
| HMiss                             (* spawned the rebuild; deferred [RUnlock] *)
| HHit (output : list forecast)     (* read the cache; deferred [RUnlock] *)
| HReadTs (output : list forecast)  (* reads [cacheTimestamp], unlocked *)
| HDone (resp : response).

(** [refreshCacheJob] (part_000 lines 97-111). *)
Inductive job_pc :=
| JRun (r : rebuild_pc)   (* inside [rebuildCache()] *)
| JWait.                  (* [<-time.Tick(10 * time.Minute)] *)

Inductive thread :=
| Handler (pc : handler_pc)
| Rebuilder (pc : rebuild_pc)
| Job (pc : job_pc).

Record globals := mkGlobals {
  cache : option (list forecast);
  cacheTimestamp : option nat;   (* [None] is the zero [time.Time] *)
  mu : rwmutex;
  clock : nat
}.

Record state := mkState { g : globals; threads : list thread; exited : bool }.

Record variant := mkVariant { has_timestamp : bool; job_waits_first : bool }.

Definition part_000 : variant := mkVariant true false.
Definition part_001 : variant := mkVariant false true.

Definition cache_empty_msg : string := "Cache is empty, try again in a few seconds".

(** ** Which goroutines are inside which critical section *)

Definition in_read_section (t : thread) : bool :=
  match t with Handler (HLocked | HMiss | HHit _) => true | _ => false end.

(** The program counter of a goroutine that is running [rebuildCache]. *)
Definition thread_rpc (t : thread) : option rebuild_pc :=
  match t with Rebuilder r | Job (JRun r) => Some r | _ => None end.

Definition awaiting_readers (t : thread) : bool :=
  match thread_rpc t with Some RPending => true | _ => false end.

Definition in_write_section (t : thread) : bool :=
  match thread_rpc t with
  | Some (RLocked | RParsed _ | RStamp | RUnlock _) => true
  | _ => false
  end.

Definition w_pending (w : wstate) : nat := match w with WPending => 1 | _ => 0 end.
Definition w_held (w : wstate) : nat := match w with WHeld => 1 | _ => 0 end.

(** The lock's counters agree with the goroutines: [readers] counts the
    goroutines between [RLock] and [RUnlock]; a pending or held writer is
    exactly one goroutine in that phase of [Lock]; a held write lock has no
    reader. *)
Definition lock_inv (s : state) : Prop :=
  readers (mu (g s)) = count_if in_read_section (threads s) /\
  count_if awaiting_readers (threads s) = w_pending (writer (mu (g s))) /\
  count_if in_write_section (threads s) = w_held (writer (mu (g s))) /\
  (w_held (writer (mu (g s))) = 0 \/ readers (mu (g s)) = 0).

(** The snapshots a goroutine holds: the one it extracted, read or sent. *)
Definition thread_snapshots (t : thread) : list (list forecast) :=
  match t with
  | Handler (HHit c | HReadTs c | HDone (Resp200 c _)) => [c]
  | Rebuilder (RParsed (Ok fs)) | Job (JRun (RParsed (Ok fs))) => [fs]
  | _ => []
  end.

Section Model.
Context `{Hscr : !Scraper} (v : variant).

Definition set_mu (gl : globals) (m : rwmutex) : globals :=
  mkGlobals (cache gl) (cacheTimestamp gl) m (clock gl).

(** One atomic action of [rebuildCache]. *)
Definition rebuild_step (gl : globals) (pc : rebuild_pc) (o : fetch_outcome)
    : option (globals * rebuild_pc) :=
  match pc with
  | RStart => m ← lock_announce (mu gl); Some (set_mu gl m, RPending)
  | RPending => m ← lock_acquire (mu gl); Some (set_mu gl m, RLocked)
  | RLocked =>
      Some (gl, RParsed (match o with
                         | FetchFailed msg => Err (FetchError msg)
                         | Fetched d => scrape d
                         end))
  | RParsed (Err e) => Some (set_mu gl (unlock (mu gl)), RDone (Err e))
  | RParsed (Ok fs) =>
      Some (mkGlobals (Some fs) (cacheTimestamp gl) (mu gl) (clock gl),
            if has_timestamp v then RStamp else RUnlock (Ok tt))
  | RStamp =>
      Some (mkGlobals (cache gl) (Some (clock gl)) (mu gl) (clock gl), RUnlock (Ok tt))
  | RUnlock r => Some (set_mu gl (unlock (mu gl)), RDone r)
  | RDone _ => None
  end.

(** One atomic action of a request goroutine; the list is what it spawns. *)
Definition handler_step (gl : globals) (pc : handler_pc)
    : option (globals * handler_pc * list thread) :=
  match pc with
  | HStart => m ← rlock (mu gl); Some (set_mu gl m, HLocked, [])
  | HLocked =>
      match cache gl with
      | None => Some (gl, HMiss, [Rebuilder RStart])
      | Some c => Some (gl, HHit c, [])
      end
  | HMiss => Some (set_mu gl (runlock (mu gl)), HDone (Resp500 cache_empty_msg), [])
  | HHit c =>
      Some (set_mu gl (runlock (mu gl)),
            if has_timestamp v then HReadTs c else HDone (Resp200 c None), [])
  | HReadTs c => Some (gl, HDone (Resp200 c (cacheTimestamp gl)), [])
  | HDone _ => None
  end.

(** One atomic action of the refresh job; [true] when it calls
    [log.Fatalln], which exits the process. *)
Definition job_step (gl : globals) (pc : job_pc) (o : fetch_outcome)
    : option (globals * job_pc * bool) :=
  match pc with
  | JRun (RDone (Err _)) => Some (gl, pc, true)
  | JRun (RDone (Ok _)) => Some (gl, JWait, false)
  | JRun r => '(gl', r') ← rebuild_step gl r o; Some (gl', JRun r', false)
  | JWait => Some (gl, JRun RStart, false)
  end.

Definition thread_step (s : state) (i : nat) (o : fetch_outcome) : option state :=
  if exited s then None else
  t ← threads s !! i;
  match t with
  | Handler pc =>
      '(gl', pc', new) ← handler_step (g s) pc;
      Some (mkState gl' (<[i := Handler pc']> (threads s) ++ new) false)
  | Rebuilder pc =>
      '(gl', pc') ← rebuild_step (g s) pc o;
      Some (mkState gl' (<[i := Rebuilder pc']> (threads s)) false)
  | Job pc =>
      '(gl', pc', fatal) ← job_step (g s) pc o;
      Some (mkState gl' (<[i := Job pc']> (threads s)) fatal)
  end.

(** The events of a run: a goroutine's step (with the fetch outcome it
    would see), time passing, a new request. *)
Inductive label := LThread (i : nat) (o : fetch_outcome) | LTick | LRequest.

Definition exec (s : state) (l : label) : option state :=
  match l with
  | LThread i o => thread_step s i o
  | LTick =>
      if exited s then None
      else Some (mkState (mkGlobals (cache (g s)) (cacheTimestamp (g s)) (mu (g s))
                                    (S (clock (g s)))) (threads s) false)
  | LRequest =>
      if exited s then None else Some (mkState (g s) (threads s ++ [Handler HStart]) false)
  end.

Fixpoint run (s : state) (ls : list label) : option state :=
  match ls with
  | [] => Some s
  | l :: ls' => s' ← exec s l; run s' ls'
  end.

Definition step (s s' : state) : Prop := exists l, exec s l = Some s'.

(** The states a run passes through, from its first state up to the last
    one it reaches (the run stops at the first event that cannot occur). *)
Fixpoint run_states (s : state) (ls : list label) : list state :=
  s :: match ls with
       | [] => []
       | l :: ls' => match exec s l with Some s' => run_states s' ls' | None => [] end
       end.

(** [main]: [go refreshCacheJob()], then the server starts. *)
Definition init : state :=
  mkState (mkGlobals None None rw_unlocked 0)
          [Job (if job_waits_first v then JWait else JRun RStart)] false.

Definition reachable (s : state) : Prop := rtc step init s.

(** ** Lemmas on steps *)

Lemma w_flags w : w_pending w + w_held w <= 1.
Proof. destruct w; simpl; lia. Qed.

Lemma exec_exited s l s' : exited s = true -> exec s l <> Some s'.
Proof. destruct l; simpl; unfold thread_step; by intros ->. Qed.

Lemma run_rtc s ls s' : run s ls = Some s' -> rtc step s s'.
Proof.
  revert s. induction ls as [|l ls IH]; intros s H; simpl in H; [by simplify_eq|].
  destruct (exec s l) as [s1|] eqn:E; [|done].
  eapply rtc_l; [by exists l|]. by apply IH.
Qed.

Lemma run_states_rtc s ls s' : s' ∈ run_states s ls -> rtc step s s'.
Proof.
  revert s. induction ls as [|l ls IH]; intros s H; simpl in H;
    apply elem_of_cons in H as [->|H]; try done; [by apply elem_of_nil in H|].
  destruct (exec s l) as [s1|] eqn:E; [|by apply elem_of_nil in H].
  eapply rtc_l; [by exists l|]. by apply IH.
Qed.

Ltac insert_counts :=
  match goal with
  | Ht : ?l !! ?i = Some ?x |- context [<[?i := ?y]> ?l] =>
      pose proof (count_if_insert in_read_section l i x y Ht);
      pose proof (count_if_insert awaiting_readers l i x y Ht);
      pose proof (count_if_insert in_write_section l i x y Ht)
  end.

Lemma lock_inv_thread_step s i o s' :
  lock_inv s -> thread_step s i o = Some s' -> lock_inv s'.
Proof.
  unfold thread_step. intros Hinv Hs.
  destruct (exited s); [done|]. destruct (threads s !! i) as [t|] eqn:Ht; [|done].
  simpl in Hs. destruct s as [[c ts m clk] thr ex]; unfold lock_inv in *; simpl in *.
  pose proof (count_if_lookup in_read_section _ _ _ Ht).
  pose proof (count_if_lookup awaiting_readers _ _ _ Ht).
  pose proof (count_if_lookup in_write_section _ _ _ Ht).
  pose proof (w_flags (writer m)).
  destruct t as [[]|[]|[[]|]];
    unfold job_step, handler_step, rebuild_step, set_mu, rlock, runlock,
      lock_announce, lock_acquire, unlock in Hs; simpl in *;
    repeat (case_match; simplify_eq/=); simplify_eq/=;
    rewrite ?count_if_app; simpl; try insert_counts; simpl in *;
    repeat match goal with H : writer _ = _ |- _ => rewrite H in *; clear H end;
    simpl in *; lia.
Qed.

Lemma lock_inv_step s s' : lock_inv s -> step s s' -> lock_inv s'.
Proof.
  intros Hinv [[i o| |] Hl]; simpl in Hl.
  - by eapply lock_inv_thread_step.
  - destruct (exited s); simplify_eq/=. done.
  - destruct (exited s); simplify_eq/=. unfold lock_inv in *; simpl.
    rewrite !count_if_app. simpl. lia.
Qed.

(** An invariant of every step holds in every reachable state. *)
Lemma reachable_ind (P : state -> Prop) :
  P init -> (forall s s', P s -> step s s' -> P s') ->
  forall s, reachable s -> P s.
Proof.
  intros H0 Hs s Hr. unfold reachable in Hr.
  remember init as s0 eqn:E. clear E. revert H0.
  induction Hr as [|x y z Hxy _ IH]; intros Hx; [done|].
  apply IH. by eapply Hs.
Qed.

Lemma lock_inv_reachable s : reachable s -> lock_inv s.
Proof.
  apply reachable_ind; [|apply lock_inv_step].
  unfold lock_inv, init. simpl. destruct (job_waits_first v); simpl; lia.
Qed.

(** C6. Mutual exclusion of the [RWMutex]: in every reachable state at most
    one goroutine is inside [rebuildCache] holding the write lock (from the
    fetch to the deferred [Unlock]), and while one is, no goroutine is
    between [RLock] and [RUnlock] in [fetchCache]. *)
Theorem mutual_exclusion s :
  reachable s ->
  count_if in_write_section (threads s) <= 1 /\
  (count_if in_write_section (threads s) = 0 \/ count_if in_read_section (threads s) = 0).
Proof.
  intros Hr. destruct (lock_inv_reachable s Hr) as (Hr1 & _ & Hw & Hd).
  pose proof (w_flags (writer (mu (g s)))). lia.
Qed.

(** ** Only complete extractions are published *)

Definition snap_inv (s : state) : Prop :=
  (forall fs, cache (g s) = Some fs -> snapshot_ok fs) /\
  Forall (fun t => Forall snapshot_ok (thread_snapshots t)) (threads s).

Lemma snap_inv_thread_step s i o s' :
  snap_inv s -> thread_step s i o = Some s' -> snap_inv s'.
Proof.
  unfold thread_step. intros [Hc Hth] Hs.
  destruct (exited s); [done|]. destruct (threads s !! i) as [t|] eqn:Ht; [|done].
  pose proof (Forall_lookup_1 _ _ _ _ Hth Ht) as Hold.
  simpl in Hs. destruct s as [[c ts m clk] thr ex]; simpl in *.
  destruct t as [[]|[]|[[]|]];
    unfold job_step, handler_step, rebuild_step, set_mu, rlock, runlock,
      lock_announce, lock_acquire, unlock in Hs; simpl in *;
    repeat (case_match; simplify_eq/=); simplify_eq/=;
    (split; [simpl; intros ??; simplify_eq/=; rewrite ?Forall_singleton in Hold; eauto|]);
    simpl; rewrite ?Forall_app; try split; try apply Forall_insert; try done;
    simpl in *; rewrite ?Forall_singleton in Hold |- *;
    repeat case_match; simplify_eq/=; eauto using scrape_ok.
Qed.

Lemma snap_inv_reachable s : reachable s -> snap_inv s.
Proof.
  apply reachable_ind.
  - unfold snap_inv, init. simpl. split; [done|].
    destruct (job_waits_first v); repeat constructor.
  - intros s1 s2 Hinv [[i o| |] Hl]; simpl in Hl; [by eapply snap_inv_thread_step| |];
      destruct (exited s1); simplify_eq/=; destruct Hinv as [Hc Hth]; split; try done.
    apply Forall_app. split; [done|]. repeat constructor.
Qed.

(** C4. Atomicity of a rebuild: in every reachable state the cache is empty
    or holds a snapshot the scraper promised ([snapshot_ok]), and so does
    every response a handler sends; a half-built snapshot is never
    published or served. *)
Theorem published_snapshots_ok s :
  reachable s ->
  (forall fs, cache (g s) = Some fs -> snapshot_ok fs) /\
  (forall i c ts, threads s !! i = Some (Handler (HDone (Resp200 c ts))) -> snapshot_ok c).
Proof.
  intros Hr. destruct (snap_inv_reachable s Hr) as [Hc Hth]. split; [done|].
  intros i c ts Hi. pose proof (Forall_lookup_1 _ _ _ _ Hth Hi) as H.
  simpl in H. by inversion H.
Qed.

(** ** Timestamps are never ahead of the clock *)

(** The timestamp a finished handler read for its reply. *)
Definition thread_stamp (t : thread) : option nat :=
  match t with Handler (HDone (Resp200 _ ts)) => ts | _ => None end.

Definition stamp_inv (s : state) : Prop :=
  (forall c, cacheTimestamp (g s) = Some c -> c <= clock (g s))%nat /\
  Forall (fun t => forall c, thread_stamp t = Some c -> c <= clock (g s))%nat (threads s).

Lemma stamp_inv_thread_step s i o s' :
  stamp_inv s -> thread_step s i o = Some s' -> stamp_inv s'.
Proof.
  unfold thread_step. intros [Hc Hth] Hs.
  destruct (exited s); [done|]. destruct (threads s !! i) as [t|] eqn:Ht; [|done].
  simpl in Hs. destruct s as [[c ts m clk] thr ex]; simpl in *.
  destruct t as [[]|[]|[[]|]];
    unfold job_step, handler_step, rebuild_step, set_mu, rlock, runlock,
      lock_announce, lock_acquire, unlock in Hs; simpl in *;
    repeat (case_match; simplify_eq/=); simplify_eq/=;
    (split; [simpl; intros ??; simplify_eq/=; eauto|]);
    simpl; rewrite ?Forall_app; try split; try apply Forall_insert; try done;
    repeat constructor; simpl; intros; simplify_eq/=; eauto.
Qed.

Lemma stamp_inv_reachable s : reachable s -> stamp_inv s.
Proof.
  apply reachable_ind.
  - unfold stamp_inv, init. simpl. split; [done|].
    destruct (job_waits_first v); repeat constructor; done.
  - intros s1 s2 Hinv [[i o| |] Hl]; simpl in Hl; [by eapply stamp_inv_thread_step| |];
      destruct (exited s1); simplify_eq/=; destruct Hinv as [Hc Hth]; split; simpl.
    + intros c' Hc'. specialize (Hc c' Hc'). lia.
    + eapply Forall_impl; [exact Hth|]. intros t Ht c' Hc'. specialize (Ht c' Hc'). lia.
    + done.
    + apply Forall_app. split; [done|]. repeat constructor. done.
Qed.

(** ** part_000 never serves the zero timestamp

    [cache] and [cacheTimestamp] are written in the same write section, so
    while [cacheTimestamp] is still the zero [time.Time], a filled cache is
    only seen by the writer that is about to stamp it: no reader has
    found it, and every reply carries a timestamp that was set. *)

Definition at_stamp (t : thread) : bool :=
  match thread_rpc t with Some RStamp => true | _ => false end.

Definition reads_stamp (t : thread) : bool :=
  match t with Handler (HHit _ | HReadTs _) => true | _ => false end.

Definition stamped_inv (s : state) : Prop :=
  (cacheTimestamp (g s) = None ->
   (if is_set (cache (g s)) then 1 else 0) <= count_if at_stamp (threads s) /\
   count_if reads_stamp (threads s) = 0)%nat /\
  Forall (fun t => forall c ts, t = Handler (HDone (Resp200 c ts)) -> is_Some ts) (threads s).

Lemma at_stamp_write t : at_stamp t = true -> in_write_section t = true.
Proof. unfold at_stamp, in_write_section. by destruct (thread_rpc t) as [[]|]. Qed.

Ltac stamp_counts :=
  match goal with
  | Ht : ?l !! ?i = Some ?x |- context [<[?i := ?y]> ?l] =>
      pose proof (count_if_insert at_stamp l i x y Ht);
      pose proof (count_if_insert reads_stamp l i x y Ht)
  end.

Lemma stamped_inv_thread_step s i o s' :
  has_timestamp v = true -> lock_inv s -> stamped_inv s -> thread_step s i o = Some s' -> stamped_inv s'.
Proof.
  unfold thread_step. intros Hts Hl [Ha Hc] Hs.
  destruct (exited s); [done|]. destruct (threads s !! i) as [t|] eqn:Ht; [|done].
  pose proof (Forall_lookup_1 _ _ _ _ Hc Ht) as Hold.
  pose proof (count_if_mono _ _ (threads s) at_stamp_write).
  pose proof (count_if_lookup in_read_section _ _ _ Ht).
  pose proof (count_if_lookup reads_stamp _ _ _ Ht).
  simpl in Hs. destruct s as [[c ts m clk] thr ex]; unfold lock_inv, stamped_inv in *; simpl in *.
  destruct Hl as (Hr & _ & Hw & Hd). pose proof (w_flags (writer m)).
  destruct t as [[]|[]|[[]|]];
    unfold job_step, handler_step, rebuild_step, set_mu, rlock, runlock,
      lock_announce, lock_acquire, unlock in Hs; simpl in *; rewrite ?Hts in Hs;
    repeat (case_match; simplify_eq/=); simplify_eq/=;
    rewrite ?count_if_app; try stamp_counts; simpl in *.
  all: split; [intros Hn; try discriminate; specialize (Ha Hn); simpl in *; lia|].
  all: rewrite ?Forall_app; try split; try apply Forall_insert; try done.
  all: repeat constructor; intros; simplify_eq/=; eauto.
  (* a reply read from [cacheTimestamp] while it was still zero *)
  all: match goal with |- is_Some ?x => destruct x; [by eexists|destruct (Ha eq_refl); lia] end.
Qed.

Lemma stamped_inv_reachable s : has_timestamp v = true -> reachable s -> stamped_inv s.
Proof.
  intros Hts Hr. cut (lock_inv s /\ stamped_inv s); [by intros []|]. revert s Hr.
  apply reachable_ind.
  - split; [apply lock_inv_reachable, rtc_refl|]. unfold stamped_inv, init. simpl.
    split; [destruct (job_waits_first v); simpl; lia|]. destruct (job_waits_first v); repeat constructor; done.
  - intros s1 s2 [Hl Hinv] Hs. split; [by eapply lock_inv_step|].
    destruct Hs as [[i o| |] Hx]; simpl in Hx; [by eapply stamped_inv_thread_step| |];
      destruct (exited s1); simplify_eq/=; destruct Hinv as [Ha Hc]; split; simpl; try done.
    + intros Hn. destruct (Ha Hn). rewrite !count_if_app. simpl. lia.
    + apply Forall_app. split; [done|]. repeat constructor. done.
Qed.
(** ** Writes to the cache *)

Lemma exec_cache_cases s l s' :
  exec s l = Some s' ->
  cache (g s') = cache (g s) \/
  exists i fs, threads s !! i ≫= thread_rpc = Some (RParsed (Ok fs)) /\
               cache (g s') = Some fs.
Proof.
  destruct l as [i o| |]; simpl; [|destruct (exited s); intros; simplify_eq/=; by left..].
  unfold thread_step. intros Hs.
  destruct (exited s); [done|]. destruct (threads s !! i) as [t|] eqn:Ht; [|done].
  simpl in Hs. destruct s as [[c ts m clk] thr ex]; simpl in *.
  destruct t as [[]|[]|[[]|]];
    unfold job_step, handler_step, rebuild_step, set_mu, rlock, runlock,
      lock_announce, lock_acquire, unlock in Hs; simpl in *;
    repeat (case_match; simplify_eq/=); simplify_eq/=;
    first [by left | right; eexists i, _; rewrite Ht; split; reflexivity].
Qed.

(** C5. The cache changes only when a goroutine inside [rebuildCache] that
    holds a successful extraction publishes it: a fetch or parse failure
    never writes [cache] (last-known-good is kept), and no step clears it. *)
Theorem cache_written_only_by_success s l s' :
  exec s l = Some s' ->
  cache (g s') = cache (g s) \/
  exists i fs, threads s !! i ≫= thread_rpc = Some (RParsed (Ok fs)) /\
               cache (g s') = Some fs.
Proof. apply exec_cache_cases. Qed.

(** C11. Once a snapshot is published, the cache is never empty again: a
    later failed rebuild leaves it in place. *)
Theorem cache_never_cleared s s' :
  rtc step s s' -> is_Some (cache (g s)) -> is_Some (cache (g s')).
Proof.
  induction 1 as [|x y z [l Hl] _ IH]; [done|]. intros Hx. apply IH.
  destruct (exec_cache_cases x l y Hl) as [->|(i & fs & _ & ->)]; done.
Qed.

(** C7. A read on an empty cache does not wait for the rebuild it
    triggers: once the read lock is held, the goroutine's next two steps
    are always enabled; the first spawns exactly one [rebuildCache]
    goroutine and leaves the cache empty, the second releases the read lock
    and answers with the [CacheEmpty] error. *)
Theorem cold_read_nonblocking s i o o' :
  exited s = false -> threads s !! i = Some (Handler HLocked) -> cache (g s) = None ->
  exists s1 s2,
    thread_step s i o = Some s1 /\
    threads s1 = <[i := Handler HMiss]> (threads s) ++ [Rebuilder RStart] /\
    cache (g s1) = None /\
    thread_step s1 i o' = Some s2 /\
    threads s2 !! i = Some (Handler (HDone (Resp500 cache_empty_msg))) /\
    readers (mu (g s2)) = readers (mu (g s)) - 1.
Proof.
  intros Hx Hi Hc. pose proof (lookup_lt_Some _ _ _ Hi) as Hlen.
  assert (length (threads s) <= length (<[i := Handler HMiss]> (threads s) ++ [Rebuilder RStart]))
    by (rewrite length_app, length_insert; simpl; lia).
  assert ((<[i := Handler HMiss]> (threads s) ++ [Rebuilder RStart]) !! i = Some (Handler HMiss))
    as Hl by (rewrite lookup_app_l, list_lookup_insert_eq; rewrite ?length_insert; done).
  unfold thread_step at 1. rewrite Hx, Hi. simpl. rewrite Hc. simpl.
  eexists _, _. split; [reflexivity|]. split; [reflexivity|]. split; [exact Hc|].
  unfold thread_step. simpl. rewrite Hl. simpl. split; [reflexivity|]. simpl.
  split; [|done]. rewrite lookup_app_l, list_lookup_insert_eq; rewrite ?length_insert; [done|lia..].
Qed.

(** Only the step at [RLocked], [goquery.NewDocument] and the extraction,
    reads the fetch outcome: every other step is the same whatever the
    page. *)
Lemma fetch_step_in_write_section s j o o' :
  thread_step s j o <> thread_step s j o' ->
  exists t, threads s !! j = Some t /\ thread_rpc t = Some RLocked.
Proof.
  unfold thread_step. intros Hne. destruct (exited s); [done|].
  destruct (threads s !! j) as [t|]; [|done]. exists t. split; [done|].
  destruct t as [[]|[]|[[]|]]; simpl in *; done.
Qed.

(** From [Lock] to the deferred [Unlock] the write lock is pending or
    held, so a request's [RLock] cannot proceed. *)
Lemma write_section_blocks_rlock s i j t o :
  lock_inv s -> threads s !! j = Some t ->
  in_write_section t = true \/ awaiting_readers t = true ->
  threads s !! i = Some (Handler HStart) -> thread_step s i o = None.
Proof.
  intros (_ & Hp & Hw & _) Hj Hsec Hi.
  pose proof (count_if_lookup in_write_section _ _ _ Hj).
  pose proof (count_if_lookup awaiting_readers _ _ _ Hj).
  unfold thread_step. destruct (exited s); [done|]. rewrite Hi. simpl. unfold rlock.
  destruct (writer (mu (g s))); [|done..].
  destruct Hsec as [E|E]; rewrite E in *; simpl in *; lia.
Qed.

(** C10. A request that arrives during a rebuild waits through the fetch:
    the only step that depends on the page, [goquery.NewDocument] and the
    extraction, is taken by a goroutine inside [rebuildCache]'s write
    section with the write lock held, and at that moment no request can
    take its read lock.  The same holds from [Lock] to the deferred
    [Unlock] ([write_section_blocks_rlock]), so a waiting [fetchCache]
    reads the cache only once the rebuild has published or failed. *)
Theorem cold_read_waits_for_fetch s i j o o' :
  reachable s -> threads s !! i = Some (Handler HStart) ->
  thread_step s j o <> thread_step s j o' ->
  writer (mu (g s)) = WHeld /\
  (exists t, threads s !! j = Some t /\ in_write_section t = true) /\
  forall o'', thread_step s i o'' = None.
Proof.
  intros Hr Hi Hne. pose proof (lock_inv_reachable s Hr) as Hinv.
  destruct (fetch_step_in_write_section s j o o' Hne) as (t & Hj & Hrpc).
  assert (Hw : in_write_section t = true) by (unfold in_write_section; by rewrite Hrpc).
  split_and!; [|by exists t|intros o''; eapply write_section_blocks_rlock; eauto].
  destruct Hinv as (_ & _ & Hc & _). pose proof (count_if_lookup in_write_section _ _ _ Hj).
  rewrite Hw, Hc in *. destruct (writer (mu (g s))); simpl in *; [lia|lia|done].
Qed.

(** A goroutine inside a critical section can always take its next step. *)
Lemma section_step_enabled s j t o :
  exited s = false -> threads s !! j = Some t ->
  in_write_section t = true \/ in_read_section t = true -> thread_step s j o <> None.
Proof.
  intros Hx Hj Hsec. unfold thread_step. rewrite Hx, Hj. simpl.
  destruct t as [[]|[]|[[]|]]; simpl in *; destruct Hsec as [E|E]; try discriminate;
    repeat case_match; simplify_eq/=; done.
Qed.

(** C22. No deadlock on the [RWMutex]: a request blocked at [RLock] waits on
    a goroutine that can move now, a rebuild inside its write section, a
    rebuild whose pending [Lock] can be granted, or a request inside its
    read section; by [workers_terminate] each of them finishes its section
    in finitely many steps. *)
Theorem blocked_read_progress s i o :
  reachable s -> exited s = false -> threads s !! i = Some (Handler HStart) ->
  thread_step s i o = None ->
  exists j t, threads s !! j = Some t /\
    (in_write_section t = true \/ awaiting_readers t = true \/ in_read_section t = true) /\
    forall o', thread_step s j o' <> None.
Proof.
  intros Hr Hx Hi Hblk. destruct (lock_inv_reachable s Hr) as (Hrd & Hp & Hw & _).
  unfold thread_step in Hblk. rewrite Hx, Hi in Hblk. simpl in Hblk. unfold rlock in Hblk.
  destruct (writer (mu (g s))) eqn:W; simpl in *; [done| |].
  - destruct (count_if_pos awaiting_readers (threads s)) as (j & t & Hj & Ht); [lia|].
    destruct (readers (mu (g s))) as [|n] eqn:Rd.
    + exists j, t. split_and!; [done|by right; left|]. intros o'.
      unfold thread_step. rewrite Hx, Hj. simpl.
      unfold awaiting_readers, thread_rpc in Ht.
      destruct t as [|[]|[[]|]]; simpl in *; try discriminate;
        unfold lock_acquire; rewrite W, Rd; done.
    + destruct (count_if_pos in_read_section (threads s)) as (k & u & Hk & Hu); [lia|].
      exists k, u. split_and!; [done|by right; right|].
      intros o'. apply (section_step_enabled s k u o' Hx Hk). by right.
  - destruct (count_if_pos in_write_section (threads s)) as (j & t & Hj & Ht); [lia|].
    exists j, t. split_and!; [done|by left|].
    intros o'. apply (section_step_enabled s j t o' Hx Hj). by left.
Qed.

(** C15. The error of a rebuild triggered by a read is discarded: the
    goroutine releases the lock and ends with the error, the cache and its
    timestamp are untouched and the process goes on. *)
Theorem eager_failure_ignored s i e o :
  exited s = false -> threads s !! i = Some (Rebuilder (RParsed (Err e))) ->
  thread_step s i o =
    Some (mkState (set_mu (g s) (unlock (mu (g s))))
                  (<[i := Rebuilder (RDone (Err e))]> (threads s)) false).
Proof. intros Hx Hi. unfold thread_step. by rewrite Hx, Hi. Qed.

(** C14. A failed periodic rebuild is fatal: the refresh job calls
    [log.Fatalln], the process exits and no goroutine takes another step. *)
Theorem periodic_failure_fatal s i e o l :
  exited s = false -> threads s !! i = Some (Job (JRun (RDone (Err e)))) ->
  exists s', thread_step s i o = Some s' /\ exited s' = true /\ exec s' l = None.
Proof.
  intros Hx Hi. unfold thread_step. rewrite Hx, Hi. simpl.
  eexists. split; [done|]. split; [done|].
  destruct (exec _ l) eqn:E; [|done]. by apply exec_exited in E.
Qed.

End Model.

(** ** The extractor implements the interface

    A successful extraction is the full record list of the page it read:
    one record per block, one value per two-cell row. *)

Definition page_records (fs : list forecast) : Prop :=
  exists d, Forall2 record_of (doc_find forecast_block d) fs.

Lemma extract_page_records d fs : extract d = Ok fs -> page_records fs.
Proof. intros H. exists d. by apply extract_Ok_records. Qed.

#[export] Instance extract_scraper : Scraper := {|
  scrape := extract;
  snapshot_ok := page_records;
  scrape_ok := extract_page_records
|}.

(** ** Concrete runs *)

Module Runs.
Import Extract.Scenarios.

Definition odense : node := block [tr [td "Odense"]; tr [td "Birk"; td "3"]].
Definition bad_page : document := dmi_page [block [tr [td "Odense"]; tr [td "Birk"; td "abc"]]].

Definition snap_aarhus : list forecast :=
  [mkForecast "Aarhus" "Lav risiko" [mkValue "Birk" 12; mkValue "El" 0]].
Definition snap_odense : list forecast :=
  [mkForecast "Odense" "Birk3" [mkValue "Birk" 3]].

Definition steps (i n : nat) (o : fetch_outcome) : list label := repeat (LThread i o) n.

(** part_000: the job publishes Aarhus at time 0; a request reads it and
    releases its read lock; time passes; the job publishes Odense at time 1
    and is about to release; the request then reads [cacheTimestamp]. *)
Definition race_prefix : list label :=
  steps 0 7 (Fetched (dmi_page [aarhus])) ++
  [LRequest] ++ steps 1 3 (Fetched []) ++
  [LTick] ++ steps 0 5 (Fetched (dmi_page [odense])).

Definition race_run : list label := race_prefix ++ [LThread 0 (Fetched []); LThread 1 (Fetched [])].

(** part_001: two requests miss and spawn two rebuilds; the first
    publishes Aarhus ([scenario_B_first]), the second fails on ["abc"]; a
    third request reads ([scenario_B_rest]). *)
Definition scenario_B_first : list label :=
  [LRequest] ++ steps 1 3 (Fetched []) ++ [LRequest] ++ steps 3 3 (Fetched []) ++
  steps 2 5 (Fetched (dmi_page [aarhus])).

Definition scenario_B_rest : list label :=
  steps 4 4 (Fetched bad_page) ++ [LRequest] ++ steps 5 3 (Fetched []).

(** part_001: the only rebuild fails; a second request still finds the
    cache empty. *)
Definition scenario_B_cold_run : list label :=
  [LRequest] ++ steps 1 3 (Fetched []) ++ steps 2 4 (Fetched bad_page) ++
  [LRequest] ++ steps 3 3 (Fetched []).

(** The state a run reaches from [init] (the initial state if it blocks). *)
Definition state_after (v : variant) (ls : list label) : state :=
  default (init v) (run v (init v) ls).

Definition race_state : state := Eval vm_compute in state_after part_000 race_prefix.
Definition race_final : state := Eval vm_compute in state_after part_000 race_run.
Definition scenario_B_mid : state := Eval vm_compute in state_after part_001 scenario_B_first.
Definition scenario_B_final : state :=
  Eval vm_compute in state_after part_001 (scenario_B_first ++ scenario_B_rest).
Definition scenario_B_cold : state := Eval vm_compute in state_after part_001 scenario_B_cold_run.

Lemma race_state_reachable : reachable part_000 race_state.
Proof. apply run_rtc with race_prefix. vm_compute. reflexivity. Qed.

Lemma scenario_B_mid_reachable : reachable part_001 scenario_B_mid.
Proof. apply run_rtc with scenario_B_first. vm_compute. reflexivity. Qed.

Lemma scenario_B_rest_rtc : rtc (step part_001) scenario_B_mid scenario_B_final.
Proof. apply run_rtc with scenario_B_rest. vm_compute. reflexivity. Qed.

(** C12. Data race on [cacheTimestamp] (part_000): a state is reachable in
    which a request goroutine, having released its read lock, is about to
    read [cacheTimestamp] while the refresh job holds the write lock and is
    about to write it; nothing orders the two accesses. *)
Theorem timestamp_data_race :
  exists s i j c,
    reachable part_000 s /\
    threads s !! i = Some (Handler (HReadTs c)) /\
    threads s !! j = Some (Job (JRun RStamp)) /\
    writer (mu (g s)) = WHeld.
Proof.
  exists race_state, 1, 0, snap_aarhus. split; [apply race_state_reachable|].
  vm_compute. auto.
Qed.

(** C13. The [X-Cache-Timestamp] header can describe another snapshot than
    the body (part_000): a run from [main] ends with a response whose body
    and header were never the cache and its timestamp at the same time, in
    any state the run passed through; here the Aarhus snapshot, published
    at time 0, goes out with the timestamp 1 of the Odense snapshot that
    replaced it. *)
Theorem timestamp_mismatch :
  exists ls s i c t,
    run part_000 (init part_000) ls = Some s /\
    threads s !! i = Some (Handler (HDone (Resp200 c (Some t)))) /\
    Forall (fun s' => ~ (cache (g s') = Some c /\ cacheTimestamp (g s') = Some t))
           (run_states part_000 (init part_000) ls).
Proof.
  exists race_run, race_final, 1, snap_aarhus, 1. split_and!; [reflexivity..|].
  vm_compute. repeat constructor; intros [H1 H2]; congruence.
Qed.

(** Scenario B at the cache: after a rebuild fails on ["abc"], a read
    still returns the previous good snapshot; with no previous snapshot, a
    read still reports the empty cache (part_001, rebuilds triggered by
    reads). *)
Example scenario_B_cache :
  threads scenario_B_final !! 4 = Some (Rebuilder (RDone (Err (ParseError "abc" Strconv.ErrSyntax)))) /\
  threads scenario_B_final !! 5 = Some (Handler (HDone (Resp200 snap_aarhus None))) /\
  threads scenario_B_cold !! 2 = Some (Rebuilder (RDone (Err (ParseError "abc" Strconv.ErrSyntax)))) /\
  threads scenario_B_cold !! 3 = Some (Handler (HDone (Resp500 cache_empty_msg))).
Proof. vm_compute. repeat split. Qed.

(** ** Witnesses: the theorems' hypotheses hold on concrete states *)

Definition cold_state : state :=
  Eval vm_compute in state_after part_001 ([LRequest] ++ steps 1 1 (Fetched [])).
Definition eager_fail_state : state :=
  Eval vm_compute in state_after part_001
    ([LRequest] ++ steps 1 3 (Fetched []) ++ steps 2 3 (Fetched bad_page)).
Definition fatal_state : state :=
  Eval vm_compute in state_after part_000 (steps 0 4 (FetchFailed "timeout")).
Definition publish_state : state :=
  Eval vm_compute in state_after part_000 (steps 0 3 (Fetched (dmi_page [aarhus]))).

Lemma scenario_B_final_reachable : reachable part_001 scenario_B_final.
Proof. eapply (transitivity (R:=rtc (step part_001))); [apply scenario_B_mid_reachable|apply scenario_B_rest_rtc]. Qed.

Lemma published_snapshots_ok_witness :
  reachable part_001 scenario_B_final /\
  (forall fs, cache (g scenario_B_final) = Some fs -> snapshot_ok fs) /\
  (forall i c ts, threads scenario_B_final !! i = Some (Handler (HDone (Resp200 c ts))) ->
                  snapshot_ok c).
Proof.
  split; [apply scenario_B_final_reachable|].
  apply (published_snapshots_ok part_001 scenario_B_final scenario_B_final_reachable).
Defined.

Lemma mutual_exclusion_witness :
  reachable part_000 race_state /\
  count_if in_write_section (threads race_state) <= 1 /\
  (count_if in_write_section (threads race_state) = 0 \/
   count_if in_read_section (threads race_state) = 0).
Proof.
  split; [apply race_state_reachable|].
  apply (mutual_exclusion part_000 race_state race_state_reachable).
Defined.

Lemma cache_written_only_by_success_witness :
  exec part_000 publish_state (LThread 0 (Fetched [])) =
    Some (default publish_state (exec part_000 publish_state (LThread 0 (Fetched [])))) /\
  (cache (g (default publish_state (exec part_000 publish_state (LThread 0 (Fetched []))))) =
     cache (g publish_state) \/
   exists i fs, threads publish_state !! i ≫= thread_rpc = Some (RParsed (Ok fs)) /\
     cache (g (default publish_state (exec part_000 publish_state (LThread 0 (Fetched []))))) =
       Some fs).
Proof.
  split; [vm_compute; reflexivity|].
  apply (cache_written_only_by_success part_000 publish_state (LThread 0 (Fetched []))).
  vm_compute. reflexivity.
Defined.

Lemma cache_never_cleared_witness :
  rtc (step part_001) scenario_B_mid scenario_B_final /\ is_Some (cache (g scenario_B_mid)) /\
  is_Some (cache (g scenario_B_final)).
Proof.
  split; [apply scenario_B_rest_rtc|]. split; [vm_compute; eauto|].
  apply (cache_never_cleared part_001 scenario_B_mid scenario_B_final scenario_B_rest_rtc).
  vm_compute. eauto.
Defined.

Lemma cold_read_nonblocking_witness :
  exited cold_state = false /\ threads cold_state !! 1 = Some (Handler HLocked) /\
  cache (g cold_state) = None /\
  exists s1 s2,
    thread_step part_001 cold_state 1 (Fetched []) = Some s1 /\
    threads s1 = <[1 := Handler HMiss]> (threads cold_state) ++ [Rebuilder RStart] /\
    cache (g s1) = None /\
    thread_step part_001 s1 1 (Fetched []) = Some s2 /\
    threads s2 !! 1 = Some (Handler (HDone (Resp500 cache_empty_msg))) /\
    readers (mu (g s2)) = readers (mu (g cold_state)) - 1.
Proof.
  split; [reflexivity|]. split; [reflexivity|]. split; [reflexivity|].
  apply (cold_read_nonblocking part_001 cold_state 1 (Fetched []) (Fetched []));
    reflexivity.
Defined.

Lemma eager_failure_ignored_witness :
  exited eager_fail_state = false /\
  threads eager_fail_state !! 2 =
    Some (Rebuilder (RParsed (Err (ParseError "abc" Strconv.ErrSyntax)))) /\
  thread_step part_001 eager_fail_state 2 (Fetched []) =
    Some (mkState (set_mu (g eager_fail_state) (unlock (mu (g eager_fail_state))))
                  (<[2 := Rebuilder (RDone (Err (ParseError "abc" Strconv.ErrSyntax)))]>
                     (threads eager_fail_state)) false).
Proof.
  split; [reflexivity|]. split; [vm_compute; reflexivity|].
  apply eager_failure_ignored; [reflexivity|vm_compute; reflexivity].
Defined.

Lemma periodic_failure_fatal_witness :
  exited fatal_state = false /\
  threads fatal_state !! 0 = Some (Job (JRun (RDone (Err (FetchError "timeout"))))) /\
  exists s', thread_step part_000 fatal_state 0 (Fetched []) = Some s' /\
             exited s' = true /\ exec part_000 s' LRequest = None.
Proof.
  split; [reflexivity|]. split; [vm_compute; reflexivity|].
  apply (periodic_failure_fatal part_000 fatal_state 0 (FetchError "timeout") (Fetched []) LRequest);
    [reflexivity|vm_compute; reflexivity].
Defined.

End Runs.

End Cache.
