(* ===== verification/CacheWf.v ===== *)
(** * Request and rebuild goroutines finish; every reachable state is well formed

    Two facts about the goroutines of [Cache]:

    - termination: the steps of the request goroutines ([fetchCache] and
      the handler after it) and of the [go rebuildCache()] goroutines they
      spawn cannot go on forever.  Each such goroutine has a rank, the
      steps it has left, counting for a request the rebuild it may spawn;
      every step of one of them lowers the sum of the ranks, the
      [potential] of the state.  Only the refresh job loops, and only new
      requests add work;
    - well-formedness: thread 0 is the refresh job and no other goroutine
      is, and a state of part_001 never uses a program point of part_000's
      timestamp code ([RStamp], [HReadTs]) and never sets
      [cacheTimestamp];
    - idempotence of reads: between two reads of the cache, steps that
      publish no snapshot leave the cache as it was, so both reads get the
      same outcome.

    Module [WfRuns] holds concrete part_001 states: a request blocked
    while the rebuild it triggered fetches under the write lock. *)

From Stdlib Require Import Wellfounded.
From S2P Require Import Prelude GoStrconv Dom Extract Cache.
Import Dom Extract.

Module CacheWf.
Import Cache.

(** ** Ranks *)

(** The steps [rebuildCache] has left. *)
Definition rebuild_rank (pc : rebuild_pc) : nat :=
  match pc with
  | RStart => 6 | RPending => 5 | RLocked => 4 | RParsed _ => 3
  | RStamp => 2 | RUnlock _ => 1 | RDone _ => 0
  end.

(** The steps a request has left; before [cache == nil] it counts the
    rebuild it may spawn. *)
Definition handler_rank (pc : handler_pc) : nat :=
  match pc with
  | HStart => 11 | HLocked => 10 | HHit _ => 2 | HMiss => 1 | HReadTs _ => 1 | HDone _ => 0
  end.

Definition thread_rank (t : thread) : nat :=
  match t with Handler pc => handler_rank pc | Rebuilder pc => rebuild_rank pc | Job _ => 0 end.

Definition potential (s : state) : nat := sum_list_with thread_rank (threads s).

Definition is_job (t : thread) : bool := match t with Job _ => true | _ => false end.

(** The program points of part_000's timestamp code. *)
Definition uses_timestamp (t : thread) : bool :=
  match t with
  | Handler (HReadTs _) | Rebuilder RStamp | Job (JRun RStamp) => true
  | _ => false
  end.

Lemma sum_list_with_insert {A} (f : A -> nat) l i x y :
  l !! i = Some x -> sum_list_with f (<[i := y]> l) + f x = sum_list_with f l + f y.
Proof.
  revert i. induction l as [|z l IH]; intros [|i] H; simplify_eq/=; [lia|].
  specialize (IH i H). lia.
Qed.

Section Wf.
Context `{Hscr : !Scraper} (v : variant).

(** A step of a request or rebuild goroutine. *)
Definition worker_step (s s' : state) : Prop :=
  exists i o t, threads s !! i = Some t /\ is_job t = false /\ thread_step v s i o = Some s'.

Lemma rebuild_step_rank gl pc o gl' pc' :
  rebuild_step v gl pc o = Some (gl', pc') -> rebuild_rank pc' < rebuild_rank pc.
Proof.
  intros H. unfold rebuild_step in H.
  destruct pc; try destruct (lock_announce _); try destruct (lock_acquire _);
    try destruct r; try destruct (has_timestamp v); simplify_eq/=; lia.
Qed.

Lemma handler_step_rank gl pc gl' pc' new :
  handler_step v gl pc = Some (gl', pc', new) ->
  handler_rank pc' + sum_list_with thread_rank new < handler_rank pc.
Proof.
  intros H. unfold handler_step in H.
  destruct pc; try destruct (rlock _); try destruct (cache gl); try destruct (has_timestamp v);
    simplify_eq/=; unfold sum_list_with; simpl; lia.
Qed.

Lemma worker_step_potential s s' : worker_step s s' -> potential s' < potential s.
Proof.
  intros (i & o & t & Ht & Hw & Hs). unfold thread_step in Hs.
  destruct (exited s); [done|]. rewrite Ht in Hs. simpl in Hs.
  unfold potential. destruct t as [pc|pc|pc]; [| |done].
  - destruct (handler_step v (g s) pc) as [[[gl' pc'] new]|] eqn:E; simplify_eq/=.
    apply handler_step_rank in E.
    pose proof (sum_list_with_insert thread_rank _ i _ (Handler pc') Ht).
    rewrite sum_list_with_app. simpl in *. lia.
  - destruct (rebuild_step v (g s) pc o) as [[gl' pc']|] eqn:E; simplify_eq/=.
    apply rebuild_step_rank in E.
    pose proof (sum_list_with_insert thread_rank _ i _ (Rebuilder pc') Ht).
    simpl in *. lia.
Qed.

Lemma worker_nsteps_bound n s s' : nsteps worker_step n s s' -> n + potential s' <= potential s.
Proof.
  induction 1 as [|n s1 s2 s3 H _ IH]; [lia|].
  pose proof (worker_step_potential s1 s2 H). lia.
Qed.

(** C35. Termination of the goroutines other than the refresh job: the
    steps of request goroutines and of the rebuilds they spawn admit no
    infinite sequence, and from any state their number is at most the
    state's [potential] (at most 11 per pending request and 6 per pending
    rebuild), whatever the interleaving and the fetch outcomes. *)
Theorem workers_terminate :
  well_founded (fun s' s => worker_step s s') /\
  (forall n s s', nsteps worker_step n s s' -> n <= potential s).
Proof.
  split.
  - apply (wf_incl _ _ (ltof _ potential)); [|apply well_founded_ltof].
    intros s' s H. by apply worker_step_potential.
  - intros n s s' H. pose proof (worker_nsteps_bound n s s' H). lia.
Qed.

(** ** Well-formed states *)

(** Thread 0 is the only refresh job; without timestamp code, no program
    point of it is used and [cacheTimestamp] stays zero. *)
Definition wf_state (s : state) : Prop :=
  (exists j, threads s !! 0 = Some (Job j)) /\ count_if is_job (threads s) = 1 /\
  (has_timestamp v = false ->
   cacheTimestamp (g s) = None /\ count_if uses_timestamp (threads s) = 0).

Lemma rebuild_step_no_stamp gl pc o gl' pc' :
  rebuild_step v gl pc o = Some (gl', pc') -> has_timestamp v = false -> pc <> RStamp ->
  pc' <> RStamp /\ cacheTimestamp gl' = cacheTimestamp gl.
Proof.
  intros H Hv Hpc. unfold rebuild_step in H.
  destruct pc; try destruct (lock_announce _); try destruct (lock_acquire _);
    try destruct r; rewrite ?Hv in H; simplify_eq/=; done.
Qed.

Lemma handler_step_shape gl pc gl' pc' new :
  handler_step v gl pc = Some (gl', pc', new) ->
  count_if is_job new = 0 /\
  (has_timestamp v = false -> uses_timestamp (Handler pc) = false ->
   uses_timestamp (Handler pc') = false /\ count_if uses_timestamp new = 0 /\
   cacheTimestamp gl' = cacheTimestamp gl).
Proof.
  intros H. unfold handler_step in H.
  destruct pc; try destruct (rlock _); try destruct (cache gl);
    simplify_eq/=; (split; [done|]); intros Hv Hu; rewrite ?Hv; simpl in *; done.
Qed.

Lemma job_step_shape gl pc o gl' pc' fatal :
  job_step v gl pc o = Some (gl', pc', fatal) ->
  has_timestamp v = false -> uses_timestamp (Job pc) = false ->
  uses_timestamp (Job pc') = false /\ cacheTimestamp gl' = cacheTimestamp gl.
Proof.
  intros H Hv Hu. unfold job_step, rebuild_step in H.
  destruct pc as [r|]; [destruct r as [| | | [] | | | []]|];
    try destruct (lock_announce _); try destruct (lock_acquire _);
    rewrite ?Hv in H; simplify_eq/=; done.
Qed.

(** The pool after a step keeps one job, at index 0. *)
Lemma job_pool l i t t' new j :
  l !! 0 = Some (Job j) -> l !! i = Some t -> is_job t' = is_job t ->
  count_if is_job new = 0 -> count_if is_job l = 1 ->
  (exists j', (<[i := t']> l ++ new) !! 0 = Some (Job j')) /\
  count_if is_job (<[i := t']> l ++ new) = 1.
Proof.
  intros H0 Hi Hk Hn Hc. pose proof (count_if_insert is_job l i t t' Hi) as Hl.
  rewrite Hk in Hl. rewrite count_if_app, Hn. split; [|lia].
  destruct l as [|x l]; [done|]. destruct i as [|i]; simpl in *; simplify_eq.
  - destruct t' as [| |j']; [done|done|by exists j'].
  - by exists j.
Qed.

Lemma ts_pool l i t t' new :
  l !! i = Some t -> count_if uses_timestamp l = 0 -> uses_timestamp t' = false ->
  count_if uses_timestamp new = 0 -> count_if uses_timestamp (<[i := t']> l ++ new) = 0.
Proof.
  intros Hi Hc Ht' Hn. pose proof (count_if_insert uses_timestamp l i t t' Hi).
  pose proof (count_if_lookup uses_timestamp l i t Hi).
  rewrite count_if_app, Hn, Ht' in *. destruct (uses_timestamp t); lia.
Qed.

Lemma no_ts_lookup l i t :
  l !! i = Some t -> count_if uses_timestamp l = 0 -> uses_timestamp t = false.
Proof.
  intros Hi Hc. pose proof (count_if_lookup uses_timestamp l i t Hi).
  destruct (uses_timestamp t); [lia|done].
Qed.

Lemma wf_thread_step s i o s' : wf_state s -> thread_step v s i o = Some s' -> wf_state s'.
Proof.
  unfold thread_step. intros ([j Hj] & Hc & Hts) Hs.
  destruct (exited s); [done|]. destruct (threads s !! i) as [t|] eqn:Ht; [|done].
  simpl in Hs. destruct t as [pc|pc|pc].
  - destruct (handler_step v (g s) pc) as [[[gl' pc'] new]|] eqn:E; simplify_eq/=.
    destruct (handler_step_shape _ _ _ _ _ E) as [Hn Hu].
    destruct (job_pool _ i _ (Handler pc') new j Hj Ht eq_refl Hn Hc) as [Hj' Hc'].
    split_and!; [done|done|]. intros Hv. destruct (Hts Hv) as [Hc0 Hu0].
    destruct (Hu Hv (no_ts_lookup _ _ _ Ht Hu0)) as (H1 & H2 & H3).
    simpl. split; [congruence|]. by eapply ts_pool.
  - destruct (rebuild_step v (g s) pc o) as [[gl' pc']|] eqn:E; simplify_eq/=.
    destruct (job_pool _ i _ (Rebuilder pc') [] j Hj Ht eq_refl eq_refl Hc) as [Hj' Hc'].
    rewrite app_nil_r in Hj', Hc'. split_and!; [done|done|]. intros Hv.
    destruct (Hts Hv) as [Hc0 Hu0]. simpl.
    pose proof (no_ts_lookup _ _ _ Ht Hu0) as Hu1.
    destruct (rebuild_step_no_stamp _ _ _ _ _ E Hv) as [H1 H2]; [by intros ->|].
    split; [congruence|]. rewrite <- (app_nil_r (<[i:=_]> _)).
    eapply ts_pool; [done|done| |done]. by destruct pc'.
  - destruct (job_step v (g s) pc o) as [[[gl' pc'] fatal]|] eqn:E; simplify_eq/=.
    destruct (job_pool _ i _ (Job pc') [] j Hj Ht eq_refl eq_refl Hc) as [Hj' Hc'].
    rewrite app_nil_r in Hj', Hc'. split_and!; [done|done|]. intros Hv.
    destruct (Hts Hv) as [Hc0 Hu0]. simpl.
    destruct (job_step_shape _ _ _ _ _ _ E Hv (no_ts_lookup _ _ _ Ht Hu0)) as [H1 H2].
    split; [congruence|]. rewrite <- (app_nil_r (<[i:=_]> _)). by eapply ts_pool.
Qed.

Lemma wf_step s s' : wf_state s -> step v s s' -> wf_state s'.
Proof.
  intros Hwf [[i o| |] Hl]; simpl in Hl; [by eapply wf_thread_step| |];
    destruct (exited s); simplify_eq/=.
  - done.
  - destruct Hwf as ([j Hj] & Hc & Hts). split_and!; simpl.
    + exists j. rewrite lookup_app_l; [done|]. by apply lookup_lt_Some in Hj.
    + rewrite count_if_app. simpl. lia.
    + intros Hv. destruct (Hts Hv) as [H1 H2]. split; [done|]. rewrite count_if_app. simpl. lia.
Qed.

(** The shape of every reachable state: thread 0 is the refresh job
    and no other goroutine is one; in part_001, which has no
    [cacheTimestamp], no goroutine is ever at a program point of
    part_000's timestamp code and the timestamp stays at its zero value. *)
Theorem reachable_wf s : reachable v s -> wf_state s.
Proof.
  apply reachable_ind; [|apply wf_step].
  unfold wf_state, init. simpl. split_and!; [by eexists|by destruct (job_waits_first v)|].
  intros _. split; [done|]. by destruct (job_waits_first v).
Qed.

(** ** Reads between publications *)

(** The label is the step of a goroutine about to publish a snapshot. *)
Definition publishes (s : state) (l : label) : bool :=
  match l with
  | LThread k _ => match threads s !! k ≫= thread_rpc with Some (RParsed (Ok _)) => true | _ => false end
  | _ => false
  end.

(** A step that publishes nothing. *)
Definition quiet_step (s s' : state) : Prop :=
  exists l, publishes s l = false /\ exec v s l = Some s'.

Lemma exec_quiet_cache s l s' :
  publishes s l = false -> exec v s l = Some s' -> cache (g s') = cache (g s).
Proof.
  destruct l as [k o| |]; simpl; [|destruct (exited s); intros; by simplify_eq/=..].
  unfold thread_step. intros Hp Hs.
  destruct (exited s); [done|]. destruct (threads s !! k) as [t|] eqn:Ht; [|done].
  simpl in Hp, Hs. destruct s as [[c ts m clk] thr ex]; simpl in *.
  destruct t as [[]|[]|[[]|]];
    unfold job_step, handler_step, rebuild_step, set_mu, rlock, runlock,
      lock_announce, lock_acquire, unlock in Hs; simpl in *;
    repeat (case_match; simplify_eq/=); simplify_eq/=; done.
Qed.

Lemma quiet_rtc_cache s s' : rtc quiet_step s s' -> cache (g s') = cache (g s).
Proof.
  induction 1 as [|x y z (l & Hp & Hl) _ IH]; [done|].
  rewrite IH. by eapply exec_quiet_cache.
Qed.

(** What the [cache == nil] test of a read leads to: a hit on the cache's
    snapshot, or a miss when it is empty. *)
Lemma read_step_outcome s i o s1 pc :
  threads s !! i = Some (Handler HLocked) -> thread_step v s i o = Some s1 ->
  threads s1 !! i = Some (Handler pc) ->
  pc = match cache (g s) with Some c => HHit c | None => HMiss end.
Proof.
  unfold thread_step. intros Ht Hs Hi.
  destruct (exited s); [done|]. rewrite Ht in Hs. simpl in Hs.
  pose proof (lookup_lt_Some _ _ _ Ht) as Hlen.
  destruct (cache (g s)); simplify_eq/=;
    rewrite ?lookup_app_l, list_lookup_insert_eq in Hi by (rewrite ?length_insert; lia);
    by simplify_eq.
Qed.

(** C17. Idempotence of reads: two reads of the cache (the [cache == nil]
    test of [fetchCache] under the read lock) with only steps that publish
    no snapshot between them get the same outcome: the same snapshot, or
    both the empty-cache miss. *)
Theorem read_idempotent s s' i j o o' s1 s1' pc pc' :
  rtc quiet_step s s' ->
  threads s !! i = Some (Handler HLocked) -> thread_step v s i o = Some s1 ->
  threads s1 !! i = Some (Handler pc) ->
  threads s' !! j = Some (Handler HLocked) -> thread_step v s' j o' = Some s1' ->
  threads s1' !! j = Some (Handler pc') ->
  pc = pc'.
Proof.
  intros Hq Hi Hs Hpc Hj Hs' Hpc'.
  rewrite (read_step_outcome _ _ _ _ _ Hi Hs Hpc), (read_step_outcome _ _ _ _ _ Hj Hs' Hpc').
  by rewrite (quiet_rtc_cache _ _ Hq).
Qed.

End Wf.
Module WfRuns.
Import Runs.

(** Two requests hold the read lock on a cold part_001 cache. *)
Definition two_readers : state :=
  Eval vm_compute in
  state_after part_001 [LRequest; LRequest; LThread 1 (Fetched []); LThread 2 (Fetched [])].

Definition after_read1 : state :=
  Eval vm_compute in default two_readers (thread_step part_001 two_readers 1 (Fetched [])).

Definition after_read2 : state :=
  Eval vm_compute in default two_readers (thread_step part_001 two_readers 2 (Fetched [])).

Lemma read_idempotent_witness :
  threads two_readers !! 1 = Some (Handler HLocked) /\
  thread_step part_001 two_readers 1 (Fetched []) = Some after_read1 /\
  threads after_read1 !! 1 = Some (Handler HMiss) /\
  threads two_readers !! 2 = Some (Handler HLocked) /\
  thread_step part_001 two_readers 2 (Fetched []) = Some after_read2 /\
  threads after_read2 !! 2 = Some (Handler HMiss) /\
  HMiss = HMiss.
Proof.
  assert (H1 : threads two_readers !! 1 = Some (Handler HLocked)) by (vm_compute; reflexivity).
  assert (H2 : thread_step part_001 two_readers 1 (Fetched []) = Some after_read1)
    by (vm_compute; reflexivity).
  assert (H3 : threads after_read1 !! 1 = Some (Handler HMiss)) by (vm_compute; reflexivity).
  assert (H4 : threads two_readers !! 2 = Some (Handler HLocked)) by (vm_compute; reflexivity).
  assert (H5 : thread_step part_001 two_readers 2 (Fetched []) = Some after_read2)
    by (vm_compute; reflexivity).
  assert (H6 : threads after_read2 !! 2 = Some (Handler HMiss)) by (vm_compute; reflexivity).
  split_and!; try assumption.
  exact (read_idempotent part_001 two_readers two_readers 1 2 _ _ _ _ _ _
           (rtc_refl _ _) H1 H2 H3 H4 H5 H6).
Defined.

(** part_001: a first request misses and spawns a rebuild, which announces
    its [Lock]; a second request arrives while the cache is still empty. *)
Definition blocked_prefix : list label :=
  [LRequest] ++ steps 1 2 (Fetched []) ++ [LThread 2 (Fetched [])] ++ [LRequest].

(** The first request releases its read lock and the rebuild takes the
    write lock: it is about to fetch while the second request waits. *)
Definition fetch_state : state :=
  Eval vm_compute in state_after part_001 (blocked_prefix ++ steps 1 1 (Fetched []) ++ steps 2 1 (Fetched [])).

Lemma fetch_state_reachable : reachable part_001 fetch_state.
Proof.
  apply run_rtc with (blocked_prefix ++ steps 1 1 (Fetched []) ++ steps 2 1 (Fetched [])).
  vm_compute. reflexivity.
Qed.

Lemma cold_read_waits_for_fetch_witness :
  reachable part_001 fetch_state /\ threads fetch_state !! 3 = Some (Handler HStart) /\
  thread_step part_001 fetch_state 2 (Fetched []) <> thread_step part_001 fetch_state 2 (FetchFailed "timeout") /\
  writer (mu (g fetch_state)) = WHeld /\
  (exists t, threads fetch_state !! 2 = Some t /\ in_write_section t = true) /\
  forall o, thread_step part_001 fetch_state 3 o = None.
Proof.
  pose proof fetch_state_reachable as Hr.
  assert (Hi : threads fetch_state !! 3 = Some (Handler HStart)) by reflexivity.
  assert (Hne : thread_step part_001 fetch_state 2 (Fetched []) <>
                thread_step part_001 fetch_state 2 (FetchFailed "timeout"))
    by (vm_compute; congruence).
  split; [exact Hr|]. split; [exact Hi|]. split; [exact Hne|].
  exact (cold_read_waits_for_fetch part_001 fetch_state 3 2 _ _ Hr Hi Hne).
Defined.

Lemma blocked_read_progress_witness :
  reachable part_001 fetch_state /\ exited fetch_state = false /\
  threads fetch_state !! 3 = Some (Handler HStart) /\
  thread_step part_001 fetch_state 3 (Fetched []) = None /\
  exists j t, threads fetch_state !! j = Some t /\
    (in_write_section t = true \/ awaiting_readers t = true \/ in_read_section t = true) /\
    forall o', thread_step part_001 fetch_state j o' <> None.
Proof.
  pose proof fetch_state_reachable as Hr.
  assert (Hx : exited fetch_state = false) by reflexivity.
  assert (Hi : threads fetch_state !! 3 = Some (Handler HStart)) by reflexivity.
  assert (Hb : thread_step part_001 fetch_state 3 (Fetched []) = None) by reflexivity.
  split; [exact Hr|]. split; [exact Hx|]. split; [exact Hi|]. split; [exact Hb|].
  exact (blocked_read_progress part_001 fetch_state 3 _ Hr Hx Hi Hb).
Defined.

End WfRuns.
End CacheWf.
