(* ===== verification/Part001.v ===== *)
(** * part_001 as written: the cache code without a timestamp

    [Cache] models part_000 and part_001 with one step function per
    goroutine, selected by [variant].  part_001 is its own program: it has
    no [cacheTimestamp] (lines 30-31), its [rebuildCache] (lines 91-159)
    ends with [cache = forecasts], its [GET /] handler (lines 43-54) sends
    the cache without a header, and its refresh job (lines 77-89) waits
    for the first tick.  This file translates those functions as part_001
    writes them ([rebuildCache], [fetchCache], [refreshCacheJob],
    [main_state]) and shows that in every reachable state of part_001 the
    shared model takes exactly their steps and never touches
    [cacheTimestamp]: the theorems proved of [Cache] at [part_001] are
    theorems of this code. *)

From S2P Require Import Prelude GoStrconv Dom Extract Cache CacheWf.
Import Dom Extract.

Module Part001.
Import Cache CacheWf.

Section Code.
Context `{Hscr : !Scraper}.

(** [rebuildCache] (lines 91-159): [Lock], the fetch and the extraction,
    on success [cache = forecasts], the deferred [Unlock].  There is no
    stamping statement, so no step leads to [RStamp]. *)
Definition rebuildCache (gl : globals) (pc : rebuild_pc) (o : fetch_outcome)
    : option (globals * rebuild_pc) :=
  match pc with
  | RStart => m ← lock_announce (mu gl); Some (set_mu gl m, RPending)
  | RPending => m ← lock_acquire (mu gl); Some (set_mu gl m, RLocked)
  | RLocked =>
      Some (gl, RParsed (match o with
                         | FetchFailed msg => Err (FetchError msg)
                         | Fetched d => scrape d
                         end))
  | RParsed (Err e) => Some (set_mu gl (unlock (mu gl)), RDone (Err e))
  | RParsed (Ok fs) => Some (mkGlobals (Some fs) (cacheTimestamp gl) (mu gl) (clock gl), RUnlock (Ok tt))
  | RUnlock r => Some (set_mu gl (unlock (mu gl)), RDone r)
  | RStamp | RDone _ => None
  end.

(** [fetchCache] (lines 62-74) and the [GET /] handler after it (lines
    43-54): the hit is answered with the cache and no header. *)
Definition fetchCache (gl : globals) (pc : handler_pc) : option (globals * handler_pc * list thread) :=
  match pc with
  | HStart => m ← rlock (mu gl); Some (set_mu gl m, HLocked, [])
  | HLocked =>
      match cache gl with
      | None => Some (gl, HMiss, [Rebuilder RStart])
      | Some c => Some (gl, HHit c, [])
      end
  | HMiss => Some (set_mu gl (runlock (mu gl)), HDone (Resp500 cache_empty_msg), [])
  | HHit c => Some (set_mu gl (runlock (mu gl)), HDone (Resp200 c None), [])
  | HReadTs _ | HDone _ => None
  end.

(** [refreshCacheJob] (lines 77-89): [for range time.Tick(10 * time.Minute)]
    waits for a tick, then rebuilds; an error is fatal. *)
Definition refreshCacheJob (gl : globals) (pc : job_pc) (o : fetch_outcome)
    : option (globals * job_pc * bool) :=
  match pc with
  | JWait => Some (gl, JRun RStart, false)
  | JRun (RDone (Err _)) => Some (gl, pc, true)
  | JRun (RDone (Ok _)) => Some (gl, JWait, false)
  | JRun r => '(gl', r') ← rebuildCache gl r o; Some (gl', JRun r', false)
  end.

(** [main] (lines 38-41): the package variables at their zero values and
    [go refreshCacheJob()], waiting for its first tick. *)
Definition main_state : state := mkState (mkGlobals None None rw_unlocked 0) [Job JWait] false.

Lemma rebuild_step_code gl pc o :
  pc <> RStamp -> rebuild_step part_001 gl pc o = rebuildCache gl pc o.
Proof. intros H. by destruct pc as [| | |[]| | |]. Qed.

Lemma handler_step_code gl pc :
  (forall c, pc <> HReadTs c) -> handler_step part_001 gl pc = fetchCache gl pc.
Proof. intros H. destruct pc as [| | | |c|]; try done. by destruct (H c). Qed.

Lemma job_step_code gl pc o :
  pc <> JRun RStamp -> job_step part_001 gl pc o = refreshCacheJob gl pc o.
Proof.
  intros H. destruct pc as [[| | |[]| | |[]]|]; try done.
  all: cbn [job_step refreshCacheJob]; rewrite rebuild_step_code; congruence.
Qed.

(** The shared model at [part_001] is part_001's code: it starts
    from [main]'s state, and in every reachable state [cacheTimestamp] is
    still the zero time and each goroutine's next step is the step of
    part_001's [fetchCache] and [GET /] handler, [rebuildCache] or
    [refreshCacheJob]. *)
Theorem part_001_is_its_code s i t o :
  reachable part_001 s -> threads s !! i = Some t ->
  init part_001 = main_state /\ cacheTimestamp (g s) = None /\
  match t with
  | Handler pc => handler_step part_001 (g s) pc = fetchCache (g s) pc
  | Rebuilder pc => rebuild_step part_001 (g s) pc o = rebuildCache (g s) pc o
  | Job pc => job_step part_001 (g s) pc o = refreshCacheJob (g s) pc o
  end.
Proof.
  intros Hr Hi. destruct (reachable_wf part_001 s Hr) as (_ & _ & Hts).
  destruct (Hts eq_refl) as [Hnone Hcount]. split_and!; [reflexivity|done|].
  pose proof (count_if_lookup uses_timestamp _ _ _ Hi) as Hu. rewrite Hcount in Hu.
  destruct t as [pc|pc|pc].
  - apply handler_step_code. intros c ->. simpl in Hu. lia.
  - apply rebuild_step_code. intros ->. simpl in Hu. lia.
  - apply job_step_code. intros ->. simpl in Hu. lia.
Qed.

End Code.

End Part001.
