(* ===== verification/Legacy.v ===== *)
(** * The request-driven variant (src/main.go)

    [fetchParseAndJsonify] (main.go lines 45-119) runs in the request's
    goroutine: it locks the [sync.Mutex] only to test the cache and, after
    the fetch and the extraction, to store the result; the fetch itself runs
    without the lock.  There is no refresh job.

    The model reuses [Cache]'s fetch outcomes and [Scraper] interface; the
    state is the cache, the mutex (held or not) and one thread per request
    with its program counter [lpc].  The theorems show mutual exclusion, that
    every answer and the cache hold a promised snapshot, that two requests
    can fetch at the same time (the lock does not serialise rebuilds, unlike
    part_000), that a hit reads [cache] again after releasing the mutex
    (line 50), racing with a concurrent store, and that once filled and
    with no request in the middle of a rebuild, the cache never changes
    again: this variant never refreshes. *)

From S2P Require Import Prelude GoStrconv Dom Extract Cache.
Import Dom Extract Cache.

Module Legacy.

(** The answer of the route [GET /] (main.go lines 34-41). *)
Inductive lresponse :=
| LResp500 (e : pollen_error)               (* [c.AbortWithError(500, err)] *)
| LResp200 (output : list forecast).        (* [c.JSON(200, output)] *)

(** The program counter of a request goroutine inside
    [fetchParseAndJsonify]. *)
Inductive lpc :=
| LStart                                   (* before the first [Lock] *)
| LCheck                                   (* holds the mutex, before [cache != nil] *)
| LHit                                     (* saw [cache != nil], before [Unlock] *)
| LReturn                                  (* unlocked, before [return cache, nil] *)
| LMiss                                    (* cache was nil, before [Unlock] *)
| LFetch                                   (* unlocked, before [goquery.NewDocument] *)
| LParsed (r : result pollen_error (list forecast))
| LStoreLock (fs : list forecast)          (* before the second [Lock] *)
| LStore (fs : list forecast)              (* holds the mutex, before [cache = forecasts] *)
| LStoreUnlock (fs : list forecast)        (* before the second [Unlock] *)
| LDone (resp : lresponse).

Record lstate := mkLState { lcache : option (list forecast); locked : bool; lthreads : list lpc }.

(** The goroutines that hold the mutex. *)
Definition holds_mutex (pc : lpc) : bool :=
  match pc with LCheck | LHit | LMiss | LStore _ | LStoreUnlock _ => true | _ => false end.

(** The goroutines that have seen an empty cache and may still store. *)
Definition rebuilding (pc : lpc) : bool :=
  match pc with
  | LMiss | LFetch | LParsed _ | LStoreLock _ | LStore _ | LStoreUnlock _ => true
  | _ => false
  end.

Definition fetching (pc : lpc) : bool := match pc with LFetch => true | _ => false end.

(** The snapshots a goroutine holds: read, extracted or sent. *)
Definition lpc_snapshots (pc : lpc) : list (list forecast) :=
  match pc with
  | LDone (LResp200 x) => [x]
  | LParsed (Ok fs) | LStoreLock fs | LStore fs | LStoreUnlock fs => [fs]
  | _ => []
  end.

Section Model.
Context `{Hscr : !Scraper}.

(** One atomic action of [fetchParseAndJsonify] and its handler. *)
Definition lstep_pc (c : option (list forecast)) (m : bool) (pc : lpc) (o : fetch_outcome)
    : option (option (list forecast) * bool * lpc) :=
  match pc with
  | LStart => if m then None else Some (c, true, LCheck)
  | LCheck =>
      match c with
      | Some _ => Some (c, m, LHit)
      | None => Some (c, m, LMiss)
      end
  | LHit => Some (c, false, LReturn)
  | LReturn =>
      (* line 50 reads [cache] again, without the mutex; it is not nil
         there, since the only store (line 116) writes the non-nil slice
         made at line 58 *)
      match c with
      | Some x => Some (c, m, LDone (LResp200 x))
      | None => None
      end
  | LMiss => Some (c, false, LFetch)
  | LFetch =>
      Some (c, m, LParsed (match o with
                           | FetchFailed msg => Err (FetchError msg)
                           | Fetched d => scrape d
                           end))
  | LParsed (Err e) => Some (c, m, LDone (LResp500 e))
  | LParsed (Ok fs) => Some (c, m, LStoreLock fs)
  | LStoreLock fs => if m then None else Some (c, true, LStore fs)
  | LStore fs => Some (Some fs, m, LStoreUnlock fs)
  | LStoreUnlock fs => Some (c, false, LDone (LResp200 fs))
  | LDone _ => None
  end.

(** The events: a request goroutine's action (with the fetch outcome it
    would see), or a new request. *)
Inductive llabel := LRun (i : nat) (o : fetch_outcome) | LNew.

Definition lexec (s : lstate) (l : llabel) : option lstate :=
  match l with
  | LRun i o =>
      pc ← lthreads s !! i;
      '(c', m', pc') ← lstep_pc (lcache s) (locked s) pc o;
      Some (mkLState c' m' (<[i := pc']> (lthreads s)))
  | LNew => Some (mkLState (lcache s) (locked s) (lthreads s ++ [LStart]))
  end.

Fixpoint lrun (s : lstate) (ls : list llabel) : option lstate :=
  match ls with
  | [] => Some s
  | l :: ls' => s' ← lexec s l; lrun s' ls'
  end.

Definition lstep (s s' : lstate) : Prop := exists l, lexec s l = Some s'.

(** [var cacheMutex sync.Mutex; var cache []forecast]: unlocked, nil. *)
Definition linit : lstate := mkLState None false [].

Definition lreachable (s : lstate) : Prop := rtc lstep linit s.

(** ** Invariants *)

Definition mutex_inv (s : lstate) : Prop :=
  count_if holds_mutex (lthreads s) = if locked s then 1 else 0.

Definition lsnap_inv (s : lstate) : Prop :=
  (forall fs, lcache s = Some fs -> snapshot_ok fs) /\
  Forall (fun pc => Forall snapshot_ok (lpc_snapshots pc)) (lthreads s).

Lemma lreachable_ind (P : lstate -> Prop) :
  P linit -> (forall s s', P s -> lstep s s' -> P s') ->
  forall s, lreachable s -> P s.
Proof.
  intros H0 Hs s Hr. unfold lreachable in Hr.
  remember linit as s0 eqn:E. clear E. revert H0.
  induction Hr as [|x y z Hxy _ IH]; intros Hx; [done|].
  apply IH. by eapply Hs.
Qed.

Lemma lrun_rtc s ls s' : lrun s ls = Some s' -> rtc lstep s s'.
Proof.
  revert s. induction ls as [|l ls IH]; intros s Hrun; simpl in Hrun; [by simplify_eq|].
  destruct (lexec s l) as [s1|] eqn:E; [|done].
  eapply rtc_l; [by exists l|]. by apply IH.
Qed.

Lemma mutex_inv_step s s' : mutex_inv s -> lstep s s' -> mutex_inv s'.
Proof.
  unfold mutex_inv. intros Hinv [[i o|] Hl]; simpl in Hl.
  - destruct (lthreads s !! i) as [pc|] eqn:Ht; [|done]. simpl in Hl.
    pose proof (count_if_lookup holds_mutex _ _ _ Ht).
    destruct s as [c m thr]; simpl in *.
    destruct pc; simpl in Hl; repeat (case_match; simplify_eq/=); simplify_eq/=;
      match goal with
      | |- context [<[?i := ?y]> ?l] => pose proof (count_if_insert holds_mutex l i _ y Ht)
      end; simpl in *; lia.
  - simplify_eq/=. rewrite count_if_app. simpl. lia.
Qed.

Lemma lsnap_inv_step s s' : lsnap_inv s -> lstep s s' -> lsnap_inv s'.
Proof.
  intros [Hc Hth] [[i o|] Hl]; simpl in Hl.
  - destruct (lthreads s !! i) as [pc|] eqn:Ht; [|done]. simpl in Hl.
    pose proof (Forall_lookup_1 _ _ _ _ Hth Ht) as Hold.
    destruct s as [c m thr]; simpl in *.
    destruct pc; simpl in Hl; repeat (case_match; simplify_eq/=); simplify_eq/=;
      (split; [simpl; intros ??; simplify_eq/=; rewrite ?Forall_singleton in Hold; eauto|]);
      simpl; apply Forall_insert; try done; simpl in *;
      rewrite ?Forall_singleton in Hold |- *;
      repeat case_match; simplify_eq/=; eauto using scrape_ok.
  - simplify_eq/=. split; [done|]. apply Forall_app. split; [done|]. repeat constructor.
Qed.

(** A step from a filled cache with no request in the middle of a rebuild
    leaves the cache and that condition in place. *)
Lemma quiescent_step s s' c :
  lcache s = Some c -> Forall (fun pc => rebuilding pc = false) (lthreads s) ->
  lstep s s' ->
  lcache s' = Some c /\ Forall (fun pc => rebuilding pc = false) (lthreads s').
Proof.
  intros Hc Hq [[i o|] Hl]; simpl in Hl.
  - destruct (lthreads s !! i) as [pc|] eqn:Ht; [|done]. simpl in Hl.
    pose proof (Forall_lookup_1 _ _ _ _ Hq Ht) as Hold.
    destruct s as [c0 m thr]; simpl in *. subst c0.
    destruct pc; simpl in Hl, Hold; try discriminate;
      repeat (case_match; simplify_eq/=); simplify_eq/=;
      (split; [done|]); apply Forall_insert; done.
  - simplify_eq/=. split; [done|]. apply Forall_app. split; [done|]. repeat constructor.
Qed.

(** C24. Mutual exclusion of [cacheMutex] in main.go: in every reachable
    state at most one request goroutine holds the mutex. *)
Theorem legacy_mutual_exclusion s :
  lreachable s -> count_if holds_mutex (lthreads s) <= 1.
Proof.
  intros Hr. pose proof (lreachable_ind mutex_inv ltac:(done) mutex_inv_step s Hr) as H.
  unfold mutex_inv in H. destruct (locked s); lia.
Qed.

(** C25. In main.go the cache and every successful answer hold a snapshot the
    scraper promised: a failed fetch or parse is answered with 500 and
    stores nothing. *)
Theorem legacy_snapshots_ok s :
  lreachable s ->
  (forall fs, lcache s = Some fs -> snapshot_ok fs) /\
  (forall i x, lthreads s !! i = Some (LDone (LResp200 x)) -> snapshot_ok x).
Proof.
  intros Hr. destruct (lreachable_ind lsnap_inv ltac:(split; [done|constructor])
                        lsnap_inv_step s Hr) as [Hc Hth].
  split; [done|]. intros i x Hi. pose proof (Forall_lookup_1 _ _ _ _ Hth Hi) as H.
  simpl in H. by inversion H.
Qed.

(** C26. main.go never refreshes: once the cache is filled and no request is
    between its miss and its store, the cache keeps its value along every
    run. *)
Theorem legacy_never_refreshed s s' c :
  rtc lstep s s' -> lcache s = Some c ->
  Forall (fun pc => rebuilding pc = false) (lthreads s) ->
  lcache s' = Some c.
Proof.
  induction 1 as [|x y z Hxy _ IH]; intros Hc Hq; [done|].
  destruct (quiescent_step x y c Hc Hq Hxy) as [Hc' Hq']. by apply IH.
Qed.

End Model.

(** ** Concrete runs *)

Module LRuns.
Import Extract.Scenarios Cache.Runs.

Definition lsteps (i n : nat) (o : fetch_outcome) : list llabel := repeat (LRun i o) n.

(** Two requests arrive on a cold cache; each takes and releases the mutex,
    sees [nil], and both are fetching at once. *)
Definition double_fetch_run : list llabel :=
  [LNew; LNew] ++ lsteps 0 3 (Fetched []) ++ lsteps 1 3 (Fetched []).

(** Then the first stores Aarhus, the second Odense (an overwrite), and a
    third request reads the cache. *)
Definition overwrite_run : list llabel :=
  double_fetch_run ++ lsteps 0 5 (Fetched (dmi_page [aarhus])) ++
  lsteps 1 5 (Fetched (dmi_page [odense])).

Definition lstate_after (ls : list llabel) : lstate := default linit (lrun linit ls).

Definition double_fetch_state : lstate := Eval vm_compute in lstate_after double_fetch_run.
Definition filled_state : lstate := Eval vm_compute in lstate_after overwrite_run.
Definition later_state : lstate :=
  Eval vm_compute in lstate_after (overwrite_run ++ [LNew; LNew] ++ lsteps 2 3 (Fetched []) ++
                                   lsteps 3 2 (Fetched [])).

(** Two requests miss on a cold cache; the first stores Aarhus; a third
    request finds the cache filled and releases the mutex before line 50;
    the second request has fetched Odense and holds the mutex at its store. *)
Definition read_race_run : list llabel :=
  double_fetch_run ++ lsteps 0 5 (Fetched (dmi_page [aarhus])) ++
  [LNew] ++ lsteps 2 3 (Fetched []) ++ lsteps 1 3 (Fetched (dmi_page [odense])).

(** The store and then the read: the third request answers with Odense,
    which it never saw under the mutex. *)
Definition read_race_rest : list llabel := [LRun 1 (Fetched []); LRun 2 (Fetched [])].

Definition read_race_state : lstate := Eval vm_compute in lstate_after read_race_run.
Definition read_race_final : lstate :=
  Eval vm_compute in lstate_after (read_race_run ++ read_race_rest).

Lemma double_fetch_reachable : lreachable double_fetch_state.
Proof. apply lrun_rtc with double_fetch_run. vm_compute. reflexivity. Qed.

Lemma filled_reachable : lreachable filled_state.
Proof. apply lrun_rtc with overwrite_run. vm_compute. reflexivity. Qed.

Lemma filled_to_later : rtc lstep filled_state later_state.
Proof.
  apply lrun_rtc with ([LNew; LNew] ++ lsteps 2 3 (Fetched []) ++ lsteps 3 2 (Fetched [])).
  vm_compute. reflexivity.
Qed.

(** C27. The mutex of main.go does not serialise rebuilds: two requests on a
    cold cache can both be fetching the page at the same time, and the
    second store overwrites the first, whose goroutine answered with the
    overwritten snapshot. *)
Theorem legacy_double_fetch :
  (exists s, lreachable s /\ count_if fetching (lthreads s) = 2) /\
  (exists s, lreachable s /\ lthreads s !! 0 = Some (LDone (LResp200 snap_aarhus)) /\
             lcache s = Some snap_odense).
Proof.
  split.
  - exists double_fetch_state. split; [apply double_fetch_reachable|]. reflexivity.
  - exists filled_state. split; [apply filled_reachable|]. vm_compute. auto.
Qed.

(** C21. Data race on [cache] in main.go: a state is reachable in which one
    request, having seen [cache != nil] and released the mutex, is about to
    read [cache] again (line 50) while another request holds the mutex and
    is about to write it (line 116); run on, the first request answers with
    the snapshot the second stored, not the one it tested under the mutex. *)
Theorem legacy_cache_read_race :
  exists s s' i j fs,
    lreachable s /\ lthreads s !! i = Some LReturn /\
    lthreads s !! j = Some (LStore fs) /\ locked s = true /\ lcache s <> Some fs /\
    rtc lstep s s' /\ lthreads s' !! i = Some (LDone (LResp200 fs)).
Proof.
  exists read_race_state, read_race_final, 2, 1, snap_odense.
  split; [apply lrun_rtc with read_race_run; vm_compute; reflexivity|].
  split_and!; [reflexivity..|vm_compute; congruence| |reflexivity].
  apply lrun_rtc with read_race_rest. vm_compute. reflexivity.
Qed.

Lemma legacy_mutual_exclusion_witness :
  lreachable double_fetch_state /\ count_if holds_mutex (lthreads double_fetch_state) <= 1.
Proof.
  split; [apply double_fetch_reachable|].
  apply (legacy_mutual_exclusion double_fetch_state double_fetch_reachable).
Defined.

Lemma legacy_snapshots_ok_witness :
  lreachable filled_state /\
  (forall fs, lcache filled_state = Some fs -> snapshot_ok fs) /\
  (forall i x, lthreads filled_state !! i = Some (LDone (LResp200 x)) -> snapshot_ok x).
Proof.
  split; [apply filled_reachable|].
  apply (legacy_snapshots_ok filled_state filled_reachable).
Defined.

Lemma legacy_never_refreshed_witness :
  rtc lstep filled_state later_state /\ lcache filled_state = Some snap_odense /\
  Forall (fun pc => rebuilding pc = false) (lthreads filled_state) /\
  lcache later_state = Some snap_odense.
Proof.
  split; [apply filled_to_later|]. split; [vm_compute; reflexivity|].
  split; [vm_compute; repeat constructor|].
  apply (legacy_never_refreshed filled_state later_state snap_odense filled_to_later);
    vm_compute; [reflexivity|repeat constructor].
Defined.

End LRuns.

End Legacy.
