(* ===== verification/Utf8.v ===== *)
(** * Go's [unicode/utf8]: the rune decoder and encoder used by [encoding/json]

    The JSON encoder behind gin's [c.JSON] walks a Go string byte by byte
    and, at every non-ASCII byte, calls [utf8.DecodeRuneInString]; the
    decoder turns a [\uXXXX] escape back into bytes with [utf8.EncodeRune].
    Strings here are Go strings: byte sequences, a [string] of [ascii]
    whose characters are bytes [0 .. 255].

    - [first]: the [first] table's size and [acceptRanges] entry of a
      leading byte;
    - [decode_rune]: [DecodeRuneInString], with its masks and shifts;
    - [encode_rune]: [EncodeRune] and [encodeRuneNonASCII], with the
      [uint32] conversion that sends negative runes to [RuneError];
    - [decode_rune_encode]: a rune decoded without error is re-encoded to
      the very bytes it was decoded from. *)

From Stdlib Require Import Zbitwise.
From S2P Require Import Prelude GoStrconv.
Local Open Scope Z_scope.

Module Utf8.
Import Strconv.

Definition rune_error : Z := 0xFFFD.
Definition rune_self : Z := 0x80.
Definition max_rune : Z := 0x10FFFF.
Definition surrogate_min : Z := 0xD800.
Definition surrogate_max : Z := 0xDFFF.
Definition locb : Z := 0x80.
Definition hicb : Z := 0xBF.
Definition maskx : Z := 0x3F.
Definition mask2 : Z := 0x1F.
Definition mask3 : Z := 0x0F.
Definition mask4 : Z := 0x07.

(** Go's [byte(x)]: the low eight bits, as a character. *)
Definition byte_to_char (z : Z) : ascii := Ascii.ascii_of_N (Z.to_N (Z.land z 0xFF)).

(** The [first] table with [acceptRanges] folded in: [None] for the
    invalid leading bytes [xx] ([0x80 .. 0xC1], [0xF5 .. 0xFF]), and for a
    leading byte of a multi-byte sequence its size and the range allowed
    for the second byte.  ASCII bytes are tested before the table is read. *)
Definition first (b0 : Z) : option (nat * Z * Z) :=
  if b0 <? 0xC2 then None
  else if b0 <=? 0xDF then Some (2%nat, 0x80, 0xBF)
  else if b0 =? 0xE0 then Some (3%nat, 0xA0, 0xBF)
  else if b0 =? 0xED then Some (3%nat, 0x80, 0x9F)
  else if b0 <=? 0xEF then Some (3%nat, 0x80, 0xBF)
  else if b0 =? 0xF0 then Some (4%nat, 0x90, 0xBF)
  else if b0 <=? 0xF3 then Some (4%nat, 0x80, 0xBF)
  else if b0 =? 0xF4 then Some (4%nat, 0x80, 0x8F)
  else None.

Definition out_of (lo hi b : Z) : bool := (b <? lo) || (hi <? b).

(** [utf8.DecodeRuneInString]: the rune at the head of [s] and its size;
    [(RuneError, 1)] for an invalid or truncated sequence, [(RuneError, 0)]
    for the empty string. *)
Definition decode_rune (s : string) : Z * nat :=
  match s with
  | EmptyString => (rune_error, 0%nat)
  | String c0 s1 =>
      let b0 := byte_of c0 in
      if b0 <? rune_self then (b0, 1%nat) else
      match first b0 with
      | None => (rune_error, 1%nat)
      | Some (sz, lo, hi) =>
          if (String.length s <? sz)%nat then (rune_error, 1%nat) else
          match s1 with
          | EmptyString => (rune_error, 1%nat)
          | String c1 s2 =>
              let b1 := byte_of c1 in
              if out_of lo hi b1 then (rune_error, 1%nat)
              else if (sz <=? 2)%nat then
                (Z.lor (Z.shiftl (Z.land b0 mask2) 6) (Z.land b1 maskx), 2%nat)
              else
              match s2 with
              | EmptyString => (rune_error, 1%nat)
              | String c2 s3 =>
                  let b2 := byte_of c2 in
                  if out_of locb hicb b2 then (rune_error, 1%nat)
                  else if (sz <=? 3)%nat then
                    (Z.lor (Z.lor (Z.shiftl (Z.land b0 mask3) 12)
                                  (Z.shiftl (Z.land b1 maskx) 6))
                           (Z.land b2 maskx), 3%nat)
                  else
                  match s3 with
                  | EmptyString => (rune_error, 1%nat)
                  | String c3 _ =>
                      let b3 := byte_of c3 in
                      if out_of locb hicb b3 then (rune_error, 1%nat)
                      else
                        (Z.lor (Z.lor (Z.lor (Z.shiftl (Z.land b0 mask4) 18)
                                             (Z.shiftl (Z.land b1 maskx) 12))
                                      (Z.shiftl (Z.land b2 maskx) 6))
                               (Z.land b3 maskx), 4%nat)
                  end
              end
          end
      end
  end.

(** The three-byte encoding of a rune below [0x10000]. *)
Definition encode3 (r : Z) : string :=
  String (byte_to_char (Z.lor 0xE0 (Z.land (Z.shiftr r 12) 0xFF)))
    (String (byte_to_char (Z.lor 0x80 (Z.land (Z.land (Z.shiftr r 6) 0xFF) maskx)))
      (String (byte_to_char (Z.lor 0x80 (Z.land (Z.land r 0xFF) maskx))) EmptyString)).

(** [utf8.EncodeRune]: the bytes of [r]; [RuneError]'s bytes for a
    surrogate, a rune above [MaxRune] or a negative rune (which
    [uint32(r)] makes huge). *)
Definition encode_rune (r : Z) : string :=
  let i := r mod 2 ^ 32 in
  if i <=? 0x7F then String (byte_to_char r) EmptyString
  else if i <=? 0x7FF then
    String (byte_to_char (Z.lor 0xC0 (Z.land (Z.shiftr r 6) 0xFF)))
      (String (byte_to_char (Z.lor 0x80 (Z.land (Z.land r 0xFF) maskx))) EmptyString)
  else if (i <? surrogate_min) || ((surrogate_max <? i) && (i <=? 0xFFFF)) then encode3 r
  else if (0xFFFF <? i) && (i <=? max_rune) then
    String (byte_to_char (Z.lor 0xF0 (Z.land (Z.shiftr r 18) 0xFF)))
      (String (byte_to_char (Z.lor 0x80 (Z.land (Z.land (Z.shiftr r 12) 0xFF) maskx)))
        (String (byte_to_char (Z.lor 0x80 (Z.land (Z.land (Z.shiftr r 6) 0xFF) maskx)))
          (String (byte_to_char (Z.lor 0x80 (Z.land (Z.land r 0xFF) maskx))) EmptyString)))
  else encode3 rune_error.

(** [s[n:]]. *)
Fixpoint sdrop (n : nat) (s : string) : string :=
  match n, s with
  | O, _ => s
  | S n', String _ s' => sdrop n' s'
  | S _, EmptyString => EmptyString
  end.

(** [s[:n]], clamped at the end of [s] as [s[:min(n, len(s))]]. *)
Fixpoint stake (n : nat) (s : string) : string :=
  match n, s with
  | O, _ => EmptyString
  | S n', String c s' => String c (stake n' s')
  | S _, EmptyString => EmptyString
  end.

(** Bit arithmetic on bounded values, as the decoder and encoder use it. *)

Lemma land_mask a k : 0 <= k -> Z.land a (2 ^ k - 1) = a mod 2 ^ k.
Proof. intros Hk. rewrite <- Z.land_ones by lia. f_equal. rewrite Z.ones_equiv. lia. Qed.

Lemma lor_disjoint a b k :
  0 <= k -> 0 <= b < 2 ^ k -> Z.lor (a * 2 ^ k) b = a * 2 ^ k + b.
Proof.
  intros Hk Hb.
  assert (Z.land (a * 2 ^ k) b = 0) as H0.
  { apply Z.bits_inj'. intros i Hi. rewrite Z.land_spec, Z.bits_0.
    destruct (Z.lt_ge_cases i k).
    - rewrite <- Z.shiftl_mul_pow2 by lia. rewrite Z.shiftl_spec_low by lia. done.
    - rewrite <- (Z.mod_small b (2 ^ k)) by lia.
      rewrite Z.mod_pow2_bits_high by lia. apply andb_false_r. }
  pose proof (Z.add_lor_land (a * 2 ^ k) b). lia.
Qed.

Lemma byte_to_char_byte c : byte_to_char (byte_of c) = c.
Proof.
  unfold byte_to_char, byte_of.
  rewrite (land_mask _ 8) by lia. rewrite Z.mod_small by (pose proof (byte_of_range c); unfold byte_of in *; lia).
  rewrite N2Z.id. apply Ascii.ascii_N_embedding.
Qed.

Lemma byte_to_char_eq z c : z = byte_of c -> byte_to_char z = c.
Proof. intros ->. apply byte_to_char_byte. Qed.

Lemma lor_add_lt a b k : 0 <= k -> 0 <= b < 2 ^ k -> a mod 2 ^ k = 0 -> Z.lor a b = a + b.
Proof.
  intros Hk Hb Ha. rewrite (Z.div_mod a (2 ^ k)) by lia. rewrite Ha, Z.add_0_r.
  rewrite Z.mul_comm. apply lor_disjoint; lia.
Qed.

Lemma land_ff a : Z.land a 0xFF = a mod 2 ^ 8.
Proof. apply (land_mask a 8). lia. Qed.
Lemma land_maskx a : Z.land a maskx = a mod 2 ^ 6.
Proof. apply (land_mask a 6). lia. Qed.
Lemma land_mask2 a : Z.land a mask2 = a mod 2 ^ 5.
Proof. apply (land_mask a 5). lia. Qed.
Lemma land_mask3 a : Z.land a mask3 = a mod 2 ^ 4.
Proof. apply (land_mask a 4). lia. Qed.
Lemma land_mask4 a : Z.land a mask4 = a mod 2 ^ 3.
Proof. apply (land_mask a 3). lia. Qed.

Ltac arith := Z.to_euclidean_division_equations; lia.

(** Turn the masks, shifts and disjoint ors of a byte computation into
    arithmetic, innermost [lor] first. *)
Ltac bits_to_arith :=
  rewrite ?land_ff, ?land_maskx, ?land_mask2, ?land_mask3, ?land_mask4;
  rewrite ?Z.shiftl_mul_pow2, ?Z.shiftr_div_pow2 by lia;
  repeat match goal with
  | |- context [Z.lor ?a ?b] =>
      first [ rewrite (lor_add_lt a b 6) by arith
            | rewrite (lor_add_lt a b 12) by arith
            | rewrite (lor_add_lt a b 18) by arith
            | rewrite (lor_add_lt a b 5) by arith
            | rewrite (lor_add_lt a b 4) by arith
            | rewrite (lor_add_lt a b 3) by arith ]
  end.

(** Boolean comparisons of [Z] in hypotheses, as propositions. *)
Ltac zbool :=
  repeat match goal with
  | H : (_ <? _) = true |- _ => apply Z.ltb_lt in H
  | H : (_ <? _) = false |- _ => apply Z.ltb_ge in H
  | H : (_ <=? _) = true |- _ => apply Z.leb_le in H
  | H : (_ <=? _) = false |- _ => apply Z.leb_gt in H
  | H : (_ =? _) = true |- _ => apply Z.eqb_eq in H
  | H : (_ =? _) = false |- _ => apply Z.eqb_neq in H
  | H : (_ || _) = true |- _ => apply orb_true_iff in H; destruct H
  | H : (_ || _) = false |- _ => apply orb_false_iff in H; destruct H
  | H : (_ && _) = true |- _ => apply andb_true_iff in H; destruct H
  | H : (_ && _) = false |- _ => apply andb_false_iff in H; destruct H
  | H : negb _ = true |- _ => apply negb_true_iff in H
  | H : negb _ = false |- _ => apply negb_false_iff in H
  end.

(** One output byte of the encoder equals the input byte it came from. *)
Ltac byte_goal := apply byte_to_char_eq; bits_to_arith; arith.

(** The encoder's branch for a rune whose value [v] is known. *)
Ltac encode_branch Hr :=
  unfold encode_rune, encode3, surrogate_min, surrogate_max, max_rune; rewrite Hr, (Z.mod_small _ (2 ^ 32)) by lia;
  repeat (case_match; zbool; try lia);
  repeat f_equal; byte_goal.

Lemma enc2 c0 c1 :
  0xC2 <= byte_of c0 <= 0xDF -> 0x80 <= byte_of c1 <= 0xBF ->
  encode_rune (Z.lor (Z.shiftl (Z.land (byte_of c0) mask2) 6) (Z.land (byte_of c1) maskx))
  = String c0 (String c1 EmptyString).
Proof.
  intros H0 H1.
  assert (Z.lor (Z.shiftl (Z.land (byte_of c0) mask2) 6) (Z.land (byte_of c1) maskx)
          = (byte_of c0 - 0xC0) * 64 + (byte_of c1 - 0x80)) as Hr by (bits_to_arith; arith).
  encode_branch Hr.
Qed.

Lemma enc3 c0 c1 c2 :
  0xE0 <= byte_of c0 <= 0xEF -> 0x80 <= byte_of c1 <= 0xBF -> 0x80 <= byte_of c2 <= 0xBF ->
  (byte_of c0 = 0xE0 -> 0xA0 <= byte_of c1) -> (byte_of c0 = 0xED -> byte_of c1 <= 0x9F) ->
  encode_rune (Z.lor (Z.lor (Z.shiftl (Z.land (byte_of c0) mask3) 12)
                            (Z.shiftl (Z.land (byte_of c1) maskx) 6))
                     (Z.land (byte_of c2) maskx))
  = String c0 (String c1 (String c2 EmptyString)).
Proof.
  intros H0 H1 H2 HE0 HED.
  assert (Z.lor (Z.lor (Z.shiftl (Z.land (byte_of c0) mask3) 12)
                       (Z.shiftl (Z.land (byte_of c1) maskx) 6))
                (Z.land (byte_of c2) maskx)
          = (byte_of c0 - 0xE0) * 4096 + (byte_of c1 - 0x80) * 64 + (byte_of c2 - 0x80))
    as Hr by (bits_to_arith; arith).
  assert (byte_of c0 = 0xE0 \/ byte_of c0 = 0xED \/
          (byte_of c0 <> 0xE0 /\ byte_of c0 <> 0xED)) as Hc by lia.
  destruct Hc as [Hc|[Hc|[Hc1 Hc2]]];
    [specialize (HE0 Hc) | specialize (HED Hc) | clear HE0 HED];
    encode_branch Hr.
Qed.

Lemma enc4 c0 c1 c2 c3 :
  0xF0 <= byte_of c0 <= 0xF4 -> 0x80 <= byte_of c1 <= 0xBF ->
  0x80 <= byte_of c2 <= 0xBF -> 0x80 <= byte_of c3 <= 0xBF ->
  (byte_of c0 = 0xF0 -> 0x90 <= byte_of c1) -> (byte_of c0 = 0xF4 -> byte_of c1 <= 0x8F) ->
  encode_rune (Z.lor (Z.lor (Z.lor (Z.shiftl (Z.land (byte_of c0) mask4) 18)
                                   (Z.shiftl (Z.land (byte_of c1) maskx) 12))
                            (Z.shiftl (Z.land (byte_of c2) maskx) 6))
                     (Z.land (byte_of c3) maskx))
  = String c0 (String c1 (String c2 (String c3 EmptyString))).
Proof.
  intros H0 H1 H2 H3 HF0 HF4.
  assert (Z.lor (Z.lor (Z.lor (Z.shiftl (Z.land (byte_of c0) mask4) 18)
                              (Z.shiftl (Z.land (byte_of c1) maskx) 12))
                       (Z.shiftl (Z.land (byte_of c2) maskx) 6))
                (Z.land (byte_of c3) maskx)
          = (byte_of c0 - 0xF0) * 262144 + (byte_of c1 - 0x80) * 4096
            + (byte_of c2 - 0x80) * 64 + (byte_of c3 - 0x80))
    as Hr by (bits_to_arith; arith).
  assert (byte_of c0 = 0xF0 \/ byte_of c0 = 0xF4 \/
          (byte_of c0 <> 0xF0 /\ byte_of c0 <> 0xF4)) as Hc by lia.
  destruct Hc as [Hc|[Hc|[Hc1 Hc2]]];
    [specialize (HF0 Hc) | specialize (HF4 Hc) | clear HF0 HF4];
    encode_branch Hr.
Qed.

Lemma decode_rune_ascii c0 :
  byte_of c0 < 0x80 -> encode_rune (byte_of c0) = String c0 EmptyString.
Proof.
  intros H. pose proof (byte_of_range c0). unfold encode_rune.
  rewrite Z.mod_small by lia. case_match; zbool; [|lia]. by rewrite byte_to_char_byte.
Qed.

Lemma decode_rune_encode_aux s r n :
  decode_rune s = (r, n) -> ~ (r = rune_error /\ n = 1%nat) -> s <> EmptyString ->
  String.length (encode_rune r) = n /\ s = (encode_rune r ++ sdrop n s)%string.
Proof.
  intros Hd Hne Hs. destruct s as [|c0 s1]; [done|].
  pose proof (byte_of_range c0).
  unfold decode_rune, first, out_of, rune_self, locb, hicb in Hd.
  repeat (case_match; simplify_eq/=; zbool; try lia;
          try (exfalso; apply Hne; split; reflexivity)).
  all: first [ rewrite decode_rune_ascii by lia | rewrite enc2 by lia
             | rewrite enc3 by lia | rewrite enc4 by lia ]; split; reflexivity.
Qed.

Lemma first_size b0 sz lo hi : first b0 = Some (sz, lo, hi) -> (2 <= sz <= 4)%nat.
Proof. unfold first. intros H. repeat case_match; simplify_eq; lia. Qed.

(** [String.append] does not unfold by [simpl] once stdpp is loaded. *)
Lemma sapp_cons c s t : (String c s ++ t)%string = String c (s ++ t)%string.
Proof. reflexivity. Qed.

Lemma sapp_nil_l s : (EmptyString ++ s)%string = s.
Proof. reflexivity. Qed.

Lemma sapp_assoc (a b c : string) : ((a ++ b) ++ c = a ++ (b ++ c))%string.
Proof. induction a; [reflexivity|]. rewrite !sapp_cons. congruence. Qed.

Lemma sapp_nil_r s : (s ++ EmptyString)%string = s.
Proof. induction s; [done|]. rewrite sapp_cons. congruence. Qed.

Lemma slength_app s t : String.length (s ++ t) = (String.length s + String.length t)%nat.
Proof. induction s; simpl; auto. Qed.

Lemma decode_rune_app s t r n :
  decode_rune s = (r, n) -> ~ (r = rune_error /\ n = 1%nat) -> s <> EmptyString ->
  decode_rune (stake n s ++ t)%string = (r, n).
Proof.
  intros Hd Hne Hs. destruct s as [|c0 s1]; [done|].
  unfold decode_rune in Hd.
  repeat match type of Hd with
  | context [match ?x with _ => _ end] => destruct x eqn:?; simpl in Hd
  end; simplify_eq; try (exfalso; apply Hne; split; reflexivity);
  simpl; unfold decode_rune; simpl;
  repeat (case_match; simplify_eq/=; try congruence);
    try reflexivity; exfalso;
    repeat match goal with
    | H : (_ <? _)%nat = true |- _ => apply Nat.ltb_lt in H
    | H : (_ <? _)%nat = false |- _ => apply Nat.ltb_ge in H
    | H : (_ <=? _)%nat = true |- _ => apply Nat.leb_le in H
    | H : (_ <=? _)%nat = false |- _ => apply Nat.leb_gt in H
    end; rewrite ?slength_app in *; simpl in *;
    match goal with H : first _ = Some _ |- _ => pose proof (first_size _ _ _ _ H) end; lia.
Qed.

Lemma sdrop_app s t : sdrop (String.length s) (s ++ t) = t.
Proof. induction s; simpl; auto. Qed.

Lemma stake_app s t : stake (String.length s) (s ++ t) = s.
Proof. induction s; simpl; congruence. Qed.

Lemma slength_sdrop n s : String.length (sdrop n s) = (String.length s - n)%nat.
Proof. revert s. induction n; intros [|c s]; simpl; auto with lia. Qed.

Lemma encode_rune_length r : (1 <= String.length (encode_rune r) <= 4)%nat.
Proof. unfold encode_rune, encode3. repeat case_match; simpl; lia. Qed.

(** The encoder hands [DecodeRuneInString] at most [UTFMax = 4] bytes;
    the decoder never looks further. *)
Lemma decode_rune_stake4 s : decode_rune (stake 4 s) = decode_rune s.
Proof.
  destruct s as [|c0 [|c1 [|c2 [|c3 s]]]]; try reflexivity.
  unfold decode_rune. cbn [stake String.length].
  destruct (first (byte_of c0)) as [[[sz lo] hi]|] eqn:Hf; [|reflexivity].
  apply first_size in Hf.
  rewrite (proj2 (Nat.ltb_ge 4 sz)), (proj2 (Nat.ltb_ge (S (S (S (S (String.length s))))) sz)) by lia.
  reflexivity.
Qed.

(** What a decoded rune covers: [RuneError] of size 1 on an invalid
    byte, otherwise a prefix of the input that re-encodes to the rune. *)
Lemma decode_rune_cases s r n :
  decode_rune s = (r, n) -> s <> EmptyString ->
  (r = rune_error /\ n = 1%nat) \/
  (~ (r = rune_error /\ n = 1%nat) /\ stake n s = encode_rune r /\
   s = (stake n s ++ sdrop n s)%string /\ (1 <= n <= String.length s)%nat).
Proof.
  intros Hd Hs.
  destruct (decide (r = rune_error /\ n = 1%nat)) as [He|He]; [by left|right].
  destruct (decode_rune_encode_aux s r n Hd He Hs) as [Hl Hs'].
  pose proof (encode_rune_length r).
  pose proof (f_equal String.length Hs') as HL. rewrite slength_app, Hl in HL.
  assert (stake n s = encode_rune r) as Ht by (rewrite Hs', <- Hl; apply stake_app).
  split_and!; [done|done|by rewrite Ht|lia|lia].
Qed.

Lemma decode_rune_size s r n :
  decode_rune s = (r, n) -> s <> EmptyString -> (1 <= n <= String.length s)%nat.
Proof.
  intros Hd Hs. destruct (decode_rune_cases s r n Hd Hs) as [[_ ->]|(_&_&_&?)]; [|done].
  destruct s; simpl; [done|lia].
Qed.

(** Every byte at or above [0x80]. *)
Fixpoint all_high (s : string) : bool :=
  match s with
  | EmptyString => true
  | String c rest => (0x80 <=? byte_of c) && all_high rest
  end.

(** A multi-byte sequence that decodes without error is made of bytes
    at or above [0x80]: the leading byte, then continuation bytes. *)
Lemma first_lo b0 sz lo hi : first b0 = Some (sz, lo, hi) -> 0x80 <= lo.
Proof. unfold first. intros H. repeat case_match; simplify_eq; lia. Qed.

Lemma decode_rune_high c0 s1 r n :
  0x80 <= byte_of c0 -> decode_rune (String c0 s1) = (r, n) ->
  ~ (r = rune_error /\ n = 1%nat) -> all_high (stake n (String c0 s1)) = true.
Proof.
  intros Hc Hd Hne. unfold decode_rune, out_of, rune_self, locb, hicb in Hd.
  repeat match type of Hd with
  | context [match ?x with _ => _ end] => destruct x eqn:?; simpl in Hd
  end; simplify_eq; try (exfalso; apply Hne; split; reflexivity);
  try match goal with H : first _ = Some _ |- _ => pose proof (first_lo _ _ _ _ H) end;
  simpl; zbool; try lia; rewrite ?andb_true_r;
  repeat (apply andb_true_iff; split); apply Z.leb_le; lia.
Qed.

End Utf8.
