(* ===== verification/Itoa.v ===== *)
(** * Go's [strconv.AppendInt] in base 10

    [encoding/json] writes the [Value int] of a [forecastValue] with
    [strconv.AppendInt(b, v, 10)].  This file models it as Go writes it:

    - [small]: the fast path for [0 <= i < 100], a slice of [smallsString];
    - [format_bits_loop]: [formatBits] on a 64-bit host, two digits per
      turn read out of [smallsString], then the last one or two;
    - [format_int]: the sign, the [uint64] negation [u = -u], the loop.

    The theorems show that the loop ends within ten turns on any [uint64]
    and that [ParseInt], as [GoStrconv] models it, reads the text back to
    the same [int64]. *)

From S2P Require Import Prelude GoStrconv Utf8.
Local Open Scope Z_scope.

Module Itoa.
Import Strconv Utf8.

(** [smallsString = "00010203...9899"]. *)
Definition smalls_string : string := "00010203040506070809101112131415161718192021222324252627282930313233343536373839404142434445464748495051525354555657585960616263646566676869707172737475767778798081828384858687888990919293949596979899".

Definition smalls (i : Z) : ascii :=
  match String.get (Z.to_nat i) smalls_string with Some c => c | None => "0"%char end.

(** [small(i)]: [digits[i:i+1]] below ten, else [smallsString[i*2:i*2+2]]. *)
Definition small (i : Z) : string :=
  if i <? 10 then String (smalls (i * 2 + 1)) EmptyString
  else String (smalls (i * 2)) (String (smalls (i * 2 + 1)) EmptyString).

(** The base-10 branch of [formatBits], writing [a] from the right:
    [acc] holds [a[i:]].  Each turn divides [us] by 100. *)
Fixpoint format_bits_loop (fuel : nat) (us : Z) (acc : string) : string :=
  match fuel with
  | O => acc
  | S f =>
      if 100 <=? us then
        let idx := us mod 100 * 2 in
        format_bits_loop f (us / 100) (String (smalls idx) (String (smalls (idx + 1)) acc))
      else
        let idx := us * 2 in
        let acc' := String (smalls (idx + 1)) acc in
        if 10 <=? us then String (smalls idx) acc' else acc'
  end.

(** [AppendInt(nil, i, 10)] for an [int64] [i]: the fast path, or
    [formatBits(uint64(i), neg = i < 0)] with [u = -u] on 64 bits. *)
Definition format_int (i : Z) : string :=
  if (0 <=? i) && (i <? 100) then small i
  else
    let neg := i <? 0 in
    let u := i mod 2 ^ 64 in
    let u := if neg then (- u) mod 2 ^ 64 else u in
    let ds := format_bits_loop 10 u EmptyString in
    if neg then String "-"%char ds else ds.

(** ** The digits written, and reading them back *)

Definition smalls_ok (k : Z) : bool :=
  (byte_of (smalls (k * 2)) =? 48 + k / 10) && (byte_of (smalls (k * 2 + 1)) =? 48 + k mod 10).

(** [smallsString[2k]] and [smallsString[2k+1]] are the two digits of [k]. *)
Lemma smalls_digits k :
  0 <= k < 100 ->
  byte_of (smalls (k * 2)) = 48 + k / 10 /\ byte_of (smalls (k * 2 + 1)) = 48 + k mod 10.
Proof.
  intros Hk.
  assert (forallb smalls_ok (map Z.of_nat (seq 0 100)) = true) as Hall by (vm_compute; reflexivity).
  rewrite forallb_forall in Hall.
  specialize (Hall k). unfold smalls_ok in Hall.
  rewrite andb_true_iff, !Z.eqb_eq in Hall. apply Hall.
  apply in_map_iff. exists (Z.to_nat k). split; [lia|]. apply in_seq. lia.
Qed.

Lemma is_digit_byte c : 48 <= byte_of c <= 57 -> is_digit c = true.
Proof. intros H. unfold is_digit. apply andb_true_iff. split; apply Z.leb_le; lia. Qed.

Lemma all_digits_app s t : all_digits (s ++ t) = all_digits s && all_digits t.
Proof. induction s as [|c s IH]; [done|]. rewrite sapp_cons. simpl. by rewrite IH, andb_assoc. Qed.

Lemma digits_value_from_app s t a :
  digits_value_from (s ++ t) a = digits_value_from t (digits_value_from s a).
Proof. revert a. induction s as [|c s IH]; intros a; [done|]. rewrite sapp_cons. apply IH. Qed.

(** The digit pair [smalls idx], [smalls (idx + 1)] of a [k < 100]. *)
Lemma smalls_pair k a :
  0 <= k < 100 ->
  all_digits (String (smalls (k * 2)) (String (smalls (k * 2 + 1)) EmptyString)) = true /\
  digits_value_from (String (smalls (k * 2)) (String (smalls (k * 2 + 1)) EmptyString)) a
  = a * 100 + k.
Proof.
  intros Hk. destruct (smalls_digits k Hk) as [H1 H2]. simpl.
  rewrite !is_digit_byte by (rewrite ?H1, ?H2; Z.to_euclidean_division_equations; lia).
  split; [done|]. rewrite H1, H2. Z.to_euclidean_division_equations. lia.
Qed.

Lemma format_bits_loop_S f us acc :
  format_bits_loop (S f) us acc =
  if 100 <=? us then
    format_bits_loop f (us / 100)
      (String (smalls (us mod 100 * 2)) (String (smalls (us mod 100 * 2 + 1)) acc))
  else
    let acc' := String (smalls (us * 2 + 1)) acc in
    if 10 <=? us then String (smalls (us * 2)) acc' else acc'.
Proof. reflexivity. Qed.

(** The first byte of a digit string is not ['0']. *)
Definition head_nonzero (d : string) : bool :=
  match d with String c _ => negb (byte_of c =? 48) | EmptyString => false end.

Lemma head_nonzero_app d e : d <> EmptyString -> head_nonzero (d ++ e) = head_nonzero d.
Proof. by destruct d. Qed.

(** The last one or two digits, once [us < 100]. *)
Lemma format_bits_last us acc :
  0 <= us < 100 ->
  exists d, (let acc' := String (smalls (us * 2 + 1)) acc in
             if 10 <=? us then String (smalls (us * 2)) acc' else acc') = (d ++ acc)%string /\
            d <> EmptyString /\ all_digits d = true /\ digits_value_from d 0 = us /\
            (1 <= us -> head_nonzero d = true).
Proof.
  intros Hus. destruct (smalls_digits us Hus) as [H1 H2]. cbv zeta.
  destruct (Z.leb_spec 10 us).
  - destruct (smalls_pair us 0) as [Hp1 Hp2]; [lia|].
    exists (String (smalls (us * 2)) (String (smalls (us * 2 + 1)) EmptyString)).
    split_and!; [done|done|done|rewrite Hp2; lia|]. intros _. simpl. rewrite H1.
    apply negb_true_iff, Z.eqb_neq. Z.to_euclidean_division_equations. lia.
  - exists (String (smalls (us * 2 + 1)) EmptyString). simpl.
    rewrite is_digit_byte by (rewrite H2; Z.to_euclidean_division_equations; lia).
    split_and!; [done|done|done| |].
    + rewrite H2. Z.to_euclidean_division_equations. lia.
    + intros ?. rewrite H2. apply negb_true_iff, Z.eqb_neq. Z.to_euclidean_division_equations. lia.
Qed.

(** Each turn of [formatBits] puts the digits of [us] in front of what is
    already written; [n + 1] turns suffice below [100 ^ (n + 1)], so ten
    turns suffice below [100 ^ 10 > 2 ^ 64]. *)
Lemma format_bits_loop_digits fuel : forall us acc,
  0 <= us < 100 ^ Z.of_nat (S fuel) ->
  exists d, format_bits_loop (S fuel) us acc = (d ++ acc)%string /\ d <> EmptyString /\
            all_digits d = true /\ digits_value_from d 0 = us /\
            (1 <= us -> head_nonzero d = true).
Proof.
  induction fuel as [|f IH]; intros us acc Hus.
  - rewrite format_bits_loop_S. simpl in Hus.
    rewrite (proj2 (Z.leb_gt 100 us)) by lia. apply format_bits_last. lia.
  - rewrite Nat2Z.inj_succ, Z.pow_succ_r in Hus by lia. rewrite format_bits_loop_S.
    destruct (Z.leb_spec 100 us); [|apply format_bits_last; lia].
    destruct (IH (us / 100) (String (smalls (us mod 100 * 2))
                 (String (smalls (us mod 100 * 2 + 1)) acc))) as (d & Hd & Hne & Hdig & Hval & Hhd).
    { split; [apply Z.div_pos; lia|]. apply Z.div_lt_upper_bound; [lia | apply Hus]. }
    destruct (smalls_pair (us mod 100) (us / 100)) as [Hp1 Hp2]; [apply Z.mod_pos_bound; lia|].
    exists (d ++ String (smalls (us mod 100 * 2)) (String (smalls (us mod 100 * 2 + 1)) EmptyString))%string.
    rewrite Hd, sapp_assoc. split_and!; [done| |by rewrite all_digits_app, Hdig, Hp1| |].
    + destruct d; [done|]. discriminate.
    + rewrite digits_value_from_app, Hval, Hp2. pose proof (Z.div_mod us 100). lia.
    + intros _. rewrite head_nonzero_app by done. apply Hhd.
      apply Z.div_le_lower_bound; lia.
Qed.

Lemma split_sign_digit c r : is_digit c = true -> split_sign (String c r) = (false, String c r).
Proof.
  intros H. unfold split_sign.
  case_bool_decide; [subst; vm_compute in H; discriminate|].
  case_bool_decide; [subst; vm_compute in H; discriminate|]. done.
Qed.

Lemma decimal_spec_digits d :
  d <> EmptyString -> all_digits d = true -> decimal_spec d = Some (digits_value_from d 0).
Proof.
  intros Hne Hd. destruct d as [|c r]; [done|]. unfold decimal_spec.
  simpl in Hd. apply andb_true_iff in Hd as [Hc Hr].
  rewrite split_sign_digit by done. simpl. by rewrite Hc, Hr.
Qed.

Lemma decimal_spec_neg d :
  d <> EmptyString -> all_digits d = true ->
  decimal_spec (String "-"%char d) = Some (- digits_value_from d 0).
Proof.
  intros Hne Hd. unfold decimal_spec. cbn [split_sign].
  rewrite bool_decide_eq_false_2 by done. rewrite bool_decide_eq_true_2 by done.
  rewrite Hd. destruct d; [done|]. reflexivity.
Qed.

(** What [format_int] writes: an optional minus sign and a canonical digit
    string of the magnitude. *)
Lemma format_int_shape z :
  in_int64 z ->
  exists d, d <> EmptyString /\ all_digits d = true /\
    (String.length d = 1%nat \/ head_nonzero d = true) /\
    format_int z = (if z <? 0 then String "-"%char d else d) /\
    digits_value_from d 0 = Z.abs z.
Proof.
  intros Hz. unfold in_int64, min_int64, max_int64 in Hz. unfold format_int.
  destruct ((0 <=? z) && (z <? 100)) eqn:Hs; zbool.
  { rewrite (proj2 (Z.ltb_ge z 0)) by lia. unfold small.
    destruct (Z.ltb_spec z 10).
    + destruct (format_bits_last z EmptyString ltac:(lia)) as (d & Hd & ? & ? & ? & ?).
      rewrite (proj2 (Z.leb_gt 10 z)) in Hd by lia. cbv zeta in Hd.
      rewrite sapp_nil_r in Hd. subst d.
      exists (String (smalls (z * 2 + 1)) EmptyString). split_and!; auto with lia.
    + destruct (format_bits_last z EmptyString ltac:(lia)) as (d & Hd & ? & ? & ? & Hh).
      rewrite (proj2 (Z.leb_le 10 z)) in Hd by lia. cbv zeta in Hd.
      rewrite sapp_nil_r in Hd. subst d.
      eexists. split_and!; [done|done|right; apply Hh; lia|done|]. rewrite Z.abs_eq by lia. done. }
  all: assert ((if z <? 0 then (- (z mod 2 ^ 64)) mod 2 ^ 64 else z mod 2 ^ 64) = Z.abs z)
      as Hu by (destruct (Z.ltb_spec z 0); [rewrite Z.abs_neq by lia | rewrite Z.abs_eq by lia];
                Z.to_euclidean_division_equations; lia).
  all: rewrite Hu.
  all: destruct (format_bits_loop_digits 9 (Z.abs z) EmptyString) as (d & Hd & ? & ? & Hv & Hh);
    [split; [lia|]; simpl; lia|].
  all: rewrite Hd, sapp_nil_r; exists d; split_and!; [done|done|right; apply Hh; lia|done|done].
Qed.

Lemma format_int_decimal z : in_int64 z -> decimal_spec (format_int z) = Some z.
Proof.
  intros Hz. destruct (format_int_shape z Hz) as (d & Hne & Hd & _ & -> & Hv).
  destruct (Z.ltb_spec z 0).
  - rewrite decimal_spec_neg, Hv by done. f_equal. lia.
  - rewrite decimal_spec_digits, Hv by done. f_equal. lia.
Qed.

(** [ParseInt] reads what [AppendInt] writes. *)
Lemma format_int_parse z : in_int64 z -> parse_int (format_int z) = (z, None).
Proof.
  intros Hz. rewrite <- atoi_parse_int_eq. apply atoi_success_iff.
  split; [by apply format_int_decimal | done].
Qed.

Lemma small_digits i : 0 <= i < 100 -> all_digits (small i) = true.
Proof.
  intros Hi.
  assert (forallb (fun k => all_digits (small (Z.of_nat k))) (seq 0 100) = true) as H
    by (vm_compute; reflexivity).
  rewrite forallb_forall in H. rewrite <- (Z2Nat.id i) by lia.
  apply H, in_seq. lia.
Qed.

(** Whatever its range, [format_int] writes digits after an optional minus
    sign: the 64-bit wrap-around only changes which digits. *)
Lemma format_int_chars z :
  exists d, all_digits d = true /\ format_int z = (if z <? 0 then String "-"%char d else d).
Proof.
  unfold format_int. destruct ((0 <=? z) && (z <? 100)) eqn:Hs.
  { zbool. exists (small z). rewrite (proj2 (Z.ltb_ge z 0)) by lia. split; [|done].
    apply small_digits. lia. }
  cbv zeta. destruct (z <? 0).
  all: match goal with |- context [format_bits_loop 10 ?u EmptyString] =>
         destruct (format_bits_loop_digits 9 u EmptyString) as (d & Hd & _ & Hdig & _);
         [assert (0 <= u < 2 ^ 64) by (apply Z.mod_pos_bound; lia); simpl; lia|]
       end.
  all: rewrite Hd, sapp_nil_r; eauto.
Qed.

(** ** A reference printer: one decimal digit at a time *)

Definition digit (d : Z) : ascii := byte_to_char (48 + d).

(** The digits of [n] in front of [acc], the last digit first written,
    one division by ten per turn. *)
Fixpoint ndigits (fuel : nat) (n : Z) (acc : string) : string :=
  match fuel with
  | O => acc
  | S f =>
      let acc' := String (digit (n mod 10)) acc in
      if n <? 10 then acc' else ndigits f (n / 10) acc'
  end.

(** The decimal text of an integer: a minus sign, then the digits of its
    magnitude; twenty digits cover every [int64]. *)
Definition dec_string (z : Z) : string :=
  if z <? 0 then String "-"%char (ndigits 20 (- z) EmptyString) else ndigits 20 z EmptyString.

Lemma smalls_digit k :
  0 <= k < 100 -> smalls (k * 2) = digit (k / 10) /\ smalls (k * 2 + 1) = digit (k mod 10).
Proof.
  intros Hk. destruct (smalls_digits k Hk) as [H1 H2]. unfold digit.
  split; symmetry; apply byte_to_char_eq; lia.
Qed.

(** The last turn of [formatBits], below 100, writes what two turns of
    the reference write. *)
Lemma format_bits_last_ndigits us acc g :
  0 <= us < 100 -> (2 <= g)%nat ->
  (let acc' := String (smalls (us * 2 + 1)) acc in
   if 10 <=? us then String (smalls (us * 2)) acc' else acc') = ndigits g us acc.
Proof.
  intros Hus Hg. destruct g as [|[|g]]; [lia|lia|]. cbv zeta. cbn [ndigits].
  destruct (smalls_digit us Hus) as [H1 H2]. rewrite H2.
  destruct (Z.leb_spec 10 us).
  - rewrite (proj2 (Z.ltb_ge us 10)) by lia. cbn [ndigits].
    rewrite (proj2 (Z.ltb_lt (us / 10) 10)) by (apply Z.div_lt_upper_bound; lia).
    rewrite (Z.mod_small (us / 10) 10) by (split; [apply Z.div_pos|apply Z.div_lt_upper_bound]; lia).
    by rewrite H1.
  - by rewrite (proj2 (Z.ltb_lt us 10)) by lia.
Qed.

(** [formatBits] equals the reference on every [us] below [100 ^ (f+1)],
    given twice as many turns. *)
Lemma format_bits_ndigits f : forall us acc g,
  0 <= us < 100 ^ Z.of_nat (S f) -> (2 * f + 2 <= g)%nat ->
  format_bits_loop (S f) us acc = ndigits g us acc.
Proof.
  induction f as [|f IH]; intros us acc g Hus Hg.
  - rewrite format_bits_loop_S. simpl in Hus.
    rewrite (proj2 (Z.leb_gt 100 us)) by lia. apply format_bits_last_ndigits; lia.
  - rewrite format_bits_loop_S. destruct (Z.leb_spec 100 us) as [Hbig|Hsmall];
      [|apply format_bits_last_ndigits; lia].
    rewrite Nat2Z.inj_succ, Z.pow_succ_r in Hus by lia.
    destruct g as [|[|g]]; [lia|lia|]. cbn [ndigits].
    rewrite (proj2 (Z.ltb_ge us 10)) by lia.
    rewrite (proj2 (Z.ltb_ge (us / 10) 10)) by (apply Z.div_le_lower_bound; lia).
    destruct (smalls_digit (us mod 100)) as [H1 H2]; [apply Z.mod_pos_bound; lia|].
    rewrite H1, H2, (IH (us / 100) _ g); [| |lia].
    + assert (E1 : us / 10 / 10 = us / 100) by (rewrite Z.div_div by lia; reflexivity).
      assert (E2 : us mod 100 / 10 = us / 10 mod 10) by (Z.to_euclidean_division_equations; lia).
      assert (E3 : us mod 100 mod 10 = us mod 10) by (Z.to_euclidean_division_equations; lia).
      by rewrite E1, E2, E3.
    + split; [apply Z.div_pos; lia|]. apply Z.div_lt_upper_bound; [lia|apply Hus].
Qed.

Lemma small_format_bits i : 0 <= i < 100 -> small i = format_bits_loop 1 i EmptyString.
Proof.
  intros Hi. rewrite format_bits_loop_S. unfold small.
  rewrite (proj2 (Z.leb_gt 100 i)) by lia.
  destruct (Z.ltb_spec i 10); [rewrite (proj2 (Z.leb_gt 10 i))|rewrite (proj2 (Z.leb_le 10 i))]; auto with lia.
Qed.

(** [AppendInt] writes, for every [int64], the text of the reference. *)
Lemma format_int_dec z : in_int64 z -> format_int z = dec_string z.
Proof.
  intros Hz. unfold in_int64, min_int64, max_int64 in Hz. unfold format_int, dec_string.
  destruct ((0 <=? z) && (z <? 100)) eqn:Hs; zbool.
  { rewrite (proj2 (Z.ltb_ge z 0)) by lia. rewrite small_format_bits by lia.
    apply (format_bits_ndigits 0); simpl; lia. }
  all: cbv zeta; assert ((if z <? 0 then (- (z mod 2 ^ 64)) mod 2 ^ 64 else z mod 2 ^ 64) = Z.abs z)
      as Hu by (destruct (Z.ltb_spec z 0); [rewrite Z.abs_neq by lia | rewrite Z.abs_eq by lia];
                Z.to_euclidean_division_equations; lia).
  all: rewrite Hu, (format_bits_ndigits 9 _ _ 20) by (simpl; lia).
  all: destruct (Z.ltb_spec z 0); [rewrite Z.abs_neq by lia|rewrite Z.abs_eq by lia]; done.
Qed.

End Itoa.
