(* ===== verification/Timefmt.v ===== *)
(** * The text of [X-Cache-Timestamp]: Go's [time.Time.Format]

    part_000 stamps the cache with [time.Now().UTC()] (line 180) and its
    [GET /api] handler sends [cacheTimestamp.Format(time.RFC3339)] (line
    70); its [GET /] handler hands [cacheTimestamp.Format("15:04:05")] to
    the template (line 57).  This file models what those calls write for a
    UTC time, as Go's [time] package computes it:

    - a [time.Time] in UTC at second precision, as its Unix seconds ([Z]);
      the zero [time.Time] is [zero_time], 0001-01-01T00:00:00Z;
    - [append_int]: the [time] package's own [appendInt(b, x, width)],
      with its fast paths for two- and four-digit fields and its zero
      padding;
    - [abs_clock]: [absClock], the hour, minute and second of the day;
    - [civil_from_days]: the proleptic Gregorian date of a day number, in
      400-year cycles of 146097 days counted from a March 1st, as
      [absDate] counts them;
    - [format_rfc3339]: [appendFormatRFC3339] without nanoseconds at
      offset zero, and [format_clock] for the layout ["15:04:05"];
    - [parse_rfc3339]: a reader of the text it writes (RFC 3339 section
      5.6 at second precision in UTC), as a client reads the header.

    The theorems show that the calendar and the day count are inverse
    bijections between day numbers and valid dates (each checked on one
    400-year cycle by a table evaluated once, then lifted by the era
    arithmetic), that the year never decreases, which years have four
    digits, and that the reader accepts exactly the texts the formatter
    writes for those years and gives back their time. *)

From S2P Require Import Prelude GoStrconv Utf8 Itoa.
Local Open Scope Z_scope.

Module Timefmt.
Import Strconv Utf8 Itoa.

(** ** Go's [time] package *)

Definition seconds_per_minute : Z := 60.
Definition seconds_per_hour : Z := 3600.
Definition seconds_per_day : Z := 86400.

(** [time.Time{}]: January 1 of year 1, 00:00:00 UTC, in Unix seconds
    ([-unixToInternal]). *)
Definition zero_time : Z := -62135596800.

(** [appendInt(b, x, width)] of [time/format.go]: the sign, then for a
    two- or four-digit field below its width the digits written one by
    one ([utod]), else the digits of [u] padded with ['0'] to [width]. *)
Definition utod (u : Z) : ascii := digit u.

Definition append_int (x : Z) (width : nat) : string :=
  let sign := if x <? 0 then String "-"%char EmptyString else EmptyString in
  let u := Z.abs x in
  sign ++
  (if (width =? 2)%nat && (u <? 100) then
     String (utod (u / 10)) (String (utod (u mod 10)) EmptyString)
   else if (width =? 4)%nat && (u <? 10000) then
     String (utod (u / 1000)) (String (utod (u / 100 mod 10))
       (String (utod (u / 10 mod 10)) (String (utod (u mod 10)) EmptyString)))
   else
     let digits := ndigits 20 u EmptyString in
     String.append (String.concat "" (repeat "0" (width - String.length digits))) digits).

(** [absClock]: the second of the day split into hour, minute, second. *)
Definition abs_clock (t : Z) : Z * Z * Z :=
  let sec := t mod seconds_per_day in
  let hour := sec / seconds_per_hour in
  let sec := sec - hour * seconds_per_hour in
  let min := sec / seconds_per_minute in
  (hour, min, sec - min * seconds_per_minute).

(** The year of era, month and day of a day of a 400-year era counted
    from March 1st (years start in March, so February is last and the
    leap day falls at the end of a year). *)
Definition civil_of_doe (doe : Z) : Z * Z * Z :=
  let yoe := (doe - doe / 1460 + doe / 36524 - doe / 146096) / 365 in
  let doy := doe - (365 * yoe + yoe / 4 - yoe / 100) in
  let mp := (5 * doy + 2) / 153 in
  let d := doy - (153 * mp + 2) / 5 + 1 in
  let m := if mp <? 10 then mp + 3 else mp - 9 in
  (yoe, m, d).

(** [absDate]: the civil date of a day number (days since 1970-01-01). *)
Definition civil_from_days (z : Z) : Z * Z * Z :=
  let z' := z + 719468 in
  let era := z' / 146097 in
  let '(yoe, m, d) := civil_of_doe (z' mod 146097) in
  (yoe + era * 400 + (if m <=? 2 then 1 else 0), m, d).

(** [t.Date()] and [t.Year()] of a UTC time. *)
Definition date (t : Z) : Z * Z * Z := civil_from_days (t / seconds_per_day).
Definition year (t : Z) : Z := (date t).1.1.

(** [appendFormatRFC3339(b, false)] at offset zero:
    [2006-01-02T15:04:05Z]. *)
Definition format_rfc3339 (t : Z) : string :=
  let '(y, mo, d) := date t in
  let '(h, mi, s) := abs_clock t in
  append_int y 4 ++ "-" ++ append_int mo 2 ++ "-" ++ append_int d 2 ++ "T"
  ++ append_int h 2 ++ ":" ++ append_int mi 2 ++ ":" ++ append_int s 2 ++ "Z".

(** [Format("15:04:05")]: [stdHour], [std0Minute], [std0Second] with the
    literal colons between them. *)
Definition format_clock (t : Z) : string :=
  let '(h, mi, s) := abs_clock t in
  append_int h 2 ++ ":" ++ append_int mi 2 ++ ":" ++ append_int s 2.

(** ** Reading the text back *)

(** The day number of a civil date: the inverse count, by era. *)
Definition days_of_yoe (yoe m d : Z) : Z :=
  let mp := if 2 <? m then m - 3 else m + 9 in
  yoe * 365 + yoe / 4 - yoe / 100 + (153 * mp + 2) / 5 + d - 1.

Definition days_from_civil (y m d : Z) : Z :=
  let y' := if m <=? 2 then y - 1 else y in
  y' / 400 * 146097 + days_of_yoe (y' mod 400) m d - 719468.

Definition is_leap (y : Z) : bool :=
  (y mod 4 =? 0) && (negb (y mod 100 =? 0) || (y mod 400 =? 0)).

(** [daysIn(month, year)]. *)
Definition days_in (m y : Z) : Z :=
  if m =? 2 then (if is_leap y then 29 else 28)
  else if (m =? 4) || (m =? 6) || (m =? 9) || (m =? 11) then 30 else 31.

Definition valid_date (y m d : Z) : bool :=
  (1 <=? m) && (m <=? 12) && (1 <=? d) && (d <=? days_in m y).

Definition digit_value (c : ascii) : option Z :=
  if is_digit c then Some (byte_of c - 48) else None.

(** A run of decimal digits, most significant first. *)
Fixpoint digits_value (cs : list ascii) (acc : Z) : option Z :=
  match cs with
  | [] => Some acc
  | c :: cs' => d ← digit_value c; digits_value cs' (acc * 10 + d)
  end.

Definition unix_of (y mo d h mi s : Z) : Z :=
  days_from_civil y mo d * seconds_per_day + h * seconds_per_hour + mi * seconds_per_minute + s.

(** [YYYY-MM-DDTHH:MM:SSZ] with a valid date and clock. *)
Definition parse_rfc3339 (str : string) : option Z :=
  match str with
  | String y1 (String y2 (String y3 (String y4 (String c5 (String m1 (String m2 (String c8
    (String d1 (String d2 (String c11 (String h1 (String h2 (String c14 (String i1 (String i2
    (String c17 (String s1 (String s2 (String c20 EmptyString))))))))))))))))))) =>
      if forallb (fun '(c, e) => Ascii.eqb c e)
           [(c5, "-"%char); (c8, "-"%char); (c11, "T"%char); (c14, ":"%char);
            (c17, ":"%char); (c20, "Z"%char)]
      then
        y ← digits_value [y1; y2; y3; y4] 0; mo ← digits_value [m1; m2] 0;
        d ← digits_value [d1; d2] 0; h ← digits_value [h1; h2] 0;
        mi ← digits_value [i1; i2] 0; s ← digits_value [s1; s2] 0;
        if valid_date y mo d && (h <? 24) && (mi <? 60) && (s <? 60)
        then Some (unix_of y mo d h mi s) else None
      else None
  | _ => None
  end.

(** ** A bounded check evaluated once *)

Fixpoint check_from (P : Z -> bool) (n : nat) (z : Z) : bool :=
  match n with O => true | S n' => P z && check_from P n' (z + 1) end.

Lemma check_from_spec P n : forall z k,
  check_from P n z = true -> z <= k < z + Z.of_nat n -> P k = true.
Proof.
  induction n as [|n IH]; intros z k H Hk; [lia|]. simpl in H. apply andb_true_iff in H as [H1 H2].
  destruct (Z.eq_dec k z) as [->|]; [done|]. apply (IH (z + 1)); [done|lia].
Qed.

(** ** The calendar *)

(** One day of the 400-year cycle, checked: its year of era lies in the
    era, its date is valid and the day count inverts it.  The result is
    its civil year (before the era's first year is added). *)
Definition doe_check (doe : Z) : option Z :=
  let '(yoe, m, d) := civil_of_doe doe in
  let y := yoe + (if m <=? 2 then 1 else 0) in
  if (0 <=? yoe) && (yoe <? 400) && valid_date y m d && (days_of_yoe yoe m d =? doe)
  then Some y else None.

(** [n] consecutive days checked, their years never decreasing. *)
Fixpoint check_cycle (n : nat) (doe prev : Z) : bool :=
  match n with
  | O => true
  | S n' =>
      match doe_check doe with
      | Some y => (prev <=? y) && check_cycle n' (doe + 1) y
      | None => false
      end
  end.

Lemma check_cycle_spec n : forall doe prev,
  check_cycle n doe prev = true ->
  forall k, doe <= k < doe + Z.of_nat n ->
  exists y, doe_check k = Some y /\ (k = doe -> prev <= y) /\
    (k + 1 < doe + Z.of_nat n -> exists y', doe_check (k + 1) = Some y' /\ y <= y').
Proof.
  induction n as [|n IH]; intros doe prev H k Hk; [lia|]. simpl in H.
  destruct (doe_check doe) as [y|] eqn:Hy; [|done]. apply andb_true_iff in H as [Hp H]. zbool.
  destruct (Z.eq_dec k doe) as [->|Hne].
  - exists y. split_and!; [done|done|]. intros Hn.
    destruct (IH _ _ H (doe + 1)) as (y' & Hy' & Hle & _); [lia|]. eauto with lia.
  - destruct (IH _ _ H k) as (y' & Hy' & _ & Hnext); [lia|]. exists y'.
    split_and!; [done|lia|]. intros Hn. apply Hnext. lia.
Qed.

Lemma cycle_table : check_cycle (Z.to_nat 146097) 0 0 = true.
Proof. vm_compute. reflexivity. Qed.

(** The civil year of a day of the cycle. *)
Definition doe_year (doe : Z) : Z :=
  let '(yoe, m, _) := civil_of_doe doe in yoe + (if m <=? 2 then 1 else 0).

Lemma doe_check_Some doe y : doe_check doe = Some y ->
  let '(yoe, m, d) := civil_of_doe doe in
  0 <= yoe < 400 /\ valid_date (doe_year doe) m d = true /\ days_of_yoe yoe m d = doe /\
  y = doe_year doe.
Proof.
  unfold doe_check, doe_year. destruct (civil_of_doe doe) as [[yoe m] d].
  case_match; [|done]. intros [= <-]. repeat rewrite andb_true_iff in *. destruct_and!. zbool.
  split_and!; auto with lia.
Qed.

(** Every day of the cycle, with what the table shows of it. *)
Lemma civil_of_doe_spec doe :
  0 <= doe < 146097 ->
  let '(yoe, m, d) := civil_of_doe doe in
  0 <= yoe < 400 /\ valid_date (doe_year doe) m d = true /\ days_of_yoe yoe m d = doe.
Proof.
  intros H. destruct (check_cycle_spec _ _ _ cycle_table doe) as (y & Hy & _); [simpl; lia|].
  apply doe_check_Some in Hy. destruct (civil_of_doe doe) as [[yoe m] d]. naive_solver.
Qed.

Lemma doe_year_mono doe : 0 <= doe < 146096 -> doe_year doe <= doe_year (doe + 1).
Proof.
  intros H. destruct (check_cycle_spec _ _ _ cycle_table doe) as (y & Hy & _ & Hn); [simpl; lia|].
  destruct Hn as (y' & Hy' & Hle); [simpl; lia|].
  apply doe_check_Some in Hy, Hy'. destruct (civil_of_doe doe) as [[? ?] ?].
  destruct (civil_of_doe (doe + 1)) as [[? ?] ?]. naive_solver lia.
Qed.

Lemma is_leap_era y k : is_leap (y + k * 400) = is_leap y.
Proof.
  unfold is_leap.
  replace (y + k * 400) with (y + k * 100 * 4) by ring. rewrite Z.mod_add by lia.
  replace (y + k * 100 * 4) with (y + k * 4 * 100) by ring. rewrite Z.mod_add by lia.
  replace (y + k * 4 * 100) with (y + k * 400) by ring. by rewrite Z.mod_add by lia.
Qed.

Lemma valid_date_era y k m d : valid_date (y + k * 400) m d = valid_date y m d.
Proof. unfold valid_date, days_in. by rewrite is_leap_era. Qed.

(** A day number split into its era and its day of era. *)
Lemma civil_from_days_eq z era doe :
  0 <= doe < 146097 -> z + 719468 = era * 146097 + doe ->
  civil_from_days z =
    let '(yoe, m, d) := civil_of_doe doe in (yoe + era * 400 + (if m <=? 2 then 1 else 0), m, d).
Proof.
  intros Hd Hz. unfold civil_from_days.
  rewrite <- (Z.div_unique (z + 719468) 146097 era doe), <- (Z.mod_unique (z + 719468) 146097 era doe)
    by lia.
  reflexivity.
Qed.

Lemma era_split z : 0 <= (z + 719468) mod 146097 < 146097 /\
  z + 719468 = (z + 719468) / 146097 * 146097 + (z + 719468) mod 146097.
Proof. split; [apply Z.mod_pos_bound; lia|]. rewrite Z.mul_comm. apply Z.div_mod. lia. Qed.

Lemma div_mod_400 yoe era : 0 <= yoe < 400 -> (yoe + era * 400) / 400 = era /\ (yoe + era * 400) mod 400 = yoe.
Proof.
  intros H. rewrite Z.div_add, Z.mod_add, Z.div_small, Z.mod_small by lia. split; reflexivity.
Qed.

(** The day count inverts the calendar. *)
Lemma days_from_civil_from_days z :
  let '(y, m, d) := civil_from_days z in days_from_civil y m d = z.
Proof.
  destruct (era_split z) as [Hd Hz]. rewrite (civil_from_days_eq z _ _ Hd Hz).
  pose proof (civil_of_doe_spec _ Hd) as Hs. destruct (civil_of_doe _) as [[yoe m] d].
  destruct Hs as (Hy & _ & Hdoe). unfold days_from_civil.
  replace (if m <=? 2 then yoe + _ * 400 + (if m <=? 2 then 1 else 0) - 1
           else yoe + _ * 400 + (if m <=? 2 then 1 else 0))
    with (yoe + (z + 719468) / 146097 * 400) by (destruct (m <=? 2); lia).
  destruct (div_mod_400 yoe ((z + 719468) / 146097) Hy) as [-> ->]. lia.
Qed.

(** Every date the calendar yields is valid. *)
Lemma civil_from_days_valid z :
  let '(y, m, d) := civil_from_days z in valid_date y m d = true.
Proof.
  destruct (era_split z) as [Hd Hz]. rewrite (civil_from_days_eq z _ _ Hd Hz).
  pose proof (civil_of_doe_spec _ Hd) as Hs. unfold doe_year in Hs.
  destruct (civil_of_doe _) as [[yoe m] d]. destruct Hs as (_ & Hv & _).
  replace (yoe + _ * 400 + _) with (yoe + (if m <=? 2 then 1 else 0) + (z + 719468) / 146097 * 400)
    by ring.
  by rewrite valid_date_era.
Qed.

Definition year_of_days (z : Z) : Z := (civil_from_days z).1.1.

Lemma year_of_days_eq z era doe :
  0 <= doe < 146097 -> z + 719468 = era * 146097 + doe -> year_of_days z = doe_year doe + era * 400.
Proof.
  intros Hd Hz. unfold year_of_days. rewrite (civil_from_days_eq z _ _ Hd Hz).
  unfold doe_year. destruct (civil_of_doe doe) as [[yoe m] d]. simpl. ring.
Qed.

Lemma year_of_days_succ z : year_of_days z <= year_of_days (z + 1).
Proof.
  destruct (era_split z) as [Hd Hz]. rewrite (year_of_days_eq z _ _ Hd Hz).
  set (era := (z + 719468) / 146097) in *. set (doe := (z + 719468) mod 146097) in *.
  destruct (Z.eq_dec doe 146096) as [He|Hne].
  - rewrite (year_of_days_eq (z + 1) (era + 1) 0) by lia. rewrite He.
    assert (doe_year 146096 = 400 /\ doe_year 0 = 0) as [-> ->] by (split; vm_compute; reflexivity). lia.
  - rewrite (year_of_days_eq (z + 1) era (doe + 1)) by lia. pose proof (doe_year_mono doe). lia.
Qed.

(** The year never decreases. *)
Lemma year_of_days_mono z z' : z <= z' -> year_of_days z <= year_of_days z'.
Proof.
  intros H. assert (Hk : 0 <= z' - z) by lia. replace z' with (z + (z' - z)) by ring.
  revert Hk. generalize (z' - z). clear. apply natlike_ind; [rewrite Z.add_0_r; lia|].
  intros k Hk IH. pose proof (year_of_days_succ (z + k)). rewrite Z.add_succ_r. unfold Z.succ. lia.
Qed.

(** ** Every valid date is reached *)

(** A date of the cycle (year of era counted from March), checked: its
    day count lies in the cycle and the calendar gives it back. *)
Definition date_ok (yoe m d : Z) : bool :=
  let doe := days_of_yoe yoe m d in
  (0 <=? doe) && (doe <? 146097) &&
  (let '(y', m', d') := civil_of_doe doe in (y' =? yoe) && (m' =? m) && (d' =? d)).

(** The civil year of a date of the cycle: January and February belong
    to the next one. *)
Definition era_year (yoe m : Z) : Z := yoe + (if m <=? 2 then 1 else 0).

(** The valid dates of a year of the cycle, month by month. *)
Definition year_ok (yoe : Z) : bool :=
  check_from (fun m => check_from (date_ok yoe m) (Z.to_nat (days_in m (era_year yoe m))) 1) 12 1.

Lemma dates_table : check_from year_ok 400 0 = true.
Proof. vm_compute. reflexivity. Qed.

Lemma date_ok_valid yoe m d :
  0 <= yoe < 400 -> valid_date (era_year yoe m) m d = true ->
  0 <= days_of_yoe yoe m d < 146097 /\ civil_of_doe (days_of_yoe yoe m d) = (yoe, m, d).
Proof.
  intros Hy Hv. unfold valid_date in Hv. repeat rewrite andb_true_iff in Hv. destruct_and!. zbool.
  pose proof (check_from_spec _ _ _ yoe dates_table) as Hyr. unfold year_ok in Hyr.
  pose proof (check_from_spec _ _ _ m (Hyr ltac:(simpl; lia))) as Hm.
  pose proof (check_from_spec _ _ _ d (Hm ltac:(simpl; lia))) as Hd.
  unfold date_ok in Hd. destruct (civil_of_doe _) as [[y' m'] d'].
  specialize (Hd ltac:(rewrite Z2Nat.id by (unfold days_in; repeat case_match; lia); lia)).
  repeat rewrite andb_true_iff in Hd. destruct_and!. zbool. subst. split; [lia|reflexivity].
Qed.

(** The calendar inverts the day count on valid dates. *)
Lemma civil_from_days_from_civil y m d :
  valid_date y m d = true -> civil_from_days (days_from_civil y m d) = (y, m, d).
Proof.
  intros Hv. unfold days_from_civil.
  set (y' := if m <=? 2 then y - 1 else y).
  assert (Hy : y = era_year (y' mod 400) m + y' / 400 * 400).
  { unfold era_year, y'. pose proof (Z.div_mod (if m <=? 2 then y - 1 else y) 400).
    destruct (m <=? 2); lia. }
  rewrite Hy, valid_date_era in Hv.
  destruct (date_ok_valid (y' mod 400) m d) as [Hr Hc]; [apply Z.mod_pos_bound; lia|done|].
  rewrite (civil_from_days_eq _ (y' / 400) (days_of_yoe (y' mod 400) m d)) by (done || lia).
  rewrite Hc. f_equal. f_equal. rewrite Hy. unfold era_year. lia.
Qed.

(** ** The clock and the digit fields *)

Lemma abs_clock_spec t :
  let '(h, mi, s) := abs_clock t in
  0 <= h < 24 /\ 0 <= mi < 60 /\ 0 <= s < 60 /\
  t = t / seconds_per_day * seconds_per_day + (h * seconds_per_hour + mi * seconds_per_minute + s).
Proof.
  unfold abs_clock, seconds_per_day, seconds_per_hour, seconds_per_minute.
  Z.to_euclidean_division_equations. lia.
Qed.

Lemma append_int_2 u : 0 <= u < 100 ->
  append_int u 2 = String (utod (u / 10)) (String (utod (u mod 10)) EmptyString).
Proof.
  intros H. unfold append_int. rewrite (proj2 (Z.ltb_ge u 0)), Z.abs_eq, (proj2 (Z.ltb_lt u 100)) by lia.
  reflexivity.
Qed.

Lemma append_int_4 y : 0 <= y < 10000 ->
  append_int y 4 = String (utod (y / 1000)) (String (utod (y / 100 mod 10))
                     (String (utod (y / 10 mod 10)) (String (utod (y mod 10)) EmptyString))).
Proof.
  intros H. unfold append_int. rewrite (proj2 (Z.ltb_ge y 0)), Z.abs_eq, (proj2 (Z.ltb_lt y 10000)) by lia.
  reflexivity.
Qed.

Lemma digit_value_utod k : 0 <= k < 10 -> digit_value (utod k) = Some k.
Proof.
  intros H. assert (k = 0 \/ k = 1 \/ k = 2 \/ k = 3 \/ k = 4 \/ k = 5 \/ k = 6 \/ k = 7 \/ k = 8 \/ k = 9)
    as Hk by lia.
  repeat destruct Hk as [->|Hk]; try reflexivity. subst. reflexivity.
Qed.

Lemma read_2 u : 0 <= u < 100 -> digits_value [utod (u / 10); utod (u mod 10)] 0 = Some u.
Proof.
  intros H. cbn [digits_value].
  rewrite !digit_value_utod by (Z.to_euclidean_division_equations; lia).
  cbn [mbind option_bind]. f_equal. Z.to_euclidean_division_equations. lia.
Qed.

Lemma read_4 y : 0 <= y < 10000 ->
  digits_value [utod (y / 1000); utod (y / 100 mod 10); utod (y / 10 mod 10); utod (y mod 10)] 0 = Some y.
Proof.
  intros H. cbn [digits_value].
  rewrite !digit_value_utod by (Z.to_euclidean_division_equations; lia).
  cbn [mbind option_bind]. f_equal. Z.to_euclidean_division_equations. lia.
Qed.

Lemma valid_date_bounds y m d : valid_date y m d = true -> 1 <= m <= 12 /\ 1 <= d <= 31.
Proof.
  unfold valid_date, days_in. intros H. repeat rewrite andb_true_iff in H. destruct_and!. zbool.
  repeat case_match; zbool; lia.
Qed.

(** ** The header text *)

(** The round trip of the header text: what [Format(time.RFC3339)]
    writes for a UTC time whose year has four digits is read back as that
    time. *)
Lemma parse_format_rfc3339 t :
  0 <= year t <= 9999 -> parse_rfc3339 (format_rfc3339 t) = Some t.
Proof.
  unfold year, format_rfc3339. pose proof (days_from_civil_from_days (t / seconds_per_day)) as Hdc.
  pose proof (civil_from_days_valid (t / seconds_per_day)) as Hv. fold (date t) in Hdc, Hv.
  pose proof (abs_clock_spec t) as Hc.
  destruct (date t) as [[y mo] d], (abs_clock t) as [[h mi] s]. cbn [fst snd]. intros Hy.
  destruct Hc as (Hh & Hmi & Hs & Ht). pose proof (valid_date_bounds _ _ _ Hv) as [Hmo Hd].
  rewrite append_int_4, !append_int_2 by lia. cbv [String.append]. unfold parse_rfc3339.
  cbn [forallb Ascii.eqb Bool.eqb andb]. rewrite read_4, !read_2 by lia. cbn [mbind option_bind].
  rewrite Hv, (proj2 (Z.ltb_lt h 24)), (proj2 (Z.ltb_lt mi 60)), (proj2 (Z.ltb_lt s 60)) by lia.
  simpl. f_equal. unfold unix_of. rewrite Hdc. lia.
Qed.

(** The days of the first and last instants with a four-digit year. *)
Lemma year_of_days_edges :
  year_of_days (-719163) = 0 /\ year_of_days (-719162) = 1 /\
  year_of_days 2932896 = 9999 /\ year_of_days 2932897 = 10000.
Proof. vm_compute. repeat split. Qed.

(** C16. The times whose year lies in [1 .. 9999] are exactly those
    from the zero [time.Time] up to the end of 9999-12-31. *)
Lemma year_range t : zero_time <= t < 253402300800 <-> 1 <= year t <= 9999.
Proof.
  unfold year, date, seconds_per_day, zero_time. fold (year_of_days (t / 86400)).
  destruct year_of_days_edges as (E0 & E1 & E2 & E3). split.
  - intros Ht. split.
    + rewrite <- E1. apply year_of_days_mono. apply Z.div_le_lower_bound; lia.
    + rewrite <- E2. apply year_of_days_mono.
      assert (t / 86400 < 2932897) by (apply Z.div_lt_upper_bound; lia). lia.
  - intros Hy. split.
    + destruct (Z.lt_ge_cases t (-62135596800)) as [Hlt|]; [|done].
      assert (year_of_days (t / 86400) <= 0); [|lia].
      rewrite <- E0. apply year_of_days_mono.
      assert (t / 86400 < -719162) by (apply Z.div_lt_upper_bound; lia). lia.
    + destruct (Z.lt_ge_cases t 253402300800) as [|Hge]; [done|].
      assert (10000 <= year_of_days (t / 86400)); [|lia].
      rewrite <- E3. apply year_of_days_mono. apply Z.div_le_lower_bound; lia.
Qed.

(** ** The reader accepts only what the formatter writes *)

Lemma digit_value_Some c k : digit_value c = Some k -> 0 <= k < 10 /\ utod k = c.
Proof.
  unfold digit_value. destruct (is_digit c) eqn:E; [|done]. intros [= <-].
  unfold is_digit in E. apply andb_true_iff in E as [E1 E2]. zbool.
  split; [lia|]. unfold utod, digit. apply byte_to_char_eq. lia.
Qed.

Lemma read_2_inv c1 c2 v : digits_value [c1; c2] 0 = Some v ->
  0 <= v < 100 /\ c1 = utod (v / 10) /\ c2 = utod (v mod 10).
Proof.
  cbn [digits_value]. destruct (digit_value c1) as [k1|] eqn:E1; [|done]. cbn [mbind option_bind].
  destruct (digit_value c2) as [k2|] eqn:E2; [|done]. cbn [mbind option_bind]. intros [= <-].
  apply digit_value_Some in E1 as [R1 <-], E2 as [R2 <-].
  split; [lia|]. split; f_equal; Z.to_euclidean_division_equations; lia.
Qed.

Lemma read_4_inv c1 c2 c3 c4 v : digits_value [c1; c2; c3; c4] 0 = Some v ->
  0 <= v < 10000 /\ c1 = utod (v / 1000) /\ c2 = utod (v / 100 mod 10) /\
  c3 = utod (v / 10 mod 10) /\ c4 = utod (v mod 10).
Proof.
  cbn [digits_value]. destruct (digit_value c1) as [k1|] eqn:E1; [|done]. cbn [mbind option_bind].
  destruct (digit_value c2) as [k2|] eqn:E2; [|done]. cbn [mbind option_bind].
  destruct (digit_value c3) as [k3|] eqn:E3; [|done]. cbn [mbind option_bind].
  destruct (digit_value c4) as [k4|] eqn:E4; [|done]. cbn [mbind option_bind]. intros [= <-].
  apply digit_value_Some in E1 as [R1 <-], E2 as [R2 <-], E3 as [R3 <-], E4 as [R4 <-].
  split; [lia|]. split_and!; f_equal; Z.to_euclidean_division_equations; lia.
Qed.

(** A day number and a time of day, put together and split again. *)
Lemma abs_clock_of D h mi s :
  0 <= h < 24 -> 0 <= mi < 60 -> 0 <= s < 60 ->
  let t := D * seconds_per_day + (h * seconds_per_hour + mi * seconds_per_minute + s) in
  t / seconds_per_day = D /\ abs_clock t = (h, mi, s).
Proof.
  intros Hh Hmi Hs t. unfold t, abs_clock, seconds_per_day, seconds_per_hour, seconds_per_minute.
  rewrite <- (Z.div_unique _ 86400 D (h * 3600 + mi * 60 + s)), <- (Z.mod_unique _ 86400 D (h * 3600 + mi * 60 + s))
    by lia.
  rewrite <- (Z.div_unique _ 3600 h (mi * 60 + s)) by lia.
  rewrite <- (Z.div_unique (h * 3600 + mi * 60 + s - h * 3600) 60 mi s) by lia.
  split; [reflexivity|]. f_equal. lia.
Qed.

Lemma format_parse_rfc3339 str t :
  parse_rfc3339 str = Some t -> 0 <= year t <= 9999 /\ format_rfc3339 t = str.
Proof.
  unfold parse_rfc3339.
  destruct str as [|y1 [|y2 [|y3 [|y4 [|c5 [|m1 [|m2 [|c8 [|d1 [|d2 [|c11 [|h1 [|h2 [|c14
    [|i1 [|i2 [|c17 [|s1 [|s2 [|c20 [|? ?]]]]]]]]]]]]]]]]]]]]]; try discriminate.
  destruct (forallb _ _) eqn:Hsep; [|discriminate]. cbn [forallb] in Hsep.
  repeat rewrite andb_true_iff in Hsep. destruct_and!.
  repeat match goal with H : Ascii.eqb _ _ = true |- _ => apply Ascii.eqb_eq in H end. subst.
  destruct (digits_value [y1; y2; y3; y4] 0) as [y|] eqn:Ey; [|discriminate]. cbn [mbind option_bind].
  destruct (digits_value [m1; m2] 0) as [mo|] eqn:Emo; [|discriminate]. cbn [mbind option_bind].
  destruct (digits_value [d1; d2] 0) as [d|] eqn:Ed; [|discriminate]. cbn [mbind option_bind].
  destruct (digits_value [h1; h2] 0) as [h|] eqn:Eh; [|discriminate]. cbn [mbind option_bind].
  destruct (digits_value [i1; i2] 0) as [mi|] eqn:Emi; [|discriminate]. cbn [mbind option_bind].
  destruct (digits_value [s1; s2] 0) as [sec|] eqn:Es; [|discriminate]. cbn [mbind option_bind].
  destruct (valid_date y mo d && _ && _ && _) eqn:Hv; [|discriminate]. intros [= <-].
  repeat rewrite andb_true_iff in Hv. destruct Hv as [[[Hv Hh] Hmi] Hs]. zbool.
  pose proof (valid_date_bounds _ _ _ Hv) as [Hmo Hd].
  apply read_4_inv in Ey as (Hy & -> & -> & -> & ->).
  apply read_2_inv in Emo as (_ & -> & ->), Ed as (_ & -> & ->), Eh as (Rh & -> & ->),
    Emi as (Rmi & -> & ->), Es as (Rs & -> & ->).
  assert (Ht : unix_of y mo d h mi sec = days_from_civil y mo d * seconds_per_day
            + (h * seconds_per_hour + mi * seconds_per_minute + sec)) by (unfold unix_of; ring).
  destruct (abs_clock_of (days_from_civil y mo d) h mi sec) as [Hdiv Hclk]; [lia..|].
  assert (Hdate : date (unix_of y mo d h mi sec) = (y, mo, d))
    by (unfold date; rewrite Ht, Hdiv; by apply civil_from_days_from_civil).
  split; [unfold year; rewrite Hdate; simpl; lia|].
  unfold format_rfc3339. rewrite Hdate, Ht, Hclk.
  rewrite append_int_4, !append_int_2 by lia. reflexivity.
Qed.

(** C19. The header text is an exact encoding: the reader accepts a text
    exactly when it is what [Format(time.RFC3339)] writes for a UTC time
    with a four-digit year, and then gives back that time. *)
Theorem rfc3339_roundtrip str t :
  parse_rfc3339 str = Some t <-> 0 <= year t <= 9999 /\ format_rfc3339 t = str.
Proof.
  split; [apply format_parse_rfc3339|]. intros [Hy <-]. by apply parse_format_rfc3339.
Qed.

(** ** Concrete texts *)

Module TimeRuns.

(** The zero [time.Time], the Unix epoch, a leap day and the last second
    with a four-digit year; the year 10000 gets five digits. *)
Example rfc3339_texts :
  map format_rfc3339 [zero_time; 0; 951782400; 1700000000; 253402300799; 253402300800] =
  ["0001-01-01T00:00:00Z"; "1970-01-01T00:00:00Z"; "2000-02-29T00:00:00Z";
   "2023-11-14T22:13:20Z"; "9999-12-31T23:59:59Z"; "10000-01-01T00:00:00Z"] /\
  format_clock 1700000000 = "22:13:20".
Proof. vm_compute. split; reflexivity. Qed.

(** A text with day 30 of February is refused. *)
Example rfc3339_invalid_day : parse_rfc3339 "2024-02-30T00:00:00Z" = None.
Proof. vm_compute. reflexivity. Qed.

Lemma rfc3339_roundtrip_witness :
  (0 <= year 1700000000 <= 9999 /\ format_rfc3339 1700000000 = "2023-11-14T22:13:20Z") /\
  parse_rfc3339 "2023-11-14T22:13:20Z" = Some 1700000000.
Proof.
  assert (H : 0 <= year 1700000000 <= 9999 /\ format_rfc3339 1700000000 = "2023-11-14T22:13:20Z")
    by (vm_compute; split; [split; discriminate|reflexivity]).
  split; [exact H|]. exact (proj2 (rfc3339_roundtrip _ _) H).
Defined.

(** An offset other than [Z] is not what the server writes, and is
    refused. *)
Example rfc3339_offset_refused : parse_rfc3339 "2023-11-14T23:13:20+01:00" = None.
Proof. vm_compute. reflexivity. Qed.

End TimeRuns.
End Timefmt.
