(* ===== verification/Json.v ===== *)
(** * The JSON wire format of the API: [encoding/json] as gin's [c.JSON] runs it

    Every handler that answers 200 calls [c.JSON(200, output)] on the
    cached [[]forecast] (part_000 line 73, part_001 line 53, main.go line
    40); gin renders it with [json.Marshal], which writes a struct's fields
    in declaration order under their [json] tags (part_000 lines 19-28) and
    escapes strings for HTML.  This file models

    - [escape_loop], [append_string]: [appendString] with [escapeHTML]
      (Go 1.22 and later, which writes [\b] and [\f] as short escapes);
    - [unquote_loop]: the reading side of a JSON string, [unquote] together
      with the scanner's rules (only the escapes of a quote, a backslash, a
      slash, [b f n r t] and [uXXXX], no raw control byte), surrogate pairs
      included;
    - [to_valid]: [string([]rune(s))], what a Go string looks like after
      every invalid UTF-8 byte is replaced by U+FFFD;

    and proves that reading back an encoded string gives [to_valid] of it,
    which is the string itself exactly when the string is valid UTF-8. *)

From S2P Require Import Prelude GoStrconv Utf8.
Local Open Scope Z_scope.

Module Json.
Import Strconv Utf8.

Definition dquote : ascii := "034"%char.
Definition bslash : ascii := "092"%char.

(** [hex = "0123456789abcdef"], indexed by a nibble. *)
Definition hex_chars : string := "0123456789abcdef".
Definition hex (d : Z) : ascii :=
  match String.get (Z.to_nat d) hex_chars with Some c => c | None => "0"%char end.

(** [htmlSafeSet[b]] for an ASCII byte: printable, and neither a quote
    ([0x22]), a backslash ([0x5C]) nor one of [< > &]. *)
Definition html_safe (b : Z) : bool :=
  (0x20 <=? b) && negb (b =? 0x22) && negb (b =? 0x5C)
  && negb (b =? 0x3C) && negb (b =? 0x3E) && negb (b =? 0x26).

(** The [switch b] of [appendString] for an ASCII byte that is not safe. *)
Definition escape_byte (b : Z) : string :=
  if (b =? 0x5C) || (b =? 0x22) then String bslash (String (byte_to_char b) EmptyString)
  else if b =? 0x08 then "\b"
  else if b =? 0x0C then "\f"
  else if b =? 0x0A then "\n"
  else if b =? 0x0D then "\r"
  else if b =? 0x09 then "\t"
  else ("\u00" ++ String (hex (Z.shiftr b 4)) (String (hex (Z.land b 0xF)) EmptyString))%string.

(** The loop of [appendString(dst, src, true)].  Go copies runs of bytes
    that need no escaping in one [append]; here each byte or rune is
    written as the loop reaches it, which gives the same output.  The loop
    advances by at least one byte per turn; the fuel is the length of the
    string. *)
Fixpoint escape_loop (fuel : nat) (s : string) : string :=
  match fuel with
  | O => EmptyString
  | S f =>
      match s with
      | EmptyString => EmptyString
      | String c rest =>
          let b := byte_of c in
          if b <? rune_self then
            if html_safe b then String c (escape_loop f rest)
            else (escape_byte b ++ escape_loop f rest)%string
          else
            let '(r, size) := decode_rune (stake 4 s) in
            if (r =? rune_error) && (size =? 1)%nat then
              ("\ufffd" ++ escape_loop f (sdrop size s))%string
            else if (r =? 0x2028) || (r =? 0x2029) then
              ("\u202" ++ String (hex (Z.land r 0xF)) (escape_loop f (sdrop size s)))%string
            else (stake size s ++ escape_loop f (sdrop size s))%string
      end
  end.

Definition append_string (s : string) : string :=
  String dquote (escape_loop (String.length s) s ++ String dquote EmptyString)%string.

(** The value of a hexadecimal digit, either case. *)
Definition hex_val (c : ascii) : option Z :=
  let b := byte_of c in
  if (0x30 <=? b) && (b <=? 0x39) then Some (b - 0x30)
  else if (0x61 <=? b) && (b <=? 0x66) then Some (b - 0x61 + 10)
  else if (0x41 <=? b) && (b <=? 0x46) then Some (b - 0x41 + 10)
  else None.

(** [getu4]: the code of a [\uXXXX] escape at the head of [s], [-1] if
    there is none. *)
Definition getu4 (s : string) : Z :=
  match s with
  | String c0 (String c1 (String h1 (String h2 (String h3 (String h4 _))))) =>
      if (byte_of c0 =? 0x5C) && (byte_of c1 =? 0x75) then
        match hex_val h1, hex_val h2, hex_val h3, hex_val h4 with
        | Some v1, Some v2, Some v3, Some v4 => ((v1 * 16 + v2) * 16 + v3) * 16 + v4
        | _, _, _, _ => -1
        end
      else -1
  | _ => -1
  end.

(** [utf16.IsSurrogate] and [utf16.DecodeRune]. *)
Definition is_surrogate (r : Z) : bool := (0xD800 <=? r) && (r <? 0xE000).
Definition utf16_decode (r1 r2 : Z) : Z :=
  if (0xD800 <=? r1) && (r1 <? 0xDC00) && (0xDC00 <=? r2) && (r2 <? 0xE000)
  then Z.lor (Z.shiftl (r1 - 0xD800) 10) (r2 - 0xDC00) + 0x10000
  else rune_error.

(** The single-character escapes the scanner accepts, and their bytes. *)
Definition escape_char (b : Z) : option Z :=
  if (b =? 0x22) || (b =? 0x5C) || (b =? 0x2F) then Some b
  else if b =? 0x62 then Some 0x08
  else if b =? 0x66 then Some 0x0C
  else if b =? 0x6E then Some 0x0A
  else if b =? 0x72 then Some 0x0D
  else if b =? 0x74 then Some 0x09
  else None.

Definition prepend (p : string) (o : option (string * string)) : option (string * string) :=
  match o with Some (d, r) => Some ((p ++ d)%string, r) | None => None end.

(** Reading a JSON string after its opening quote: the bytes it stands
    for and the input after the closing quote, or [None] on a syntax
    error.  Each turn consumes at least one byte. *)
Fixpoint unquote_loop (fuel : nat) (s : string) : option (string * string) :=
  match fuel with
  | O => None
  | S f =>
      match s with
      | EmptyString => None
      | String c rest =>
          let b := byte_of c in
          if b =? 0x5C then
            match rest with
            | EmptyString => None
            | String e rest' =>
                match escape_char (byte_of e) with
                | Some d => prepend (String (byte_to_char d) EmptyString) (unquote_loop f rest')
                | None =>
                    if byte_of e =? 0x75 then
                      let rr := getu4 s in
                      if rr <? 0 then None
                      else if is_surrogate rr then
                        let dec := utf16_decode rr (getu4 (sdrop 6 s)) in
                        if negb (dec =? rune_error)
                        then prepend (encode_rune dec) (unquote_loop f (sdrop 12 s))
                        else prepend (encode_rune rune_error) (unquote_loop f (sdrop 6 s))
                      else prepend (encode_rune rr) (unquote_loop f (sdrop 6 s))
                    else None
                end
            end
          else if b =? 0x22 then Some (EmptyString, rest)
          else if b <? 0x20 then None
          else if b <? rune_self then prepend (String c EmptyString) (unquote_loop f rest)
          else
            let '(rr, size) := decode_rune s in
            prepend (encode_rune rr) (unquote_loop f (sdrop size s))
      end
  end.

(** A JSON string literal at the head of [s]. *)
Definition read_string (s : string) : option (string * string) :=
  match s with
  | String c rest => if byte_of c =? 0x22 then unquote_loop (String.length rest) rest else None
  | EmptyString => None
  end.

(** [string([]rune(s))]: every rune re-encoded, every invalid byte
    replaced by U+FFFD. *)
Fixpoint to_valid_loop (fuel : nat) (s : string) : string :=
  match fuel with
  | O => EmptyString
  | S f =>
      match s with
      | EmptyString => EmptyString
      | String _ _ =>
          let '(r, n) := decode_rune s in
          (encode_rune r ++ to_valid_loop f (sdrop n s))%string
      end
  end.

Definition to_valid (s : string) : string := to_valid_loop (String.length s) s.

(** [utf8.ValidString]. *)
Fixpoint valid_loop (fuel : nat) (s : string) : bool :=
  match fuel with
  | O => true
  | S f =>
      match s with
      | EmptyString => true
      | String _ _ =>
          let '(r, n) := decode_rune s in
          if (r =? rune_error) && (n =? 1)%nat then false else valid_loop f (sdrop n s)
      end
  end.

Definition valid_utf8 (s : string) : bool := valid_loop (String.length s) s.

(** ** Reading back what the encoder writes *)

Lemma sdrop_stake_app n s t :
  String.length (stake n s) = n -> sdrop n (stake n s ++ t)%string = t.
Proof. intros H. pose proof (sdrop_app (stake n s) t) as Hd. by rewrite H in Hd. Qed.

(** A byte the encoder copies is read back as itself. *)
Lemma unquote_safe c f t :
  byte_of c < 0x80 -> html_safe (byte_of c) = true ->
  unquote_loop (S f) (String c t) = prepend (String c EmptyString) (unquote_loop f t).
Proof.
  intros H1 H2. unfold html_safe in H2. cbn [unquote_loop]. unfold rune_self. zbool.
  repeat (case_match; zbool; try lia); reflexivity.
Qed.

(** An escaped ASCII byte is read back as the byte. *)
Lemma unquote_escape_byte c f t :
  byte_of c < 0x80 -> html_safe (byte_of c) = false ->
  unquote_loop (S f) (escape_byte (byte_of c) ++ t)%string
  = prepend (String c EmptyString) (unquote_loop f t).
Proof.
  intros H1 H2.
  destruct c as [[] [] [] [] [] [] [] []]; vm_compute in H1, H2;
    try discriminate; reflexivity.
Qed.

Lemma unquote_replacement f t :
  unquote_loop (S f) ("\ufffd" ++ t)%string = prepend (encode_rune rune_error) (unquote_loop f t).
Proof. reflexivity. Qed.

Lemma unquote_line_separator r f t :
  r = 0x2028 \/ r = 0x2029 ->
  unquote_loop (S f) ("\u202" ++ String (hex (Z.land r 0xF)) t)%string
  = prepend (encode_rune r) (unquote_loop f t).
Proof. intros [-> | ->]; reflexivity. Qed.

(** The bytes of a well-formed rune are read back as themselves. *)
Lemma unquote_rune s r n f t :
  decode_rune s = (r, n) -> ~ (r = rune_error /\ n = 1%nat) -> s <> EmptyString ->
  stake n s = encode_rune r -> rune_self <= byte_of (default "000"%char (String.get 0 s)) ->
  unquote_loop (S f) (stake n s ++ t)%string = prepend (stake n s) (unquote_loop f t).
Proof.
  intros Hd Hne Hs Ht Hb.
  pose proof (decode_rune_app s t r n Hd Hne Hs) as Ha.
  pose proof (decode_rune_size s r n Hd Hs) as Hn.
  destruct s as [|c s']; [done|]. destruct n as [|n]; [lia|].
  unfold rune_self in *. simpl in Hb. cbn [stake] in Ha, Ht |- *.
  rewrite sapp_cons in Ha |- *. cbn [unquote_loop].
  repeat (case_match; unfold rune_self in *; zbool; try lia).
  injection Ha as -> ->.
  rewrite <- Ht. cbn [sdrop]. rewrite sdrop_stake_app; [done|].
  destruct (decode_rune_encode_aux _ _ _ Hd Hne Hs) as [Hl _].
  rewrite <- Ht in Hl. simpl in Hl. lia.
Qed.

Lemma escape_byte_length b : (2 <= String.length (escape_byte b))%nat.
Proof. unfold escape_byte. repeat case_match; simpl; lia. Qed.

Lemma decode_rune_ascii_head c rest :
  byte_of c < rune_self -> decode_rune (String c rest) = (byte_of c, 1%nat).
Proof. intros H. unfold decode_rune. apply Z.ltb_lt in H. by rewrite H. Qed.

Lemma not_error_flag r n :
  ~ (r = rune_error /\ n = 1%nat) -> (r =? rune_error) && (n =? 1)%nat = false.
Proof.
  intros H. apply andb_false_iff.
  destruct (decide (r = rune_error)); [right; apply Nat.eqb_neq | left; apply Z.eqb_neq]; naive_solver.
Qed.

(** Reading back the encoding of [s], followed by the closing quote, gives
    [to_valid s] and the rest of the input; the reader's fuel only has to
    exceed the length of the encoding. *)
Lemma escape_unquote f : forall s fuel t,
  (String.length s <= f)%nat -> (String.length (escape_loop f s) < fuel)%nat ->
  unquote_loop fuel (escape_loop f s ++ String dquote t)%string = Some (to_valid_loop f s, t).
Proof.
  induction f as [|f IH]; intros s fuel t Hs Hf.
  { destruct s; simpl in Hs; [|lia]. destruct fuel; [simpl in Hf; lia|]. reflexivity. }
  destruct s as [|c rest].
  { destruct fuel; [simpl in Hf; lia|]. reflexivity. }
  destruct fuel as [|fuel]; [simpl in Hf; lia|].
  cbn [escape_loop] in Hf |- *. cbn [to_valid_loop].
  destruct (byte_of c <? rune_self) eqn:Hascii; zbool.
  - rewrite decode_rune_ascii_head, decode_rune_ascii by (unfold rune_self in *; lia).
    cbn [sdrop]. simpl in Hs.
    destruct (html_safe (byte_of c)) eqn:Hsafe.
    + simpl in Hf. rewrite sapp_cons, unquote_safe by (done || (unfold rune_self in *; lia)).
      rewrite IH by lia. reflexivity.
    + rewrite slength_app in Hf. pose proof (escape_byte_length (byte_of c)).
      rewrite sapp_assoc, unquote_escape_byte by (done || (unfold rune_self in *; lia)).
      rewrite IH by lia. reflexivity.
  - rewrite decode_rune_stake4 in Hf |- *. revert Hf.
    destruct (decode_rune (String c rest)) as [r n] eqn:Hd. intros Hf.
    assert (String.length (sdrop n (String c rest)) <= f)%nat.
    { rewrite slength_sdrop. pose proof (decode_rune_size _ _ _ Hd ltac:(done)). lia. }
    destruct (decode_rune_cases _ _ _ Hd ltac:(done)) as [[-> ->]|(Hne & Ht & _ & Hn)].
    + rewrite Z.eqb_refl in Hf |- *. cbn [andb Nat.eqb] in Hf |- *.
      rewrite slength_app in Hf. simpl in Hf.
      cbn [sdrop] in H |- *. rewrite sapp_assoc, unquote_replacement, IH by lia. reflexivity.
    + rewrite not_error_flag in Hf |- * by done.
      destruct ((r =? 0x2028) || (r =? 0x2029)) eqn:Hls.
      * rewrite slength_app in Hf. simpl in Hf.
        rewrite sapp_assoc, (sapp_cons (hex (Z.land r 0xF))), unquote_line_separator
          by (zbool; lia).
        rewrite IH by lia. reflexivity.
      * rewrite slength_app in Hf. rewrite sapp_assoc, (unquote_rune (String c rest) r n fuel) by (done || (simpl; unfold rune_self in *; lia)).
        rewrite IH by (rewrite ?Ht in Hf; pose proof (encode_rune_length r); lia).
        by rewrite Ht.
Qed.

(** The string an encoded string is read back as. *)
Lemma read_append_string s t :
  read_string (append_string s ++ t)%string = Some (to_valid s, t).
Proof.
  unfold read_string, append_string. rewrite sapp_cons. cbn [byte_of dquote].
  change (Z.of_N (Ascii.N_of_ascii "034"%char) =? 34) with true. cbv iota.
  rewrite sapp_assoc, sapp_cons, sapp_nil_l.
  apply escape_unquote; [lia|]. rewrite slength_app. simpl. lia.
Qed.

Lemma sapp_cancel_l a x y : (a ++ x)%string = (a ++ y)%string -> x = y.
Proof. induction a; [done|]. rewrite !sapp_cons. intros [= ?]. auto. Qed.

Lemma decode_replacement t : decode_rune (encode_rune rune_error ++ t)%string = (rune_error, 3%nat).
Proof. reflexivity. Qed.

(** [to_valid] leaves a string unchanged exactly when it is valid UTF-8. *)
Lemma to_valid_loop_id f s :
  (String.length s <= f)%nat -> to_valid_loop f s = s <-> valid_loop f s = true.
Proof.
  revert s. induction f as [|f IH]; intros s Hs.
  { destruct s; simpl in Hs; [done|lia]. }
  destruct s as [|c rest]; [done|]. cbn [to_valid_loop valid_loop].
  destruct (decode_rune (String c rest)) as [r n] eqn:Hd.
  assert (String.length (sdrop n (String c rest)) <= f)%nat.
  { rewrite slength_sdrop. pose proof (decode_rune_size _ _ _ Hd ltac:(done)). lia. }
  destruct (decode_rune_cases _ _ _ Hd ltac:(done)) as [[-> ->]|(Hne & Ht & Hsplit & Hn)].
  - rewrite Z.eqb_refl. cbn [andb Nat.eqb]. split; [|done]. intros Heq.
    rewrite <- Heq, decode_replacement in Hd. discriminate.
  - rewrite not_error_flag by done. rewrite <- IH by done. rewrite <- Ht.
    split.
    + intros Heq. apply (sapp_cancel_l (stake n (String c rest))).
      rewrite Heq. done.
    + intros ->. done.
Qed.

Lemma to_valid_id s : to_valid s = s <-> valid_utf8 s = true.
Proof. apply to_valid_loop_id. lia. Qed.

(** A Go string written by [encoding/json] and read back by its decoder
    comes back unchanged exactly when it is valid UTF-8; otherwise every
    invalid byte comes back as U+FFFD. *)
Lemma string_roundtrip_iff s t :
  read_string (append_string s ++ t)%string = Some (s, t) <-> valid_utf8 s = true.
Proof.
  rewrite read_append_string, <- to_valid_id. split; [by intros [= ->]|by intros ->].
Qed.

End Json.
