(* ===== verification/Marshal.v ===== *)
(** * The API's response body: [json.Marshal] of [[]forecast] and [json.Unmarshal] back

    [c.JSON(200, output)] (part_000 line 73, part_001 line 53, main.go line
    40) renders the cached [[]forecast] with [json.Marshal]: an array of
    objects whose members are the struct fields in declaration order under
    their tags [city_name], [forecast_text], [values], [name] and [value]
    (part_000 lines 19-28), with no white space.  A client reads it back
    with [json.Unmarshal] into the same types.  This file models

    - [jvalue], [print_value]: JSON values and the compact text the encoder
      writes for them; [to_json] and [marshal]: the encoder's view of the
      two structs;
    - [parse_value] and its helpers: the decoder's scanner (white space,
      string escapes, the number grammar, the three literals), with fuel;
    - [decode_forecasts]: [Unmarshal] into [[]forecast]: tags matched with
      ASCII case folding, unknown members ignored, [null] leaving a field
      as it is, a number that [ParseInt] rejects or a value of the wrong
      kind an error;

    and proves the round trip: [unmarshal (marshal fs)] gives [fs] back with
    every string passed through [to_valid], hence [fs] itself when its
    strings are valid UTF-8. *)

From S2P Require Import Prelude GoStrconv Dom Utf8 Itoa Json Extract.
Local Open Scope Z_scope.

Module Marshal.
Import Strconv Utf8 Itoa Json Extract.

Inductive jvalue :=
  | JNull
  | JBool (b : bool)
  | JNumber (lit : string)
  | JString (s : string)
  | JArray (l : list jvalue)
  | JObject (l : list (string * jvalue)).

Definition comma : ascii := ","%char.

(** Elements separated by commas, as [arrayEncoder] and [structEncoder]
    write them. *)
Fixpoint join (l : list string) : string :=
  match l with
  | [] => EmptyString
  | [x] => x
  | x :: l' => (x ++ String comma (join l'))%string
  end.

Fixpoint print_value (v : jvalue) : string :=
  match v with
  | JNull => "null"
  | JBool true => "true"
  | JBool false => "false"
  | JNumber lit => lit
  | JString s => append_string s
  | JArray l => String "["%char (join (map print_value l) ++ "]")%string
  | JObject l =>
      String "{"%char
        (join (map (fun '(k, x) => append_string k ++ String ":"%char (print_value x)) l)
         ++ "}")%string
  end.

(** The encoder's view of the two structs: fields in declaration order
    under their tags; an [int] through [strconv.AppendInt]. *)
Definition value_json (v : forecastValue) : jvalue :=
  JObject [("name", JString (Name v)); ("value", JNumber (format_int (Value v)))].

Definition forecast_json (f : forecast) : jvalue :=
  JObject [("city_name", JString (CityName f)); ("forecast_text", JString (ForecastText f));
           ("values", JArray (map value_json (Values f)))].

Definition to_json (fs : list forecast) : jvalue := JArray (map forecast_json fs).

Definition marshal (fs : list forecast) : string := print_value (to_json fs).

(** ** The decoder's scanner *)

Definition is_ws (c : ascii) : bool :=
  let b := byte_of c in (b =? 0x20) || (b =? 0x09) || (b =? 0x0A) || (b =? 0x0D).

Fixpoint skip_ws (s : string) : string :=
  match s with
  | String c rest => if is_ws c then skip_ws rest else s
  | EmptyString => EmptyString
  end.

Fixpoint scan_digits (s : string) : string * string :=
  match s with
  | String c rest =>
      if is_digit c then let '(d, r) := scan_digits rest in (String c d, r) else (EmptyString, s)
  | EmptyString => (EmptyString, EmptyString)
  end.

(** [state0] / [state1]: a lone ['0'], or a non-zero digit and more digits. *)
Definition scan_int (s : string) : option (string * string) :=
  match s with
  | String c rest =>
      if byte_of c =? 0x30 then Some (String c EmptyString, rest)
      else if is_digit c then let '(d, r) := scan_digits rest in Some (String c d, r)
      else None
  | EmptyString => None
  end.

(** [stateDot]: a fraction needs at least one digit. *)
Definition scan_frac (s : string) : option (string * string) :=
  match s with
  | String c rest =>
      if byte_of c =? 0x2E then
        let '(d, r) := scan_digits rest in
        if bool_decide (d = EmptyString) then None else Some (String c d, r)
      else Some (EmptyString, s)
  | EmptyString => Some (EmptyString, EmptyString)
  end.

(** [stateE], [stateESign]: an exponent, its optional sign, one digit or more. *)
Definition scan_exp (s : string) : option (string * string) :=
  match s with
  | String c rest =>
      if (byte_of c =? 0x65) || (byte_of c =? 0x45) then
        let '(sg, r1) :=
          match rest with
          | String c1 r1 =>
              if (byte_of c1 =? 0x2B) || (byte_of c1 =? 0x2D)
              then (String c1 EmptyString, r1) else (EmptyString, rest)
          | EmptyString => (EmptyString, EmptyString)
          end in
        let '(d, r2) := scan_digits r1 in
        if bool_decide (d = EmptyString) then None else Some (String c (sg ++ d), r2)
      else Some (EmptyString, s)
  | EmptyString => Some (EmptyString, EmptyString)
  end.

(** A number literal at the head of [s] and the input after it. *)
Definition scan_number (s : string) : option (string * string) :=
  let '(sg, s1) :=
    match s with
    | String c rest => if byte_of c =? 0x2D then (String c EmptyString, rest) else (EmptyString, s)
    | EmptyString => (EmptyString, EmptyString)
    end in
  match scan_int s1 with
  | None => None
  | Some (i, s2) =>
      match scan_frac s2 with
      | None => None
      | Some (f, s3) =>
          match scan_exp s3 with
          | None => None
          | Some (e, s4) => Some ((sg ++ i ++ f ++ e)%string, s4)
          end
      end
  end.

(** A literal [lit] at the head of [s]. *)
Fixpoint scan_keyword (lit s : string) : option string :=
  match lit, s with
  | EmptyString, _ => Some s
  | String a lit', String c s' => if bool_decide (a = c) then scan_keyword lit' s' else None
  | String _ _, EmptyString => None
  end.

Definition after_ws_is (b : Z) (s : string) : option string :=
  match skip_ws s with
  | String c rest => if byte_of c =? b then Some rest else None
  | EmptyString => None
  end.

(** The parser.  Every call consumes at least one byte of the input, so
    the length of the input, plus one, is enough fuel. *)
Fixpoint parse_value (fuel : nat) (s : string) : option (jvalue * string) :=
  match fuel with
  | O => None
  | S f =>
      match skip_ws s with
      | EmptyString => None
      | String c rest as s' =>
          let b := byte_of c in
          if b =? 0x22 then
            match unquote_loop (String.length rest) rest with
            | Some (d, r) => Some (JString d, r)
            | None => None
            end
          else if b =? 0x5B then
            match after_ws_is 0x5D rest with
            | Some r => Some (JArray [], r)
            | None => parse_elems f rest []
            end
          else if b =? 0x7B then
            match after_ws_is 0x7D rest with
            | Some r => Some (JObject [], r)
            | None => parse_members f rest []
            end
          else if b =? 0x74 then
            match scan_keyword "true" s' with Some r => Some (JBool true, r) | None => None end
          else if b =? 0x66 then
            match scan_keyword "false" s' with Some r => Some (JBool false, r) | None => None end
          else if b =? 0x6E then
            match scan_keyword "null" s' with Some r => Some (JNull, r) | None => None end
          else
            match scan_number s' with Some (lit, r) => Some (JNumber lit, r) | None => None end
      end
  end
with parse_elems (fuel : nat) (s : string) (acc : list jvalue) : option (jvalue * string) :=
  match fuel with
  | O => None
  | S f =>
      match parse_value f s with
      | None => None
      | Some (v, r) =>
          match skip_ws r with
          | String c r' =>
              if byte_of c =? 0x2C then parse_elems f r' (acc ++ [v])
              else if byte_of c =? 0x5D then Some (JArray (acc ++ [v]), r')
              else None
          | EmptyString => None
          end
      end
  end
with parse_members (fuel : nat) (s : string) (acc : list (string * jvalue))
    : option (jvalue * string) :=
  match fuel with
  | O => None
  | S f =>
      match skip_ws s with
      | String c r =>
          if byte_of c =? 0x22 then
            match unquote_loop (String.length r) r with
            | None => None
            | Some (k, r1) =>
                match after_ws_is 0x3A r1 with
                | None => None
                | Some r2 =>
                    match parse_value f r2 with
                    | None => None
                    | Some (v, r3) =>
                        match skip_ws r3 with
                        | String c3 r4 =>
                            if byte_of c3 =? 0x2C then parse_members f r4 (acc ++ [(k, v)])
                            else if byte_of c3 =? 0x7D then Some (JObject (acc ++ [(k, v)]), r4)
                            else None
                        | EmptyString => None
                        end
                    end
                end
            end
          else None
      | EmptyString => None
      end
  end.

(** ** [Unmarshal] into the two structs *)

Definition fold_byte (b : Z) : Z := if (0x41 <=? b) && (b <=? 0x5A) then b + 32 else b.

(** Field names match a key up to ASCII case. *)
Fixpoint fold_eq (a b : string) : bool :=
  match a, b with
  | EmptyString, EmptyString => true
  | String c a', String d b' => (fold_byte (byte_of c) =? fold_byte (byte_of d)) && fold_eq a' b'
  | _, _ => false
  end.

(** A string field takes a string; [null] leaves it unchanged. *)
Definition decode_string_field (x : jvalue) (cur : string) : option string :=
  match x with JString s => Some s | JNull => Some cur | _ => None end.

(** An [int] field takes a number that [ParseInt(_, 10, 64)] accepts. *)
Definition decode_int_field (x : jvalue) (cur : Z) : option Z :=
  match x with
  | JNumber lit => match parse_int lit with (z, None) => Some z | _ => None end
  | JNull => Some cur
  | _ => None
  end.

Fixpoint decode_members {A} (step : A -> string * jvalue -> option A)
    (ms : list (string * jvalue)) (st : A) : option A :=
  match ms with
  | [] => Some st
  | m :: ms' => match step st m with Some st' => decode_members step ms' st' | None => None end
  end.

Definition value_member (st : forecastValue) (m : string * jvalue) : option forecastValue :=
  let '(k, x) := m in
  if fold_eq k "name" then
    match decode_string_field x (Name st) with Some n => Some (mkValue n (Value st)) | None => None end
  else if fold_eq k "value" then
    match decode_int_field x (Value st) with Some v => Some (mkValue (Name st) v) | None => None end
  else Some st.

Definition decode_value (x : jvalue) : option forecastValue :=
  match x with
  | JObject ms => decode_members value_member ms (mkValue "" 0)
  | JNull => Some (mkValue "" 0)
  | _ => None
  end.

(** A slice takes an array, element by element; [null] gives the empty
    (in Go, nil) slice. *)
Definition decode_list {A} (dec : jvalue -> option A) (x : jvalue) : option (list A) :=
  match x with
  | JArray l => mapM dec l
  | JNull => Some []
  | _ => None
  end.

Definition forecast_member (st : forecast) (m : string * jvalue) : option forecast :=
  let '(k, x) := m in
  if fold_eq k "city_name" then
    match decode_string_field x (CityName st) with
    | Some s => Some (mkForecast s (ForecastText st) (Values st)) | None => None end
  else if fold_eq k "forecast_text" then
    match decode_string_field x (ForecastText st) with
    | Some s => Some (mkForecast (CityName st) s (Values st)) | None => None end
  else if fold_eq k "values" then
    match decode_list decode_value x with
    | Some vs => Some (mkForecast (CityName st) (ForecastText st) vs) | None => None end
  else Some st.

Definition decode_forecast (x : jvalue) : option forecast :=
  match x with
  | JObject ms => decode_members forecast_member ms (mkForecast "" "" [])
  | JNull => Some (mkForecast "" "" [])
  | _ => None
  end.

Definition decode_forecasts (x : jvalue) : option (list forecast) := decode_list decode_forecast x.

(** [json.Unmarshal(data, &fs)]: one value, then only white space. *)
Definition unmarshal (s : string) : option (list forecast) :=
  match parse_value (S (String.length s)) s with
  | Some (v, r) => if bool_decide (skip_ws r = EmptyString) then decode_forecasts v else None
  | None => None
  end.

(** ** Reading back what the encoder writes *)

(** What may follow a value the encoder writes: the end of the input, a
    comma, or a closing bracket or brace. *)
Definition delim (t : string) : Prop :=
  match t with
  | EmptyString => True
  | String c _ => byte_of c = 0x2C \/ byte_of c = 0x5D \/ byte_of c = 0x7D
  end.

Lemma delim_not_digit c t : delim (String c t) -> is_digit c = false.
Proof.
  unfold is_digit. intros H. apply andb_false_iff.
  destruct H as [H|[H|H]]; rewrite H; [left|right|right]; reflexivity.
Qed.

Lemma scan_digits_app d t :
  all_digits d = true -> (forall c t', t = String c t' -> is_digit c = false) ->
  scan_digits (d ++ t) = (d, t).
Proof.
  intros Hd Ht. induction d as [|c d IH].
  - destruct t as [|c t']; [done|]. simpl. by rewrite (Ht c t' eq_refl).
  - simpl in Hd. apply andb_true_iff in Hd as [Hc Hd]. rewrite sapp_cons. simpl.
    rewrite Hc, IH by done. done.
Qed.

Lemma scan_tail_empty t : delim t -> scan_frac t = Some (EmptyString, t) /\ scan_exp t = Some (EmptyString, t).
Proof.
  destruct t as [|c t]; [done|]. intros [H|[H|H]]; unfold scan_frac, scan_exp; rewrite H; done.
Qed.

(** The scanner reads back exactly the text of an [int64]. *)
Lemma scan_format_int z t :
  in_int64 z -> delim t -> scan_number (format_int z ++ t)%string = Some (format_int z, t).
Proof.
  intros Hz Ht. destruct (format_int_shape z Hz) as (d & Hne & Hd & Hcanon & Hf & _).
  rewrite Hf. destruct (scan_tail_empty t Ht) as [Hfr Hex].
  assert (scan_int (d ++ t) = Some (d, t)) as Hi.
  { destruct d as [|c r]; [done|]. simpl in Hd. apply andb_true_iff in Hd as [Hc Hr].
    rewrite sapp_cons. unfold scan_int.
    destruct (Z.eqb_spec (byte_of c) 0x30) as [H0|H0].
    - destruct Hcanon as [Hl|Hh]; [|simpl in Hh; rewrite H0 in Hh; discriminate].
      destruct r; [done|simpl in Hl; lia].
    - rewrite Hc, (scan_digits_app r t); [done|done|]. intros c' t' ->. by apply (delim_not_digit c' t'). }
  assert (forall c r, d = String c r -> byte_of c <> 0x2D) as Hhead.
  { intros c r ->. simpl in Hd. apply andb_true_iff in Hd as [Hc _].
    unfold is_digit in Hc. apply andb_true_iff in Hc as [Hc _]. apply Z.leb_le in Hc. lia. }
  destruct (z <? 0).
  - unfold scan_number. rewrite sapp_cons. cbn [byte_of]. simpl. rewrite Hi, Hfr, Hex.
    rewrite !sapp_nil_r. reflexivity.
  - unfold scan_number. destruct d as [|c r]; [done|]. rewrite sapp_cons.
    rewrite (proj2 (Z.eqb_neq _ _) (Hhead c r eq_refl)). rewrite <- sapp_cons, Hi, Hfr, Hex.
    rewrite !sapp_nil_r. reflexivity.
Qed.

(** Induction on values, through the lists of elements and members. *)
Section JvalueInd.
Variable P : jvalue -> Prop.
Hypothesis Hnull : P JNull.
Hypothesis Hbool : forall b, P (JBool b).
Hypothesis Hnum : forall lit, P (JNumber lit).
Hypothesis Hstr : forall s, P (JString s).
Hypothesis Harr : forall l, Forall P l -> P (JArray l).
Hypothesis Hobj : forall l, Forall (fun kx => P kx.2) l -> P (JObject l).

Fixpoint jvalue_ind' (v : jvalue) : P v :=
  match v with
  | JNull => Hnull
  | JBool b => Hbool b
  | JNumber lit => Hnum lit
  | JString s => Hstr s
  | JArray l =>
      Harr l ((fix go (l : list jvalue) : Forall P l :=
                 match l with
                 | [] => @List.Forall_nil _ P
                 | x :: l' => @List.Forall_cons _ P x l' (jvalue_ind' x) (go l')
                 end) l)
  | JObject l =>
      Hobj l ((fix go (l : list (string * jvalue)) : Forall (fun kx => P kx.2) l :=
                 match l with
                 | [] => @List.Forall_nil _ (fun kx => P kx.2)
                 | (k, x) :: l' => @List.Forall_cons _ (fun kx => P kx.2) (k, x) l' (jvalue_ind' x) (go l')
                 end) l)
  end.
End JvalueInd.

(** A number literal the scanner reads back whole before a delimiter. *)
Definition num_ok (lit : string) : Prop :=
  forall t, delim t -> scan_number (lit ++ t)%string = Some (lit, t).

(** The values the encoder writes: their number literals are whole. *)
Fixpoint wf (v : jvalue) : Prop :=
  match v with
  | JNumber lit => num_ok lit
  | JArray l => (fix go (l : list jvalue) := match l with [] => True | x :: l' => wf x /\ go l' end) l
  | JObject l =>
      (fix go (l : list (string * jvalue)) :=
         match l with [] => True | (_, x) :: l' => wf x /\ go l' end) l
  | _ => True
  end.

Lemma wf_array l : wf (JArray l) <-> Forall wf l.
Proof. induction l; simpl; [by split|]. rewrite Forall_cons. naive_solver. Qed.

Lemma wf_object l : wf (JObject l) <-> Forall (fun kx => wf kx.2) l.
Proof. induction l as [|[k x] l IH]; simpl; [by split|]. rewrite Forall_cons. naive_solver. Qed.

(** What the decoder gives back: every string through [to_valid]. *)
Fixpoint norm (v : jvalue) : jvalue :=
  match v with
  | JString s => JString (to_valid s)
  | JArray l => JArray (map norm l)
  | JObject l => JObject (map (fun '(k, x) => (to_valid k, norm x)) l)
  | _ => v
  end.

(** The number of parser calls a value takes. *)
Fixpoint jsize (v : jvalue) : nat :=
  match v with
  | JArray l =>
      S ((fix go (l : list jvalue) := match l with [] => O | x :: l' => S (jsize x) + go l' end)%nat l)
  | JObject l =>
      S ((fix go (l : list (string * jvalue)) :=
            match l with [] => O | (_, x) :: l' => S (jsize x) + go l' end)%nat l)
  | _ => 1%nat
  end.

Lemma jsize_pos v : (1 <= jsize v)%nat.
Proof. destruct v; simpl; lia. Qed.

Lemma jsize_array_cons x l : jsize (JArray (x :: l)) = (S (jsize x) + jsize (JArray l))%nat.
Proof. simpl. lia. Qed.

Lemma jsize_object_cons k x l :
  jsize (JObject ((k, x) :: l)) = (S (jsize x) + jsize (JObject l))%nat.
Proof. simpl. lia. Qed.

(** A value is read back from its text followed by any delimiter. *)
Definition parses (v : jvalue) : Prop :=
  forall fuel t, (jsize v < fuel)%nat -> delim t ->
  parse_value fuel (print_value v ++ t)%string = Some (norm v, t).

(** The first byte of a value's text: not white space, not a closing
    bracket or brace. *)
Definition head_ok (c : ascii) : Prop :=
  is_ws c = false /\ byte_of c <> 0x5D /\ byte_of c <> 0x7D.

Lemma num_ok_head lit :
  num_ok lit -> exists c r, lit = String c r /\ (byte_of c = 0x2D \/ is_digit c = true).
Proof.
  intros H. specialize (H EmptyString I). rewrite sapp_nil_r in H.
  destruct lit as [|c r]; [done|]. exists c, r. split; [done|].
  unfold scan_number in H. destruct (Z.eqb_spec (byte_of c) 0x2D); [by left|right].
  destruct (Z.eqb_spec (byte_of c) 0x30) as [E|E]; [unfold is_digit; by rewrite E|].
  destruct (is_digit c) eqn:Hd; [done|].
  unfold scan_int in H. rewrite (proj2 (Z.eqb_neq _ _) E), Hd in H. discriminate.
Qed.

Lemma digit_head_ok c : (byte_of c = 0x2D \/ is_digit c = true) -> head_ok c.
Proof.
  unfold head_ok, is_ws, is_digit. intros [H|H].
  - rewrite H. split_and!; [reflexivity|lia|lia].
  - apply andb_true_iff in H as [H1 H2]. apply Z.leb_le in H1, H2.
    split_and!; [|lia|lia]. repeat (apply orb_false_iff; split); apply Z.eqb_neq; lia.
Qed.

Lemma print_value_head v :
  wf v -> exists c r, print_value v = String c r /\ head_ok c.
Proof.
  destruct v as [| [] | lit | s | l | l]; simpl; intros Hwf;
    try (eexists _, _; split; [reflexivity | unfold head_ok; vm_compute; naive_solver]).
  destruct (num_ok_head lit Hwf) as (c & r & -> & Hc). exists c, r. split; [done|].
  by apply digit_head_ok.
Qed.

Lemma after_ws_is_head b c r :
  is_ws c = false -> byte_of c <> b -> after_ws_is b (String c r) = None.
Proof. intros H1 H2. unfold after_ws_is. simpl. rewrite H1. by rewrite (proj2 (Z.eqb_neq _ _) H2). Qed.

(** An encoded string, opened by its quote, is read back up to its
    closing quote. *)
Lemma append_string_split s t :
  exists tail, (append_string s ++ t)%string = String dquote tail /\
               unquote_loop (String.length tail) tail = Some (to_valid s, t).
Proof.
  pose proof (read_append_string s t) as H. unfold append_string in *.
  rewrite sapp_cons in *. eexists. split; [reflexivity|]. exact H.
Qed.

Definition member_text (kx : string * jvalue) : string :=
  let '(k, x) := kx in (append_string k ++ String ":"%char (print_value x))%string.

Definition norm_member (kx : string * jvalue) : string * jvalue :=
  let '(k, x) := kx in (to_valid k, norm x).

Lemma print_object l : print_value (JObject l) = String "{"%char (join (map member_text l) ++ "}")%string.
Proof. reflexivity. Qed.

Lemma norm_object l : norm (JObject l) = JObject (map norm_member l).
Proof. reflexivity. Qed.

Lemma join_cons2 a b l : join (a :: b :: l) = (a ++ String comma (join (b :: l)))%string.
Proof. reflexivity. Qed.

Lemma join_cons_prefix a l : exists u, join (a :: l) = (a ++ u)%string.
Proof. destruct l; [exists EmptyString; by rewrite sapp_nil_r | eexists; reflexivity]. Qed.

Ltac solve_delim :=
  first [ assumption | exact I | simpl; first [ left; reflexivity | right; left; reflexivity
                                              | right; right; reflexivity ] ].

(** The elements of an array, up to its closing bracket. *)
Lemma parse_elems_join l acc fuel t :
  Forall parses l -> Forall wf l -> l <> [] -> (jsize (JArray l) <= fuel)%nat -> delim t ->
  parse_elems fuel (join (map print_value l) ++ String "]"%char t)%string acc
  = Some (JArray (acc ++ map norm l), t).
Proof.
  revert acc fuel. induction l as [|x l IH]; intros acc fuel Hp Hw Hne Hf Ht; [done|].
  apply Forall_cons in Hp as [Hx Hp]. apply Forall_cons in Hw as [Hwx Hw].
  rewrite jsize_array_cons in Hf. pose proof (jsize_pos (JArray l)).
  destruct fuel as [|f]; [lia|]. cbn [parse_elems].
  destruct l as [|y l'].
  - cbn [map join]. rewrite (Hx f (String "]"%char t)) by (lia || solve_delim). reflexivity.
  - replace (join (map print_value (x :: y :: l')))
      with (print_value x ++ String comma (join (map print_value (y :: l'))))%string
      by reflexivity.
    rewrite sapp_assoc, sapp_cons.
    rewrite (Hx f) by (lia || solve_delim). cbn [skip_ws is_ws byte_of comma]. simpl.
    rewrite IH by (done || lia). by rewrite <- app_assoc.
Qed.

(** The members of an object, up to its closing brace. *)
Lemma parse_members_join l acc fuel t :
  Forall (fun kx => parses kx.2) l -> Forall (fun kx => wf kx.2) l -> l <> [] ->
  (jsize (JObject l) <= fuel)%nat -> delim t ->
  parse_members fuel (join (map member_text l) ++ String "}"%char t)%string acc
  = Some (JObject (acc ++ map norm_member l), t).
Proof.
  revert acc fuel. induction l as [|[k x] l IH]; intros acc fuel Hp Hw Hne Hf Ht; [done|].
  apply Forall_cons in Hp as [Hx Hp]. apply Forall_cons in Hw as [Hwx Hw]. simpl in Hx, Hwx.
  rewrite jsize_object_cons in Hf. pose proof (jsize_pos (JObject l)).
  destruct fuel as [|f]; [lia|].
  assert (forall R, delim R -> parse_members (S f) (member_text (k, x) ++ R)%string acc
            = match skip_ws R with
              | String c3 r4 =>
                  if byte_of c3 =? 0x2C then parse_members f r4 (acc ++ [(to_valid k, norm x)])
                  else if byte_of c3 =? 0x7D then Some (JObject (acc ++ [(to_valid k, norm x)]), r4)
                  else None
              | EmptyString => None
              end) as Hstep.
  { intros R HR. unfold member_text. rewrite sapp_assoc, sapp_cons.
    destruct (append_string_split k (String ":"%char (print_value x ++ R))) as (tail & Heq & Hu).
    rewrite Heq. cbn [parse_members]. simpl. rewrite Hu. simpl.
    rewrite (Hx f) by (lia || done). reflexivity. }
  destruct l as [|[k' y] l'].
  - cbn [map join]. rewrite Hstep by solve_delim. reflexivity.
  - replace (join (map member_text ((k, x) :: (k', y) :: l')))
      with (member_text (k, x) ++ String comma (join (map member_text ((k', y) :: l'))))%string
      by reflexivity.
    rewrite sapp_assoc, sapp_cons.
    rewrite Hstep by solve_delim. simpl.
    rewrite IH by (done || lia). by rewrite <- app_assoc.
Qed.

Lemma parse_value_array f X :
  parse_value (S f) (String "["%char X) =
  match after_ws_is 0x5D X with Some r => Some (JArray [], r) | None => parse_elems f X [] end.
Proof. reflexivity. Qed.

Lemma parse_value_object f X :
  parse_value (S f) (String "{"%char X) =
  match after_ws_is 0x7D X with Some r => Some (JObject [], r) | None => parse_members f X [] end.
Proof. reflexivity. Qed.

Lemma member_head_ok : head_ok dquote.
Proof. unfold head_ok. vm_compute. naive_solver. Qed.

(** The text of a non-empty array or object body never starts with its
    closing bracket or brace. *)
Lemma join_head_none b (l : list string) (X : string) :
  l <> [] -> Forall (fun a => exists c r, a = String c r /\ head_ok c /\ byte_of c <> b) l ->
  after_ws_is b (join l ++ X)%string = None.
Proof.
  intros Hne Hh. destruct l as [|a l]; [done|]. apply Forall_cons in Hh as [(c & r & -> & [Hws _] & Hb) _].
  destruct (join_cons_prefix (String c r) l) as [u ->].
  rewrite sapp_assoc, sapp_cons. by apply after_ws_is_head.
Qed.

(** Every value the encoder writes is read back as its [norm]. *)
Lemma parse_print v : wf v -> parses v.
Proof.
  induction v as [| b | lit | s | l IH | l IH] using jvalue_ind';
    intros Hwf fuel t Hf Ht; (destruct fuel as [|f]; [simpl in Hf; lia|]).
  - reflexivity.
  - destruct b; reflexivity.
  - destruct (num_ok_head lit Hwf) as (c & r & -> & Hc).
    destruct (digit_head_ok c Hc) as [Hws _].
    assert (0x2D <= byte_of c <= 0x39).
    { destruct Hc as [Hc|Hc]; [lia|]. unfold is_digit in Hc.
      apply andb_true_iff in Hc as [H1 H2]. apply Z.leb_le in H1, H2. lia. }
    simpl print_value. rewrite sapp_cons. cbn [parse_value skip_ws]. rewrite Hws.
    repeat match goal with |- context [byte_of c =? ?k] =>
      rewrite (proj2 (Z.eqb_neq (byte_of c) k)) by lia end.
    rewrite <- sapp_cons, (Hwf t Ht). reflexivity.
  - destruct (append_string_split s t) as (tail & Heq & Hu).
    simpl print_value. rewrite Heq. cbn [parse_value]. simpl. by rewrite Hu.
  - apply wf_array in Hwf.
    assert (Forall parses l) as Hp by (rewrite Forall_forall in *; naive_solver).
    destruct l as [|x l']; [reflexivity|].
    change (print_value (JArray (x :: l')))
      with (String "["%char (join (map print_value (x :: l')) ++ "]"))%string.
    rewrite sapp_cons, sapp_assoc, sapp_cons, sapp_nil_l, parse_value_array.
    rewrite join_head_none.
    + rewrite parse_elems_join by (done || simpl in Hf |- *; lia). reflexivity.
    + done.
    + apply Forall_forall. intros a Ha. apply list_elem_of_In, in_map_iff in Ha as (y & <- & Hy).
      destruct (print_value_head y) as (c & r & -> & Hc).
      { eapply Forall_forall; [exact Hwf|]. by apply list_elem_of_In. }
      exists c, r. split_and!; [done|done|apply Hc].
  - apply wf_object in Hwf.
    assert (Forall (fun kx => parses kx.2) l) as Hp by (rewrite Forall_forall in *; naive_solver).
    destruct l as [|[k x] l']; [reflexivity|].
    rewrite print_object, norm_object, sapp_cons, sapp_assoc, sapp_cons, sapp_nil_l.
    rewrite parse_value_object, join_head_none.
    + rewrite parse_members_join by (done || simpl in Hf |- *; lia). reflexivity.
    + done.
    + apply Forall_forall. intros a Ha. apply list_elem_of_In, in_map_iff in Ha as ([k' y] & <- & _).
      exists dquote, (escape_loop (String.length k') k' ++ String dquote EmptyString ++
                      String ":"%char (print_value y))%string.
      split_and!; [unfold member_text, append_string; by rewrite sapp_cons, sapp_assoc
                  |apply member_head_ok|vm_compute; lia].
Qed.

Lemma slength_cons c r : String.length (String c r) = S (String.length r).
Proof. reflexivity. Qed.

Lemma append_string_length k : (2 <= String.length (append_string k))%nat.
Proof. unfold append_string. rewrite slength_cons, slength_app. simpl. lia. Qed.

(** The parser needs no more calls than the text has bytes. *)
Lemma jsize_print v : wf v -> (jsize v <= String.length (print_value v))%nat.
Proof.
  induction v as [| b | lit | s | l IH | l IH] using jvalue_ind'; intros Hwf.
  - simpl. lia.
  - destruct b; simpl; lia.
  - destruct (num_ok_head lit Hwf) as (c & r & -> & _). simpl. lia.
  - pose proof (append_string_length s). simpl. lia.
  - apply wf_array in Hwf.
    change (print_value (JArray l)) with (String "["%char (join (map print_value l) ++ "]"))%string.
    rewrite slength_cons, slength_app. simpl String.length at 2.
    induction l as [|x l IHl]; [simpl; lia|].
    apply Forall_cons in IH as [Hx IH]. apply Forall_cons in Hwf as [Hwx Hwf].
    specialize (Hx Hwx). rewrite jsize_array_cons.
    destruct l as [|y l'].
    + simpl. lia.
    + specialize (IHl IH Hwf).
      replace (join (map print_value (x :: y :: l')))
        with (print_value x ++ String comma (join (map print_value (y :: l'))))%string
        by reflexivity.
      rewrite slength_app, slength_cons. lia.
  - apply wf_object in Hwf. rewrite print_object.
    rewrite slength_cons, slength_app. simpl String.length at 2.
    induction l as [|[k x] l IHl]; [simpl; lia|].
    apply Forall_cons in IH as [Hx IH]. apply Forall_cons in Hwf as [Hwx Hwf].
    simpl in Hx, Hwx. specialize (Hx Hwx). rewrite jsize_object_cons.
    pose proof (append_string_length k).
    assert (String.length (member_text (k, x)) = String.length (append_string k) + S (String.length (print_value x)))%nat
      as Hm by (unfold member_text; by rewrite slength_app, slength_cons).
    destruct l as [|[k' y] l'].
    + change (join (map member_text [(k, x)])) with (member_text (k, x)). simpl jsize. lia.
    + specialize (IHl IH Hwf).
      replace (join (map member_text ((k, x) :: (k', y) :: l')))
        with (member_text (k, x) ++ String comma (join (map member_text ((k', y) :: l'))))%string
        by reflexivity.
      rewrite slength_app, slength_cons. lia.
Qed.

(** ** The two structs through the wire *)

(** What a record looks like after the trip: every string through
    [to_valid]. *)
Definition valid_value (v : forecastValue) : forecastValue :=
  mkValue (to_valid (Name v)) (Value v).

Definition valid_forecast (f : forecast) : forecast :=
  mkForecast (to_valid (CityName f)) (to_valid (ForecastText f)) (map valid_value (Values f)).

(** Every measurement fits in an [int64]. *)
Definition values_in_range (fs : list forecast) : Prop :=
  Forall (fun f => Forall (fun v => in_int64 (Value v)) (Values f)) fs.

Lemma mapM_option_map {A B C} (f : B -> option C) (h : A -> B) (g : A -> C) l :
  Forall (fun x => f (h x) = Some (g x)) l -> mapM f (map h l) = Some (map g l).
Proof. induction 1 as [|x l Hx _ IH]; [done|]. simpl. by rewrite Hx, IH. Qed.

Lemma wf_to_json fs : values_in_range fs -> wf (to_json fs).
Proof.
  intros Hr. unfold to_json. apply wf_array. apply Forall_forall.
  intros x Hx. apply list_elem_of_In, in_map_iff in Hx as (f & <- & Hf).
  apply list_elem_of_In in Hf. pose proof (proj1 (Forall_forall _ _) Hr f Hf) as Hv.
  unfold forecast_json. simpl. split_and!; [done|done| |done].
  apply wf_array, Forall_forall. intros y Hy. apply list_elem_of_In, in_map_iff in Hy as (v & <- & Hv').
  apply list_elem_of_In in Hv'. pose proof (proj1 (Forall_forall _ _) Hv v Hv').
  simpl. split_and!; [done| |done]. intros t Ht. by apply scan_format_int.
Qed.

Lemma decode_value_json v :
  in_int64 (Value v) -> decode_value (norm (value_json v)) = Some (valid_value v).
Proof.
  intros Hv. unfold value_json, norm. cbn [map].
  change (to_valid "name") with "name". change (to_valid "value") with "value".
  unfold decode_value, decode_members. unfold value_member at 1. simpl.
  unfold value_member. simpl. unfold decode_int_field. rewrite format_int_parse by done. reflexivity.
Qed.

Lemma decode_forecast_json f :
  Forall (fun v => in_int64 (Value v)) (Values f) ->
  decode_forecast (norm (forecast_json f)) = Some (valid_forecast f).
Proof.
  intros Hv. unfold forecast_json, norm. fold norm. cbn [map].
  change (to_valid "city_name") with "city_name". change (to_valid "forecast_text") with "forecast_text".
  change (to_valid "values") with "values".
  unfold decode_forecast, decode_members, forecast_member. simpl.
  rewrite map_map, (mapM_option_map _ _ valid_value).
  - reflexivity.
  - apply Forall_forall. intros v Hin. apply decode_value_json.
    by apply (proj1 (Forall_forall _ _) Hv).
Qed.

Lemma unmarshal_marshal_valid fs :
  values_in_range fs -> unmarshal (marshal fs) = Some (map valid_forecast fs).
Proof.
  intros Hr. pose proof (wf_to_json fs Hr) as Hwf. unfold unmarshal, marshal.
  pose proof (parse_print (to_json fs) Hwf (S (String.length (print_value (to_json fs)))) EmptyString)
    as Hp.
  rewrite sapp_nil_r in Hp. rewrite Hp by (pose proof (jsize_print _ Hwf); (lia || exact I)).
  rewrite bool_decide_eq_true_2 by done. unfold to_json, decode_forecasts, decode_list, norm.
  fold norm. rewrite map_map. apply (mapM_option_map _ _ valid_forecast).
  apply Forall_forall. intros f Hf. apply decode_forecast_json. by apply (proj1 (Forall_forall _ _) Hr).
Qed.

(** Every string of the records is valid UTF-8. *)
Definition strings_valid (fs : list forecast) : Prop :=
  Forall (fun f => valid_utf8 (CityName f) = true /\ valid_utf8 (ForecastText f) = true /\
                   Forall (fun v => valid_utf8 (Name v) = true) (Values f)) fs.

Lemma valid_forecasts_id fs : strings_valid fs -> map valid_forecast fs = fs.
Proof.
  induction 1 as [|[c t vs] fs (Hc & Ht & Hvs) _ IH]; [done|]. simpl in *.
  rewrite IH. unfold valid_forecast. simpl. rewrite (proj2 (to_valid_id c) Hc), (proj2 (to_valid_id t) Ht).
  f_equal. f_equal. induction Hvs as [|[n z] vs Hn _ IHv]; [done|]. simpl in *.
  unfold valid_value at 1. simpl. by rewrite (proj2 (to_valid_id n) Hn), IHv.
Qed.

(** C28. [json.Unmarshal] of what [c.JSON] writes for a cached [[]forecast]
    gives the records back, field for field, with every string made valid
    UTF-8 (each invalid byte replaced by U+FFFD), whenever every value fits
    in an [int64]. *)
Theorem marshal_roundtrip fs :
  values_in_range fs -> unmarshal (marshal fs) = Some (map valid_forecast fs).
Proof. apply unmarshal_marshal_valid. Qed.

(** The round trip of the specification: when every string of the
    records is valid UTF-8, decoding the wire text gives exactly the
    records that were encoded. *)
Theorem marshal_roundtrip_exact fs :
  values_in_range fs -> strings_valid fs -> unmarshal (marshal fs) = Some fs.
Proof. intros Hr Hv. rewrite unmarshal_marshal_valid by done. by rewrite valid_forecasts_id. Qed.

(** Whatever the page, a snapshot the extractor publishes survives the
    wire: its values are always in range, so only its strings can change,
    and only where they are not valid UTF-8. *)
Theorem extract_wire_roundtrip doc fs :
  extract doc = Ok fs -> unmarshal (marshal fs) = Some (map valid_forecast fs).
Proof. intros H. apply unmarshal_marshal_valid. by eapply extract_Ok_in_range. Qed.

Lemma map_valid_forecast_id fs : map valid_forecast fs = fs -> strings_valid fs.
Proof.
  induction fs as [|[c t vs] fs IH]; intros H; constructor; simpl in H; injection H as Hc Ht Hvs Hfs.
  - split_and!; [by apply to_valid_id|by apply to_valid_id|].
    clear Hc Ht Hfs IH. induction vs as [|[n z] vs IHv]; constructor; simpl in Hvs; injection Hvs as Hn Hv.
    + by apply to_valid_id.
    + by apply IHv.
  - by apply IH.
Qed.

(** C31. For records whose values fit in [int64], the wire round trip is
    exact if and only if every string in them is valid UTF-8. *)
Theorem marshal_exact_iff fs :
  values_in_range fs -> (unmarshal (marshal fs) = Some fs <-> strings_valid fs).
Proof.
  intros Hr. rewrite unmarshal_marshal_valid by done. split.
  - intros [= H]. by apply map_valid_forecast_id.
  - intros Hv. by rewrite valid_forecasts_id.
Qed.

(** One measurement through the wire: the object [json.Marshal] writes
    for a [forecastValue] (its [name] and its [value] through
    [strconv.AppendInt]) decodes back to the same value and name, the name
    made valid UTF-8, for every [int64] value. *)
Theorem value_json_roundtrip v :
  in_int64 (Value v) -> decode_value (norm (value_json v)) = Some (valid_value v).
Proof. apply decode_value_json. Qed.

(** C29. The [value] member of every measurement is the plain decimal text
    of its [int64]: [strconv.AppendInt]'s fast path and two-digits-per-turn
    [formatBits] write exactly what the one-digit-at-a-time reference
    [dec_string] writes. *)
Theorem format_int_reference z :
  in_int64 z ->
  format_int z = dec_string z /\
  forall n, value_json (mkValue n z) = JObject [("name", JString n); ("value", JNumber (dec_string z))].
Proof. intros Hz. rewrite <- (format_int_dec z Hz). split; reflexivity. Qed.

Module WireScenarios.
Import Dom Extract.Scenarios.

(** A city name with the byte [0xFF], which is not UTF-8, as the page
    would give it if it were served in Latin-1. *)
Definition latin1_city : string := String (Ascii.ascii_of_nat 255) EmptyString.

(** The round trip is not exact on strings that are not UTF-8: the
    city name [0xFF] comes back as the three bytes of U+FFFD. *)
Example invalid_utf8_not_preserved :
  unmarshal (marshal [mkForecast latin1_city "" []])
  = Some [mkForecast (String (Ascii.ascii_of_nat 239) (String (Ascii.ascii_of_nat 191)
                       (String (Ascii.ascii_of_nat 189) EmptyString))) "" []]
  /\ unmarshal (marshal [mkForecast latin1_city "" []]) <> Some [mkForecast latin1_city "" []].
Proof. split; [reflexivity | vm_compute; congruence]. Qed.

Lemma marshal_roundtrip_witness :
  values_in_range [mkForecast "Aarhus" "x" [mkValue "Birk" 12]] /\
  unmarshal (marshal [mkForecast "Aarhus" "x" [mkValue "Birk" 12]])
  = Some (map valid_forecast [mkForecast "Aarhus" "x" [mkValue "Birk" 12]]).
Proof.
  assert (values_in_range [mkForecast "Aarhus" "x" [mkValue "Birk" 12]]) as H
    by (repeat constructor; unfold in_int64, min_int64, max_int64; simpl; lia).
  split; [exact H | apply (marshal_roundtrip _ H)].
Defined.

Lemma marshal_roundtrip_exact_witness :
  unmarshal (marshal [mkForecast "Aarhus" "x" [mkValue "El" (-3)]])
  = Some [mkForecast "Aarhus" "x" [mkValue "El" (-3)]].
Proof.
  apply marshal_roundtrip_exact.
  - repeat constructor; unfold in_int64, min_int64, max_int64; simpl; lia.
  - repeat constructor; vm_compute; reflexivity.
Defined.

Lemma extract_wire_roundtrip_witness :
  exists fs, extract (dmi_page [aarhus]) = Ok fs /\ unmarshal (marshal fs) = Some (map valid_forecast fs).
Proof.
  eexists. split; [vm_compute; reflexivity|]. apply (extract_wire_roundtrip (dmi_page [aarhus])).
  vm_compute. reflexivity.
Defined.

Lemma marshal_exact_iff_witness :
  values_in_range [mkForecast "Odense" "lav" []] /\
  (unmarshal (marshal [mkForecast "Odense" "lav" []]) = Some [mkForecast "Odense" "lav" []] <->
   strings_valid [mkForecast "Odense" "lav" []]).
Proof.
  assert (values_in_range [mkForecast "Odense" "lav" []]) as H by repeat constructor.
  split; [exact H | apply (marshal_exact_iff _ H)].
Defined.

Lemma value_json_roundtrip_witness :
  in_int64 (Value (mkValue "Graes" (- 2 ^ 63))) /\
  decode_value (norm (value_json (mkValue "Graes" (- 2 ^ 63)))) = Some (valid_value (mkValue "Graes" (- 2 ^ 63))).
Proof.
  assert (in_int64 (Value (mkValue "Graes" (- 2 ^ 63)))) as H
    by (unfold in_int64, min_int64, max_int64; simpl; lia).
  split; [exact H | apply (value_json_roundtrip _ H)].
Defined.

Lemma format_int_reference_witness :
  in_int64 (-9223372036854775808) /\
  format_int (-9223372036854775808) = dec_string (-9223372036854775808) /\
  (forall n, value_json (mkValue n (-9223372036854775808)) =
             JObject [("name", JString n); ("value", JNumber (dec_string (-9223372036854775808)))]).
Proof.
  assert (Hz : in_int64 (-9223372036854775808))
    by (unfold in_int64, min_int64, max_int64; lia).
  split; [exact Hz|]. exact (format_int_reference _ Hz).
Defined.

(** The reference's text for the smallest [int64]. *)
Example min_int64_text : dec_string (-9223372036854775808) = "-9223372036854775808".
Proof. vm_compute. reflexivity. Qed.

End WireScenarios.

End Marshal.
