(* ===== verification/HtmlSafe.v ===== *)
(** * The response body is safe to embed in HTML

    [c.JSON] encodes with [escapeHTML] on: [appendString] writes [<], [>]
    and [&] as the escapes [\u003c], [\u003e], [\u0026], every control byte below
    [0x20] as an escape, and copies a multi-byte rune only when it decodes
    without error.  So the body of every [GET /api] response (part_000
    line 73, part_001 line 53, main.go line 40) holds no raw [<], [>], [&]
    and no control byte, whatever the scraped strings hold: it can be
    placed inside an HTML [script] element as it is.  This file states
    that property of a text ([html_clean]) and proves it of [marshal],
    piece by piece: the string escaper, the integer printer and the value
    printer. *)

From S2P Require Import Prelude GoStrconv Utf8 Itoa Json Extract Marshal.
Local Open Scope Z_scope.

Module HtmlSafe.
Import Strconv Utf8 Itoa Json Extract Marshal.

(** A byte that may appear raw in HTML script content: not a control byte
    and none of [<], [>], [&]. *)
Definition html_clean_char (c : ascii) : bool :=
  let b := byte_of c in
  (0x20 <=? b) && negb (b =? 0x3C) && negb (b =? 0x3E) && negb (b =? 0x26).

Fixpoint html_clean (s : string) : bool :=
  match s with
  | EmptyString => true
  | String c rest => html_clean_char c && html_clean rest
  end.

(** A property of every number literal inside a value. *)
Fixpoint lits_all (P : string -> Prop) (v : jvalue) : Prop :=
  match v with
  | JNumber lit => P lit
  | JArray l =>
      (fix go (l : list jvalue) := match l with [] => True | x :: l' => lits_all P x /\ go l' end) l
  | JObject l =>
      (fix go (l : list (string * jvalue)) :=
         match l with [] => True | (_, x) :: l' => lits_all P x /\ go l' end) l
  | _ => True
  end.

(** ** Clean pieces *)

Lemma html_clean_app s t : html_clean (s ++ t) = html_clean s && html_clean t.
Proof. induction s as [|c s IH]; [done|]. rewrite sapp_cons. simpl. by rewrite IH, andb_assoc. Qed.

Create HintDb html_clean.
#[local] Hint Rewrite html_clean_app andb_true_r : html_clean.

(** A conjunction of byte comparisons, proved from their arithmetic. *)
Ltac zcmp :=
  repeat (apply andb_true_iff; split);
  first [ apply Z.leb_le | apply Z.ltb_lt | apply negb_true_iff, Z.eqb_neq ]; lia.

Lemma html_safe_clean c : html_safe (byte_of c) = true -> html_clean_char c = true.
Proof. unfold html_safe, html_clean_char. intros H. zbool. zcmp. Qed.

Lemma high_clean s : all_high s = true -> html_clean s = true.
Proof.
  induction s as [|c s IH]; [done|]. simpl. intros H. zbool.
  rewrite IH by done. unfold html_clean_char. rewrite andb_true_r. zcmp.
Qed.

Lemma digits_clean d : all_digits d = true -> html_clean d = true.
Proof.
  induction d as [|c d IH]; [done|]. simpl. unfold is_digit. intros H. zbool.
  rewrite IH by done. unfold html_clean_char. rewrite andb_true_r. zcmp.
Qed.

(** A byte-indexed table checked on every entry. *)
Lemma table_check (P : Z -> bool) (n : nat) (b : Z) :
  forallb (fun k => P (Z.of_nat k)) (seq 0 n) = true -> 0 <= b < Z.of_nat n -> P b = true.
Proof.
  intros H Hb. rewrite forallb_forall in H. rewrite <- (Z2Nat.id b) by lia.
  apply H, in_seq. lia.
Qed.

(** The escapes of the [switch], for every ASCII byte. *)
Lemma escape_byte_clean b : 0 <= b < 0x80 -> html_clean (escape_byte b) = true.
Proof. apply (table_check (fun b => html_clean (escape_byte b)) 128). vm_compute. reflexivity. Qed.

Lemma hex_clean d : 0 <= d < 16 -> html_clean_char (hex d) = true.
Proof. apply (table_check (fun d => html_clean_char (hex d)) 16). vm_compute. reflexivity. Qed.

Lemma land_f_range r : 0 <= Z.land r 0xF < 16.
Proof. change 0xF with (2 ^ 4 - 1). rewrite land_mask by lia. apply Z.mod_pos_bound. lia. Qed.

(** ** The string escaper *)

Lemma escape_loop_clean f : forall s, html_clean (escape_loop f s) = true.
Proof.
  induction f as [|f IH]; intros [|c rest]; try done. cbn [escape_loop].
  pose proof (byte_of_range c) as Hc.
  destruct (byte_of c <? rune_self) eqn:Hb; unfold rune_self in Hb; zbool.
  { destruct (html_safe (byte_of c)) eqn:Hs.
    - simpl. by rewrite html_safe_clean, IH.
    - autorewrite with html_clean. by rewrite escape_byte_clean, IH by lia. }
  destruct (decode_rune (stake 4 (String c rest))) as [r size] eqn:Hd.
  rewrite decode_rune_stake4 in Hd.
  destruct ((r =? rune_error) && (size =? 1)%nat) eqn:He.
  { autorewrite with html_clean. rewrite IH. reflexivity. }
  destruct ((r =? 0x2028) || (r =? 0x2029)).
  { autorewrite with html_clean. simpl. by rewrite hex_clean, IH by apply land_f_range. }
  autorewrite with html_clean. rewrite IH, high_clean; [done|].
  apply (decode_rune_high c rest r size); [lia|done|].
  intros [-> ->]. rewrite Z.eqb_refl in He. discriminate.
Qed.

Lemma append_string_clean s : html_clean (append_string s) = true.
Proof. unfold append_string. simpl. autorewrite with html_clean. by rewrite escape_loop_clean. Qed.

Lemma format_int_clean z : html_clean (format_int z) = true.
Proof.
  destruct (format_int_chars z) as (d & Hd & ->).
  destruct (z <? 0); simpl; apply digits_clean, Hd.
Qed.

(** ** The value printer *)

(** A property of texts that concatenation keeps and that the printer's
    punctuation, keywords and strings have holds of every printed value
    whose number literals have it. *)
Lemma lits_all_array P l : lits_all P (JArray l) <-> Forall (lits_all P) l.
Proof. induction l; simpl; [by split|]. rewrite Forall_cons. naive_solver. Qed.

Lemma lits_all_object P l : lits_all P (JObject l) <-> Forall (fun kx => lits_all P kx.2) l.
Proof. induction l as [|[k x] l IH]; simpl; [by split|]. rewrite Forall_cons. naive_solver. Qed.

(** The encoder's values hold only literals written by [format_int]. *)
Lemma to_json_lits (P : string -> Prop) fs : (forall z, P (format_int z)) -> lits_all P (to_json fs).
Proof.
  intros HP. apply lits_all_array, Forall_map, Forall_forall. intros [c t vs] _.
  apply lits_all_object. repeat constructor. simpl.
  apply lits_all_array, Forall_map, Forall_forall. intros [n x] _.
  apply lits_all_object. repeat constructor. apply HP.
Qed.

Section Printer.
Variable Q : string -> Prop.
Hypothesis Q_app : forall s t, Q s -> Q t -> Q (s ++ t).
Hypothesis Q_tokens : Forall Q ["null"; "true"; "false"; "["; "]"; "{"; "}"; ","; ":"].
Hypothesis Q_string : forall s, Q (append_string s).

Lemma Q_token t : t ∈ ["null"; "true"; "false"; "["; "]"; "{"; "}"; ","; ":"] -> Q t.
Proof. pose proof Q_tokens as H. rewrite Forall_forall in H. apply H. Qed.

Lemma join_all l : Forall Q l -> Q (join l) \/ l = [].
Proof.
  induction 1 as [|x l Hx Hl IH]; [by right|left]. destruct l as [|y l]; [done|].
  rewrite join_cons2. apply Q_app; [done|].
  change (Q ("," ++ join (y :: l))%string). apply Q_app; [apply Q_token; set_solver|].
  by destruct IH.
Qed.

(** The brackets around a joined list. *)
Lemma bracket_all (o c : ascii) l :
  Q (String o EmptyString) -> Q (String c EmptyString) -> Forall Q l ->
  Q (String o (join l ++ String c EmptyString)).
Proof.
  intros Ho Hc Hl. change (Q (String o EmptyString ++ (join l ++ String c EmptyString))%string).
  apply Q_app; [done|]. destruct (join_all l Hl) as [Hj| ->]; [by apply Q_app|done].
Qed.

Lemma print_value_all v : lits_all Q v -> Q (print_value v).
Proof.
  induction v as [| [] | lit | s | l IH | l IH] using jvalue_ind'; intros Hv;
    try (apply Q_token; set_solver); try apply Q_string; try done.
  - apply lits_all_array in Hv. apply bracket_all; try (apply Q_token; set_solver).
    apply Forall_map. induction IH as [|x l Hx _ IHl]; [done|].
    inversion Hv; subst. constructor; auto.
  - apply lits_all_object in Hv. apply bracket_all; try (apply Q_token; set_solver).
    apply Forall_map. induction IH as [|[k x] l Hx _ IHl]; [done|].
    inversion Hv; subst. constructor; auto. simpl in *.
    apply Q_app; [done|]. change (Q (":" ++ print_value x)%string).
    apply Q_app; [apply Q_token; set_solver|auto].
Qed.
End Printer.

Lemma print_value_clean v :
  lits_all (fun lit => html_clean lit = true) v -> html_clean (print_value v) = true.
Proof.
  apply print_value_all.
  - intros s t Hs Ht. by rewrite html_clean_app, Hs, Ht.
  - repeat constructor.
  - apply append_string_clean.
Qed.

(** C34. The body [c.JSON] writes for any list of forecasts holds no raw
    [<], [>] or [&] and no byte below [0x20], whatever bytes the scraped
    city names, texts and value names contain. *)
Theorem marshal_html_clean fs : html_clean (marshal fs) = true.
Proof. apply print_value_clean, to_json_lits, format_int_clean. Qed.

(** A text between double quotes. *)
Definition quoted (s : string) : string := String dquote (s ++ String dquote EmptyString).

(** A city name that would close a [script] element, followed by a tab,
    and a forecast text with [&] are written with their escapes. *)
Example script_city_escaped :
  marshal [{| CityName := "</script>" ++ String "009"%char EmptyString; ForecastText := "A&B";
              Values := [] |}]
  = ("[{" ++ quoted "city_name" ++ ":" ++ quoted "\u003c/script\u003e\t" ++ ","
     ++ quoted "forecast_text" ++ ":" ++ quoted "A\u0026B" ++ ","
     ++ quoted "values" ++ ":[]}]")%string.
Proof. vm_compute. reflexivity. Qed.

End HtmlSafe.
