(* ===== verification/Runes.v ===== *)
(** * The response body read as runes

    Go's encoder escapes U+2028 and U+2029 and repairs invalid UTF-8 so
    that its output can be embedded in JavaScript: the text is valid UTF-8
    and, read rune by rune, holds neither line separator.  This file
    defines the rune sequence of a text, as [for _, r := range s] yields
    it ([runes]), proves how [valid_utf8] and [runes] split over a
    concatenation whose left part is valid, and proves that every body
    [marshal] writes has both properties. *)

From S2P Require Import Prelude GoStrconv Utf8 Itoa Json Extract Marshal HtmlSafe.
Local Open Scope Z_scope.

Module Runes.
Import Strconv Utf8 Itoa Json Extract Marshal HtmlSafe.

(** [for _, r := range s]: the decoded runes, [RuneError] for each
    invalid byte. *)
Fixpoint runes_loop (fuel : nat) (s : string) : list Z :=
  match fuel with
  | O => []
  | S f =>
      match s with
      | EmptyString => []
      | String _ _ => let '(r, n) := decode_rune s in r :: runes_loop f (sdrop n s)
      end
  end.

Definition runes (s : string) : list Z := runes_loop (String.length s) s.

(** Safe inside a JavaScript string: valid UTF-8, and no rune is a line
    or paragraph separator. *)
Definition js_safe (s : string) : Prop :=
  valid_utf8 s = true /\ Forall (fun r => r <> 0x2028 /\ r <> 0x2029) (runes s).

Fixpoint all_ascii (s : string) : bool :=
  match s with
  | EmptyString => true
  | String c rest => (byte_of c <? 0x80) && all_ascii rest
  end.

(** ** Fuel *)

Lemma sdrop_shorter s r n :
  s <> EmptyString -> decode_rune s = (r, n) ->
  (String.length (sdrop n s) < String.length s)%nat.
Proof.
  intros Hs Hd. pose proof (decode_rune_size s r n Hd Hs). rewrite slength_sdrop. lia.
Qed.

Lemma valid_loop_fuel2 f1 : forall f2 s,
  (String.length s <= f1)%nat -> (String.length s <= f2)%nat -> valid_loop f1 s = valid_loop f2 s.
Proof.
  induction f1 as [|f1 IH]; intros [|f2] [|c rest] H1 H2; simpl in H1, H2; try done; try lia.
  cbn [valid_loop]. destruct (decode_rune (String c rest)) as [r n] eqn:Hd.
  pose proof (sdrop_shorter (String c rest) r n ltac:(discriminate) Hd). simpl in *.
  destruct (_ && _); [done|]. apply IH; lia.
Qed.

Lemma runes_loop_fuel2 f1 : forall f2 s,
  (String.length s <= f1)%nat -> (String.length s <= f2)%nat -> runes_loop f1 s = runes_loop f2 s.
Proof.
  induction f1 as [|f1 IH]; intros [|f2] [|c rest] H1 H2; simpl in H1, H2; try done; try lia.
  cbn [runes_loop]. destruct (decode_rune (String c rest)) as [r n] eqn:Hd.
  pose proof (sdrop_shorter (String c rest) r n ltac:(discriminate) Hd). simpl in *.
  f_equal. apply IH; lia.
Qed.

(** One rune at a time, whatever the fuel. *)
Lemma valid_utf8_step s r n :
  s <> EmptyString -> decode_rune s = (r, n) ->
  valid_utf8 s = if (r =? rune_error) && (n =? 1)%nat then false else valid_utf8 (sdrop n s).
Proof.
  intros Hs Hd. pose proof (sdrop_shorter _ _ _ Hs Hd).
  destruct s as [|c rest]; [done|]. unfold valid_utf8 at 1. simpl String.length.
  cbn [valid_loop]. rewrite Hd. case_match; [done|]. apply valid_loop_fuel2; simpl in *; lia.
Qed.

Lemma runes_step s r n :
  s <> EmptyString -> decode_rune s = (r, n) -> runes s = r :: runes (sdrop n s).
Proof.
  intros Hs Hd. pose proof (sdrop_shorter _ _ _ Hs Hd).
  destruct s as [|c rest]; [done|]. unfold runes at 1. simpl String.length.
  cbn [runes_loop]. rewrite Hd. f_equal. apply runes_loop_fuel2; simpl in *; lia.
Qed.

(** ** Concatenation *)

Lemma sdrop_app_le n s t :
  (n <= String.length s)%nat -> sdrop n (s ++ t) = (sdrop n s ++ t)%string.
Proof. revert s. induction n as [|n IH]; intros [|c s] H; simpl in *; auto with lia. Qed.

Lemma slength_stake n s : (n <= String.length s)%nat -> String.length (stake n s) = n.
Proof. revert s. induction n as [|n IH]; intros [|c s] H; simpl in *; auto with lia. Qed.

Lemma valid_rune s r n :
  s <> EmptyString -> decode_rune s = (r, n) -> valid_utf8 s = true ->
  ~ (r = rune_error /\ n = 1%nat).
Proof.
  intros Hs Hd Hv [-> ->]. rewrite (valid_utf8_step s _ _ Hs Hd), Z.eqb_refl in Hv. discriminate.
Qed.

(** After a valid text, decoding goes on rune by rune into what follows:
    [valid_utf8] and [runes] split at the boundary. *)
Lemma valid_app_aux k : forall s t,
  (String.length s <= k)%nat -> valid_utf8 s = true ->
  valid_utf8 (s ++ t) = valid_utf8 t /\ runes (s ++ t) = runes s ++ runes t.
Proof.
  induction k as [|k IH]; intros s t Hk Hv;
    (destruct s as [|c rest]; [done|]); [simpl in Hk; lia|].
  set (s := String c rest) in *. assert (Hs : s <> EmptyString) by discriminate.
  destruct (decode_rune s) as [r n] eqn:Hd.
  pose proof (valid_rune s r n Hs Hd Hv) as Hne.
  destruct (decode_rune_cases s r n Hd Hs) as [?|(_ & _ & Hsplit & Hn)]; [done|].
  pose proof (sdrop_shorter s r n Hs Hd).
  assert (Hd' : decode_rune (s ++ t) = (r, n)).
  { rewrite Hsplit, sapp_assoc. apply decode_rune_app; done. }
  assert (Hst : (s ++ t)%string <> EmptyString) by (unfold s; rewrite sapp_cons; discriminate).
  rewrite (valid_utf8_step s r n Hs Hd), not_error_flag in Hv by done.
  rewrite (valid_utf8_step _ r n Hst Hd'), not_error_flag by done.
  rewrite (runes_step _ r n Hst Hd'), (runes_step s r n Hs Hd), sdrop_app_le by lia.
  assert (String.length (sdrop n s) <= k)%nat as Hk' by (simpl in *; lia).
  destruct (IH (sdrop n s) t Hk' Hv) as [H1 H2]. rewrite H1, H2. done.
Qed.

Lemma valid_app s t :
  valid_utf8 s = true ->
  valid_utf8 (s ++ t) = valid_utf8 t /\ runes (s ++ t) = runes s ++ runes t.
Proof. apply (valid_app_aux (String.length s)). done. Qed.

Lemma js_safe_app s t : js_safe s -> js_safe t -> js_safe (s ++ t).
Proof.
  intros [Hs Hrs] [Ht Hrt]. unfold js_safe. destruct (valid_app s t Hs) as [-> ->].
  split; [done|]. by apply Forall_app.
Qed.

(** A whole rune that is neither separator. *)
Lemma js_safe_rune s r n :
  s <> EmptyString -> decode_rune s = (r, n) -> ~ (r = rune_error /\ n = 1%nat) ->
  n = String.length s -> r <> 0x2028 -> r <> 0x2029 -> js_safe s.
Proof.
  intros Hs Hd Hne Hn H8 H9.
  assert (sdrop n s = EmptyString) as He
    by (pose proof (slength_sdrop n s); destruct (sdrop n s); simpl in *; [done|lia]).
  split.
  - by rewrite (valid_utf8_step s r n Hs Hd), not_error_flag, He.
  - rewrite (runes_step s r n Hs Hd), He. repeat constructor; done.
Qed.

Lemma js_safe_ascii s : all_ascii s = true -> js_safe s.
Proof.
  induction s as [|c s IH]; [by split|]. simpl. intros H. zbool.
  change (String c s) with (String c EmptyString ++ s)%string.
  apply js_safe_app; [|by apply IH].
  apply (js_safe_rune _ (byte_of c) 1); try done.
  - apply decode_rune_ascii_head. unfold rune_self. lia.
  - unfold rune_error. lia.
  - lia.
  - lia.
Qed.

(** ** The encoder's output *)

Lemma escape_byte_ascii b : 0 <= b < 0x80 -> all_ascii (escape_byte b) = true.
Proof. apply (table_check (fun b => all_ascii (escape_byte b)) 128). vm_compute. reflexivity. Qed.

Lemma hex_ascii d : 0 <= d < 16 -> all_ascii (String (hex d) EmptyString) = true.
Proof. apply (table_check (fun d => all_ascii (String (hex d) EmptyString)) 16). vm_compute. reflexivity. Qed.

Lemma digits_ascii d : all_digits d = true -> all_ascii d = true.
Proof.
  induction d as [|c d IH]; [done|]. simpl. unfold is_digit. intros H. zbool.
  rewrite IH by done. rewrite andb_true_r. apply Z.ltb_lt. lia.
Qed.

(** The rune [appendString] copies: the [size] bytes it decoded. *)
Lemma copied_rune_js s r n :
  s <> EmptyString -> decode_rune s = (r, n) -> ~ (r = rune_error /\ n = 1%nat) ->
  r <> 0x2028 -> r <> 0x2029 -> js_safe (stake n s).
Proof.
  intros Hs Hd Hne H8 H9.
  destruct (decode_rune_cases s r n Hd Hs) as [?|(_ & _ & _ & Hn)]; [done|].
  assert (Hl : String.length (stake n s) = n) by (apply slength_stake; lia).
  apply (js_safe_rune _ r n); try done.
  - intros He. rewrite He in Hl. simpl in Hl. lia.
  - rewrite <- (sapp_nil_r (stake n s)). by apply decode_rune_app.
Qed.

Lemma escape_loop_js f : forall s, js_safe (escape_loop f s).
Proof.
  induction f as [|f IH]; intros [|c rest]; try by split. cbn [escape_loop].
  pose proof (byte_of_range c) as Hc.
  destruct (byte_of c <? rune_self) eqn:Hb; unfold rune_self in Hb; zbool.
  { destruct (html_safe (byte_of c)).
    - change (String c ?x) with (String c EmptyString ++ x)%string.
      apply js_safe_app; [apply js_safe_ascii; simpl; rewrite andb_true_r; apply Z.ltb_lt; lia|auto].
    - apply js_safe_app; [apply js_safe_ascii, escape_byte_ascii; lia|auto]. }
  destruct (decode_rune (stake 4 (String c rest))) as [r size] eqn:Hd.
  rewrite decode_rune_stake4 in Hd.
  destruct ((r =? rune_error) && (size =? 1)%nat) eqn:He.
  { apply js_safe_app; [apply js_safe_ascii; reflexivity|auto]. }
  destruct ((r =? 0x2028) || (r =? 0x2029)) eqn:Hls.
  { change (String ?h ?x) with (String h EmptyString ++ x)%string. rewrite <- sapp_assoc.
    apply js_safe_app; [|auto]. apply js_safe_app; [apply js_safe_ascii; reflexivity|].
    apply js_safe_ascii, hex_ascii, land_f_range. }
  apply orb_false_iff in Hls as [H8 H9]. apply Z.eqb_neq in H8, H9.
  apply js_safe_app; [|auto]. apply (copied_rune_js _ r size); try done.
  intros [-> ->]. rewrite Z.eqb_refl in He. discriminate.
Qed.

Lemma append_string_js s : js_safe (append_string s).
Proof.
  unfold append_string. change (String dquote ?x) with (String dquote EmptyString ++ x)%string.
  apply js_safe_app; [apply js_safe_ascii; reflexivity|].
  apply js_safe_app; [apply escape_loop_js|apply js_safe_ascii; reflexivity].
Qed.

Lemma format_int_js z : js_safe (format_int z).
Proof.
  destruct (format_int_chars z) as (d & Hd & ->). apply js_safe_ascii.
  destruct (z <? 0); simpl; apply digits_ascii, Hd.
Qed.

(** C36. The body [c.JSON] writes for any list of forecasts is valid UTF-8,
    and none of its runes is U+2028 or U+2029, whatever bytes the scraped
    strings hold: invalid bytes are replaced and the separators escaped,
    so the body can be embedded in JavaScript source. *)
Theorem marshal_js_safe fs :
  valid_utf8 (marshal fs) = true /\
  Forall (fun r => r <> 0x2028 /\ r <> 0x2029) (runes (marshal fs)).
Proof.
  apply (print_value_all js_safe js_safe_app); [|apply append_string_js|].
  - repeat (apply List.Forall_cons; [apply js_safe_ascii; reflexivity|]). apply List.Forall_nil.
  - apply to_json_lits, format_int_js.
Qed.

(** A forecast text holding the three bytes of U+2028 is written with
    the escape [\u2028], and a city name holding the byte [0xFF] with
    [\ufffd]. *)
Example separator_escaped :
  marshal [{| CityName := String "255"%char EmptyString;
              ForecastText := String "226"%char (String "128"%char (String "168"%char EmptyString));
              Values := [] |}]
  = ("[{" ++ quoted "city_name" ++ ":" ++ quoted "\ufffd" ++ ","
     ++ quoted "forecast_text" ++ ":" ++ quoted "\u2028" ++ ","
     ++ quoted "values" ++ ":[]}]")%string.
Proof. vm_compute. reflexivity. Qed.

End Runes.
