(* ===== verification/Api.v ===== *)
(** * What the HTTP routes send, end to end

    The route handlers turn the result of [fetchCache] into a reply:

    - part_000, [r.GET("/api", ...)] (lines 60-74): on an error,
      [c.String(500, err.Error())]; otherwise the header
      [X-Cache-Timestamp] from [cacheTimestamp] and [c.JSON(200, output)];
    - part_001, [r.GET("/", ...)] (lines 43-54): the same without the
      header;
    - main.go, [r.GET("/", ...)] (lines 34-41): [c.AbortWithError(500, err)],
      which sets the status and writes no body, or [c.JSON(200, output)].

    A [reply] keeps the status, the value of [X-Cache-Timestamp] when the
    route sets it (the RFC 3339 text [Timefmt] writes) and the body.  The
    theorems of this file join the cache, the extractor and the wire
    format: in every reachable state, a request that has been answered
    got the cache-empty error, or a body that [json.Unmarshal] decodes into
    the records the extractor produced from some page; part_000's header
    reads back as a time set by a rebuild, never the zero time and never
    later than the clock.

    The file also models where the servers listen: [LISTEN_ADDR] when
    the variable is set, [":8080"] otherwise. *)

From S2P Require Import Prelude GoStrconv Dom Extract Cache Legacy Utf8 Itoa Timefmt Json Marshal.
Import Dom Extract.

Module Api.
Import Cache Marshal.

Record reply := mkReply {
  status : nat; content_type : option string; ts_header : option string; body : string }.

(** The [Content-Type] gin's renderers write: [render.String] for
    [c.String], [render.JSON] for [c.JSON].  [AbortWithError] writes only
    the status, so its reply has none. *)
Definition plain_type : string := "text/plain; charset=utf-8".
Definition json_type : string := "application/json; charset=utf-8".

(** [cacheTimestamp] as a [time.Time] in UTC: the zero time until the
    first stamp, then the clock reading of [time.Now()], in seconds since
    the Unix epoch. *)
Definition stamp_time (ts : option nat) : Z :=
  match ts with None => Timefmt.zero_time | Some c => Z.of_nat c end.

(** part_000, [GET /api]: the header is
    [cacheTimestamp.Format(time.RFC3339)]. *)
Definition api_reply (r : response) : reply :=
  match r with
  | Resp500 msg => mkReply 500 (Some plain_type) None msg
  | Resp200 output ts =>
      mkReply 200 (Some json_type) (Some (Timefmt.format_rfc3339 (stamp_time ts))) (marshal output)
  end.

(** part_000, [GET /] (lines 46-59): on an error the text [c.String]
    sends; otherwise [c.HTML] renders [index.html] with the snapshot and
    [cacheTimestamp.Format("15:04:05")].  The template is not among the
    sources, so the reply keeps the status and the data handed to it. *)
Inductive index_page :=
| IndexError (msg : string)
| IndexPage (output : list forecast) (cache_clock : string).

Definition index_reply (r : response) : nat * index_page :=
  match r with
  | Resp500 msg => (500, IndexError msg)
  | Resp200 output ts => (200, IndexPage output (Timefmt.format_clock (stamp_time ts)))
  end.

(** part_001, [GET /]. *)
Definition root_reply (r : response) : reply :=
  match r with
  | Resp500 msg => mkReply 500 (Some plain_type) None msg
  | Resp200 output _ => mkReply 200 (Some json_type) None (marshal output)
  end.

(** main.go, [GET /]: [AbortWithError] writes no body. *)
Definition legacy_reply (r : Legacy.lresponse) : reply :=
  match r with
  | Legacy.LResp500 _ => mkReply 500 None None EmptyString
  | Legacy.LResp200 output => mkReply 200 (Some json_type) None (marshal output)
  end.

(** The reply a variant's JSON route sends. *)
Definition json_reply (v : variant) (r : response) : reply :=
  if has_timestamp v then api_reply r else root_reply r.

(** A snapshot the extractor promised comes back from the wire. *)
Lemma promised_snapshot_decodes c :
  page_records c -> exists d fs, extract d = Ok fs /\ unmarshal (marshal c) = Some (map valid_forecast fs).
Proof.
  intros [d Hd]. apply extract_Ok_records in Hd.
  exists d, c. split; [done|]. apply unmarshal_marshal_valid. by eapply extract_Ok_in_range.
Qed.

(** ** The only error a handler sends *)

Definition msg_inv (s : state) : Prop :=
  Forall (fun t => forall m, t = Handler (HDone (Resp500 m)) -> m = cache_empty_msg) (threads s).

Section Served.
Context (v : variant).

Lemma msg_inv_thread_step s i o s' :
  msg_inv s -> thread_step v s i o = Some s' -> msg_inv s'.
Proof.
  unfold thread_step, msg_inv. intros Hinv Hs.
  destruct (exited s); [done|]. destruct (threads s !! i) as [t|] eqn:Ht; [|done].
  simpl in Hs. destruct t as [pc|pc|pc].
  - destruct (handler_step v (g s) pc) as [[[gl' pc'] new]|] eqn:E; simplify_eq/=.
    apply Forall_app. split.
    + apply Forall_insert; [done|]. intros m [= ->].
      unfold handler_step in E. destruct pc; try destruct (rlock _); try destruct (cache _);
        try destruct (has_timestamp v); simplify_eq/=; done.
    + unfold handler_step in E. destruct pc; try destruct (rlock _); try destruct (cache _);
        try destruct (has_timestamp v); simplify_eq/=; repeat constructor; done.
  - destruct (rebuild_step v (g s) pc o) as [[gl' pc']|] eqn:E; simplify_eq/=.
    by apply Forall_insert.
  - destruct (job_step v (g s) pc o) as [[[gl' pc'] fatal]|] eqn:E; simplify_eq/=.
    by apply Forall_insert.
Qed.

Lemma msg_inv_reachable s : reachable v s -> msg_inv s.
Proof.
  apply reachable_ind.
  - unfold msg_inv, init. simpl. repeat constructor. by destruct (job_waits_first v).
  - intros s1 s2 Hinv [[i o| |] Hl]; simpl in Hl; [by eapply msg_inv_thread_step| |];
      destruct (exited s1); simplify_eq/=; [done|].
    unfold msg_inv in *. simpl. apply Forall_app. split; [done|]. by repeat constructor.
Qed.

Lemma reply_body_marshal r c ts : r = Resp200 c ts -> body (json_reply v r) = marshal c.
Proof. intros ->. unfold json_reply. by destruct (has_timestamp v). Qed.

(** C32. End to end, for either variant of the cached server: in every
    reachable state, a request goroutine that has answered sent status 500
    with the cache-empty message as plain text, or status 200 with a
    JSON content type and a body that [json.Unmarshal] decodes into the records the extractor produced from
    some page (each string made valid UTF-8). *)
Theorem served_replies_decode s i r :
  reachable v s -> threads s !! i = Some (Handler (HDone r)) ->
  (status (json_reply v r) = 500 /\ content_type (json_reply v r) = Some plain_type /\
   body (json_reply v r) = cache_empty_msg) \/
  (status (json_reply v r) = 200 /\ content_type (json_reply v r) = Some json_type /\
   exists d fs, extract d = Ok fs /\ unmarshal (body (json_reply v r)) = Some (map valid_forecast fs)).
Proof.
  intros Hr Hi. destruct r as [m|c ts].
  - left. pose proof (Forall_lookup_1 _ _ _ _ (msg_inv_reachable s Hr) Hi m eq_refl) as ->.
    unfold json_reply. by destruct (has_timestamp v).
  - right. split_and!; [unfold json_reply; by destruct (has_timestamp v)..|].
    destruct (snap_inv_reachable v s Hr) as [_ Hth].
    pose proof (Forall_lookup_1 _ _ _ _ Hth Hi) as Hc. simpl in Hc.
    rewrite !Forall_singleton in Hc. rewrite (reply_body_marshal _ c ts) by done.
    by apply promised_snapshot_decodes.
Qed.

End Served.
(** ** The [X-Cache-Timestamp] header of part_000 *)

(** A stamp taken before the end of year 9999 is written with a
    four-digit year and reads back as itself. *)
Lemma stamp_header_parses k :
  (Z.of_nat k < 253402300800)%Z ->
  Timefmt.parse_rfc3339 (Timefmt.format_rfc3339 (stamp_time (Some k))) = Some (Z.of_nat k).
Proof.
  intros Hk. apply Timefmt.parse_format_rfc3339.
  pose proof (proj1 (Timefmt.year_range (Z.of_nat k))) as Hy.
  unfold Timefmt.zero_time in Hy. simpl. lia.
Qed.

(** C18. The header of every answered [GET /api] request (part_000,
    line 70) is an RFC 3339 text that a client reads back as a time set by
    a rebuild: never the zero [time.Time], and not later than the current
    clock, as long as the clock has not passed the year 9999. *)
Theorem api_header_parses s i r :
  reachable part_000 s -> (Z.of_nat (clock (g s)) < 253402300800)%Z ->
  threads s !! i = Some (Handler (HDone r)) -> status (api_reply r) = 200 ->
  exists h t, ts_header (api_reply r) = Some h /\ Timefmt.parse_rfc3339 h = Some t /\
    (0 <= t <= Z.of_nat (clock (g s)))%Z.
Proof.
  intros Hr Hclk Hi Hst. destruct r as [m|c ts]; [done|].
  destruct (stamped_inv_reachable part_000 s eq_refl Hr) as [_ Hset].
  destruct (stamp_inv_reachable part_000 s Hr) as [_ Hle].
  destruct (Forall_lookup_1 _ _ _ _ Hset Hi c ts eq_refl) as [k ->].
  pose proof (Forall_lookup_1 _ _ _ _ Hle Hi k eq_refl) as Hk.
  eexists _, _. split; [reflexivity|]. rewrite stamp_header_parses by lia. split; [reflexivity|lia].
Qed.

(** ** The listen address

    [os.LookupEnv("LISTEN_ADDR")] reports a variable that is set, even to
    the empty string; only an unset variable gives [":8080"] (part_000
    lines 75-78, part_001 lines 55-58).  [r.Run(listenAddr)] passes the
    one address to [http.ListenAndServe], whose [Server] listens on
    [":http"] when the address is empty.  main.go runs on [":8000"]. *)

Definition listen_addr (lookup_env : string -> option string) : string :=
  match lookup_env "LISTEN_ADDR" with Some a => a | None => ":8080" end.

(** main.go line 42: [r.Run(":8000")], whatever the environment. *)
Definition legacy_listen_addr : string := ":8000".

(** [net/http]: [if addr == "" { addr = ":http" }]. *)
Definition serve_addr (addr : string) : string :=
  if bool_decide (addr = "") then ":http" else addr.

(** Where the cached servers listen: the variable's value when it is set
    and not empty, port 8080 when it is unset, and the HTTP port 80 when
    it is set to the empty string. *)
Lemma listen_addr_spec lookup_env :
  serve_addr (listen_addr lookup_env) =
  match lookup_env "LISTEN_ADDR" with
  | None => ":8080"
  | Some a => if bool_decide (a = "") then ":http" else a
  end.
Proof. unfold listen_addr, serve_addr. by destruct (lookup_env "LISTEN_ADDR"). Qed.

(** The three servers' ports: main.go always 8000; the cached variants
    8080 when [LISTEN_ADDR] is unset. *)
Example default_ports :
  serve_addr legacy_listen_addr = ":8000" /\ serve_addr (listen_addr (fun _ => None)) = ":8080".
Proof. split; reflexivity. Qed.

(** ** main.go, end to end *)

(** The error a main.go request goroutine holds, once it has one. *)
Definition lpc_error (pc : Legacy.lpc) : option pollen_error :=
  match pc with
  | Legacy.LParsed (Err e) | Legacy.LDone (Legacy.LResp500 e) => Some e
  | _ => None
  end.

(** An error of a fetch, or one the extractor returned for some page. *)
Definition rebuild_error (e : pollen_error) : Prop :=
  (exists msg, e = FetchError msg) \/ (exists d, extract d = Err e).

Definition lerr_inv (s : Legacy.lstate) : Prop :=
  Forall (fun pc => forall e, lpc_error pc = Some e -> rebuild_error e) (Legacy.lthreads s).

Lemma lerr_inv_step s s' : lerr_inv s -> Legacy.lstep s s' -> lerr_inv s'.
Proof.
  unfold lerr_inv. intros Hinv [[i o|] Hl]; simpl in Hl.
  - destruct (Legacy.lthreads s !! i) as [pc|] eqn:Ht; [|done]. simpl in Hl.
    pose proof (Forall_lookup_1 _ _ _ _ Hinv Ht) as Hold.
    destruct (Legacy.lstep_pc _ _ pc o) as [[[c' m'] pc']|] eqn:E; simplify_eq/=.
    apply Forall_insert; [done|]. intros e He.
    destruct pc; simpl in E; repeat (case_match; simplify_eq/=); simplify_eq/=;
      try (by apply Hold); unfold rebuild_error; eauto.
  - simplify_eq/=. apply Forall_app. split; [done|]. by repeat constructor.
Qed.

Lemma lerr_inv_reachable s : Legacy.lreachable s -> lerr_inv s.
Proof. apply Legacy.lreachable_ind; [constructor|apply lerr_inv_step]. Qed.

Lemma lsnap_reachable s : Legacy.lreachable s -> Legacy.lsnap_inv s.
Proof.
  apply Legacy.lreachable_ind; [split; [done|constructor]|apply Legacy.lsnap_inv_step].
Qed.

(** C30. End to end for main.go: in every reachable state, a request that
    has been answered got status 500 with no body and no content type,
    for an error of the
    fetch or one the extractor returned for some page, or status 200 with
    a JSON content type and a body that [json.Unmarshal] decodes into the records the extractor
    produced from some page (strings made valid UTF-8). *)
Theorem legacy_replies_decode s i r :
  Legacy.lreachable s -> Legacy.lthreads s !! i = Some (Legacy.LDone r) ->
  (status (legacy_reply r) = 500 /\ content_type (legacy_reply r) = None /\
   body (legacy_reply r) = EmptyString /\ exists e, r = Legacy.LResp500 e /\ rebuild_error e) \/
  (status (legacy_reply r) = 200 /\ content_type (legacy_reply r) = Some json_type /\
   exists d fs, extract d = Ok fs /\ unmarshal (body (legacy_reply r)) = Some (map valid_forecast fs)).
Proof.
  intros Hr Hi. destruct r as [e|c].
  - left. split_and!; [done|done|done|]. exists e. split; [done|].
    exact (Forall_lookup_1 _ _ _ _ (lerr_inv_reachable s Hr) Hi e eq_refl).
  - right. split_and!; [done|done|].
    destruct (lsnap_reachable s Hr) as [_ Hth].
    pose proof (Forall_lookup_1 _ _ _ _ Hth Hi) as Hc. simpl in Hc.
    rewrite !Forall_singleton in Hc. by apply promised_snapshot_decodes.
Qed.

Module ApiRuns.
Import Runs.

Lemma served_replies_decode_witness :
  reachable part_000 race_final /\
  threads race_final !! 1 = Some (Handler (HDone (Resp200 snap_aarhus (Some 1)))) /\
  ((status (json_reply part_000 (Resp200 snap_aarhus (Some 1))) = 500 /\
    content_type (json_reply part_000 (Resp200 snap_aarhus (Some 1))) = Some plain_type /\
    body (json_reply part_000 (Resp200 snap_aarhus (Some 1))) = cache_empty_msg) \/
   (status (json_reply part_000 (Resp200 snap_aarhus (Some 1))) = 200 /\
    content_type (json_reply part_000 (Resp200 snap_aarhus (Some 1))) = Some json_type /\
    exists d fs, extract d = Ok fs /\
      unmarshal (body (json_reply part_000 (Resp200 snap_aarhus (Some 1)))) =
      Some (map valid_forecast fs))).
Proof.
  assert (Hr : reachable part_000 race_final)
    by (apply run_rtc with race_run; vm_compute; reflexivity).
  assert (Hi : threads race_final !! 1 = Some (Handler (HDone (Resp200 snap_aarhus (Some 1)))))
    by (vm_compute; reflexivity).
  split; [exact Hr|]. split; [exact Hi|].
  exact (served_replies_decode part_000 race_final 1 _ Hr Hi).
Defined.

Lemma legacy_replies_decode_witness :
  Legacy.lreachable Legacy.LRuns.filled_state /\
  Legacy.lthreads Legacy.LRuns.filled_state !! 0 = Some (Legacy.LDone (Legacy.LResp200 snap_aarhus)) /\
  ((status (legacy_reply (Legacy.LResp200 snap_aarhus)) = 500 /\
    content_type (legacy_reply (Legacy.LResp200 snap_aarhus)) = None /\
    body (legacy_reply (Legacy.LResp200 snap_aarhus)) = EmptyString /\
    exists e, Legacy.LResp200 snap_aarhus = Legacy.LResp500 e /\ rebuild_error e) \/
   (status (legacy_reply (Legacy.LResp200 snap_aarhus)) = 200 /\
    content_type (legacy_reply (Legacy.LResp200 snap_aarhus)) = Some json_type /\
    exists d fs, extract d = Ok fs /\
      unmarshal (body (legacy_reply (Legacy.LResp200 snap_aarhus))) = Some (map valid_forecast fs))).
Proof.
  assert (Hr : Legacy.lreachable Legacy.LRuns.filled_state)
    by (apply Legacy.lrun_rtc with Legacy.LRuns.overwrite_run; vm_compute; reflexivity).
  assert (Hi : Legacy.lthreads Legacy.LRuns.filled_state !! 0 =
               Some (Legacy.LDone (Legacy.LResp200 snap_aarhus))) by (vm_compute; reflexivity).
  split; [exact Hr|]. split; [exact Hi|].
  exact (legacy_replies_decode _ 0 _ Hr Hi).
Defined.

Lemma api_header_parses_witness :
  reachable part_000 race_final /\ (Z.of_nat (clock (g race_final)) < 253402300800)%Z /\
  threads race_final !! 1 = Some (Handler (HDone (Resp200 snap_aarhus (Some 1)))) /\
  status (api_reply (Resp200 snap_aarhus (Some 1))) = 200 /\
  exists h t, ts_header (api_reply (Resp200 snap_aarhus (Some 1))) = Some h /\
    Timefmt.parse_rfc3339 h = Some t /\ (0 <= t <= Z.of_nat (clock (g race_final)))%Z.
Proof.
  assert (Hr : reachable part_000 race_final)
    by (apply run_rtc with race_run; vm_compute; reflexivity).
  assert (Hc : (Z.of_nat (clock (g race_final)) < 253402300800)%Z) by (vm_compute; reflexivity).
  assert (Hi : threads race_final !! 1 = Some (Handler (HDone (Resp200 snap_aarhus (Some 1)))))
    by (vm_compute; reflexivity).
  split; [exact Hr|]. split; [exact Hc|]. split; [exact Hi|]. split; [reflexivity|].
  exact (api_header_parses race_final 1 _ Hr Hc Hi eq_refl).
Defined.

(** The reply of that run: the Aarhus body under the stamp of the Odense
    rebuild, one second after the epoch. *)
Example race_final_header :
  ts_header (api_reply (Resp200 snap_aarhus (Some 1))) = Some "1970-01-01T00:00:01Z".
Proof. vm_compute. reflexivity. Qed.

(** The page of that run shows the clock of the same stamp. *)
Example race_final_index :
  index_reply (Resp200 snap_aarhus (Some 1)) = (200, IndexPage snap_aarhus "00:00:01").
Proof. vm_compute. reflexivity. Qed.

End ApiRuns.
End Api.
