(* ===== verification/Logging.v ===== *)
(** * The process's log: what [log.Println] and [log.Fatalln] write

    Both cached variants set the default logger's flags in [init()]
    (part_000 lines 34-37, part_001 lines 33-36) to [log.LstdFlags], and
    their refresh job logs the outcome of every rebuild (part_000 lines
    103-107, part_001 lines 83-87): [log.Println("Cache rebuild
    successful")], or [log.Fatalln("Error rebuilding cache:", err)], which
    writes the line and exits the process.  This file models that output:

    - the [log] package's flags, its [itoa] and [formatHeader] (the date
      and clock prefix), and [output] (header, message, final newline);
    - [fmt.Appendln] of the operands, and the texts of the errors the
      rebuild returns: the two [fmt.Errorf] wrappers of [rebuildCache] and
      the [Error] method of [*strconv.NumError], with [strconv.Quote] of the value;
    - the refresh loop as a writer: [logged] pairs a result with the lines
      written, and [refresh_log] runs the loop over the outcomes of
      successive rebuilds.

    The theorems show that the log stops at the first failed rebuild with
    one line naming its error, and that the date and clock of the prefix
    are the fields of the RFC 3339 text of the same time. *)

From S2P Require Import Prelude GoStrconv Utf8 Itoa Timefmt Json Dom Extract Cache.
Local Open Scope Z_scope.

Module Logging.
Import Strconv Utf8 Itoa Timefmt Json Extract Cache.

(** ** The [log] package *)

(** The flag bits of [log.go]. *)
Definition Ldate : Z := 1.
Definition Ltime : Z := 2.
Definition Lmicroseconds : Z := 4.
Definition LstdFlags : Z := Z.lor Ldate Ltime.

(** [init()]: [log.SetFlags(log.LstdFlags)]. *)
Definition init_flags : Z := LstdFlags.

Definition has_flag (flags f : Z) : bool := negb (Z.land flags f =? 0).

(** [itoa(buf, i, wid)]: the digits of [i] in reverse order into a
    20-byte array, at least [wid] of them, with Go's truncating division
    and [byte] conversion. *)
Fixpoint itoa_loop (fuel : nat) (i wid : Z) (acc : string) : string :=
  match fuel with
  | O => String (digit i) acc
  | S f =>
      if (10 <=? i) || (1 <? wid) then
        let q := Z.quot i 10 in
        itoa_loop f q (wid - 1) (String (digit (i - q * 10)) acc)
      else String (digit i) acc
  end.

Definition itoa (i wid : Z) : string := itoa_loop 19 i wid EmptyString.

(** [formatHeader] of the default logger (empty prefix, no file flags),
    for a time in the process's zone, taken to be UTC. *)
Definition format_header (flags t : Z) : string :=
  if has_flag flags (Z.lor (Z.lor Ldate Ltime) Lmicroseconds) then
    (if has_flag flags Ldate then
       let '(y, mo, d) := date t in
       itoa y 4 ++ "/" ++ itoa mo 2 ++ "/" ++ itoa d 2 ++ " "
     else EmptyString) ++
    (if has_flag flags (Z.lor Ltime Lmicroseconds) then
       let '(h, mi, s) := abs_clock t in
       itoa h 2 ++ ":" ++ itoa mi 2 ++ ":" ++ itoa s 2 ++
       (if has_flag flags Lmicroseconds then "." ++ itoa 0 6 else EmptyString) ++ " "
     else EmptyString)
  else EmptyString.

Definition newline : string := String "010"%char EmptyString.

Definition ends_with_newline (s : string) : bool :=
  match String.get (String.length s - 1) s with
  | Some c => bool_decide (s <> EmptyString) && Ascii.eqb c "010"%char
  | None => false
  end.

(** [l.output]: the header, the message and a newline if it has none. *)
Definition output (flags t : Z) (msg : string) : string :=
  format_header flags t ++ msg ++ (if ends_with_newline msg then EmptyString else newline).

(** [fmt.Appendln]: the operands separated by spaces, then a newline. *)
Definition sprintln (ops : list string) : string := String.concat " " ops ++ newline.

(** ** The log's date and clock *)

(** The tests [formatHeader] makes of [LstdFlags]. *)
Lemma init_flags_std :
  has_flag init_flags (Z.lor (Z.lor Ldate Ltime) Lmicroseconds) = true /\
  has_flag init_flags Ldate = true /\ has_flag init_flags (Z.lor Ltime Lmicroseconds) = true /\
  has_flag init_flags Lmicroseconds = false.
Proof. repeat split. Qed.

(** One turn of [itoa]'s loop on a non-negative [i]. *)
Lemma itoa_loop_step f i wid acc :
  0 <= i -> (10 <= i \/ 1 < wid) ->
  itoa_loop (S f) i wid acc = itoa_loop f (i / 10) (wid - 1) (String (digit (i mod 10)) acc).
Proof.
  intros Hi Hc. cbn [itoa_loop]. rewrite Z.quot_div_nonneg by lia.
  replace ((10 <=? i) || (1 <? wid)) with true
    by (symmetry; apply orb_true_iff; destruct Hc; [left; apply Z.leb_le|right; apply Z.ltb_lt]; lia).
  replace (i - i / 10 * 10) with (i mod 10) by (rewrite Z.mod_eq by lia; ring). reflexivity.
Qed.

Lemma itoa_loop_last f i wid acc :
  0 <= i < 10 -> wid <= 1 -> itoa_loop (S f) i wid acc = String (digit i) acc.
Proof.
  intros Hi Hw. cbn [itoa_loop].
  replace ((10 <=? i) || (1 <? wid)) with false by (symmetry; apply orb_false_iff; split; [apply Z.leb_gt|apply Z.ltb_ge]; lia).
  reflexivity.
Qed.

(** [log]'s [itoa] and [time]'s [appendInt] write the same digits for the
    two- and four-digit fields of a date and clock. *)
Lemma itoa_2 i : 0 <= i < 100 -> itoa i 2 = append_int i 2.
Proof.
  intros Hi. rewrite append_int_2 by done. unfold itoa.
  rewrite itoa_loop_step, itoa_loop_last by (Z.to_euclidean_division_equations; lia). reflexivity.
Qed.

Lemma itoa_4 i : 0 <= i < 10000 -> itoa i 4 = append_int i 4.
Proof.
  intros Hi. rewrite append_int_4 by done. unfold itoa.
  rewrite !itoa_loop_step, itoa_loop_last by (rewrite ?Z.div_div by lia; Z.to_euclidean_division_equations; lia).
  rewrite !Z.div_div by lia. reflexivity.
Qed.

(** C23. The prefix [log.LstdFlags] writes before a line of the refresh
    job and the [X-Cache-Timestamp] text of the same instant show the same
    six fields: the date as [YYYY/MM/DD] and [YYYY-MM-DD], the clock as
    [HH:MM:SS] in both, for every time with a four-digit year. *)
Theorem log_header_rfc3339 t :
  0 <= year t <= 9999 ->
  exists y mo d h mi s,
    format_rfc3339 t = (y ++ "-" ++ mo ++ "-" ++ d ++ "T" ++ h ++ ":" ++ mi ++ ":" ++ s ++ "Z")%string /\
    format_header init_flags t = (y ++ "/" ++ mo ++ "/" ++ d ++ " " ++ h ++ ":" ++ mi ++ ":" ++ s ++ " ")%string.
Proof.
  unfold year, format_rfc3339, format_header. pose proof (civil_from_days_valid (t / seconds_per_day)) as Hv.
  fold (date t) in Hv. pose proof (abs_clock_spec t) as Hc.
  destruct (date t) as [[y mo] d], (abs_clock t) as [[h mi] s]. cbn [fst snd]. intros Hy.
  destruct Hc as (Hh & Hmi & Hs & _). destruct (valid_date_bounds _ _ _ Hv) as [Hmo Hd].
  eexists _, _, _, _, _, _. split; [reflexivity|].
  destruct init_flags_std as (-> & -> & -> & ->). cbn -[itoa append_int String.append].
  rewrite itoa_4, !itoa_2, sapp_nil_l by lia. by rewrite !sapp_assoc.
Qed.

(** ** A writer of log lines *)

(** A result and the lines written on the way. *)
Record logged (A : Type) := Logged { lval : A; lines : list string }.
Arguments Logged {A} _ _.
Arguments lval {A} _.
Arguments lines {A} _.

#[export] Instance logged_ret : MRet logged := fun A a => Logged a [].
#[export] Instance logged_bind : MBind logged :=
  fun A B f m => let m' := f (lval m) in Logged (lval m') (lines m ++ lines m').

Definition tell (line : string) : logged unit := Logged tt [line].

(** ** [strconv.Quote] *)

Section Quote.
(** [unicode.IsPrint] above U+00FF, which [strconv] reads from its
    [isPrint16] and [isPrint32] tables; the texts of this development do
    not depend on it. *)
Variable is_print_wide : Z -> bool.

(** [strconv.IsPrint]: the Latin-1 test, then the tables. *)
Definition is_print (r : Z) : bool :=
  if r <=? 0xFF then ((0x20 <=? r) && (r <=? 0x7E)) || ((0xA1 <=? r) && negb (r =? 0xAD))
  else is_print_wide r.

Definition bs (c : ascii) : string := String bslash (String c EmptyString).

(** [\x] and two [lowerhex] digits of a byte. *)
Definition hex_escape (b : Z) : string :=
  bs "x" ++ String (hex (Z.shiftr b 4)) (String (hex (Z.land b 0xF)) EmptyString).

(** The [n] low nibbles of [r], most significant first. *)
Fixpoint nibbles (n : nat) (r : Z) : string :=
  match n with
  | O => EmptyString
  | S n' => String (hex (Z.land (Z.shiftr r (4 * Z.of_nat n')) 0xF)) (nibbles n' r)
  end.

Definition valid_rune (r : Z) : bool :=
  ((0 <=? r) && (r <? surrogate_min)) || ((surrogate_max <? r) && (r <=? max_rune)).

(** [appendEscapedRune] with the double quote as the quote character,
    neither ASCII-only nor graphic-only. *)
Definition escaped_rune (r : Z) : string :=
  if (r =? 0x22) || (r =? 0x5C) then String bslash (String (byte_to_char r) EmptyString)
  else if is_print r then encode_rune r
  else if r =? 0x07 then bs "a"
  else if r =? 0x08 then bs "b"
  else if r =? 0x0C then bs "f"
  else if r =? 0x0A then bs "n"
  else if r =? 0x0D then bs "r"
  else if r =? 0x09 then bs "t"
  else if r =? 0x0B then bs "v"
  else if (r <? 0x20) || (r =? 0x7F) then hex_escape (Z.land r 0xFF)
  else
    let r' := if valid_rune r then r else rune_error in
    if r' <? 0x10000 then bs "u" ++ nibbles 4 r' else bs "U" ++ nibbles 8 r'.

(** The loop of [appendQuotedWith]: a byte that does not start a valid
    rune is written as [\x] and its hex digits, every rune else escaped. *)
Fixpoint quote_loop (fuel : nat) (s : string) : string :=
  match fuel with
  | O => EmptyString
  | S f =>
      match s with
      | EmptyString => EmptyString
      | String c rest =>
          let b := byte_of c in
          let '(r, width) := if b <? rune_self then (b, 1%nat) else decode_rune s in
          if (width =? 1)%nat && (r =? rune_error) then hex_escape b ++ quote_loop f rest
          else escaped_rune r ++ quote_loop f (sdrop width s)
      end
  end.

(** [strconv.Quote]. *)
Definition quote (s : string) : string :=
  String dquote (quote_loop (String.length s) s ++ String dquote EmptyString).

(** ** The texts of the rebuild's errors *)

Definition num_error_text (e : num_error) : string :=
  match e with ErrSyntax => "invalid syntax" | ErrRange => "value out of range" end.

(** The [Error] method of the [*NumError] [strconv.Atoi] returns, whose [Func]
    is ["Atoi"] and whose [Num] is the text it was given. *)
Definition atoi_error_text (num : string) (e : num_error) : string :=
  "strconv.Atoi: parsing " ++ quote num ++ ": " ++ num_error_text e.

(** [fmt.Errorf("error fetching from URL: %v", err)] (line 120). *)
Definition fetch_error_text (msg : string) : string := "error fetching from URL: " ++ msg.

(** The error of the inner [Each] callback (line 152), with [%s] between
    double quotes and [%v] the [*strconv.NumError]. *)
Definition parse_error_text (v : string) (ne : num_error) : string :=
  "unable to parse pollen value for " ++ String dquote (v ++ String dquote EmptyString) ++ ": "
  ++ atoi_error_text v ne.

(** [err.Error()] of the error [rebuildCache] returns, as [log.Fatalln]
    prints it (line 104). *)
Definition error_text (e : pollen_error) : string :=
  match e with
  | FetchError msg => fetch_error_text msg
  | ParseError v ne => parse_error_text v ne
  end.

(** ** The refresh job's log *)


Definition success_line (flags t : Z) : string :=
  output flags t (sprintln ["Cache rebuild successful"]).

Definition fatal_line (flags t : Z) (e : pollen_error) : string :=
  output flags t (sprintln ["Error rebuilding cache:"; error_text e]).

(** The end of one turn of [refreshCacheJob] (part_000 lines 103-107)
    once [rebuildCache()] has returned at time [t]: [log.Fatalln], after
    which the process has exited ([true]), or [log.Println]. *)
Definition job_turn (flags t : Z) (r : result pollen_error unit) : logged bool :=
  match r with
  | Err e => _ ← tell (fatal_line flags t e); mret true
  | Ok _ => _ ← tell (success_line flags t); mret false
  end.

(** The loop of [refreshCacheJob] (part_000 lines 97-111) over the
    outcomes of successive rebuilds, each with the time of its log line. *)
Fixpoint refresh_log (flags : Z) (runs : list (Z * result pollen_error unit)) : logged bool :=
  match runs with
  | [] => mret false
  | (t, r) :: rest =>
      exited ← job_turn flags t r;
      if (exited : bool) then mret true else refresh_log flags rest
  end.

(** ** The log of the refresh loop *)

Lemma refresh_log_ok_cons flags t u rest :
  refresh_log flags ((t, Ok u) :: rest) =
  Logged (lval (refresh_log flags rest)) (success_line flags t :: lines (refresh_log flags rest)).
Proof. reflexivity. Qed.

(** A run of successful rebuilds writes one success line each and hands
    on to the rest of the loop. *)
Lemma refresh_log_ok_prefix flags pre rest :
  Forall (fun tr => is_ok tr.2 = true) pre ->
  refresh_log flags (pre ++ rest) =
  Logged (lval (refresh_log flags rest))
         (map (fun tr => success_line flags tr.1) pre ++ lines (refresh_log flags rest)).
Proof.
  induction 1 as [|[t r] pre Hok _ IH]; [simpl; by destruct (refresh_log flags rest)|].
  destruct r as [u|e]; [|done]. rewrite <- app_comm_cons, refresh_log_ok_cons, IH. reflexivity.
Qed.

(** C20. The refresh job's log (part_000 lines 97-111): while rebuilds
    succeed it writes one [Cache rebuild successful] line each, stamped
    with its time, and goes on; at the first failed rebuild it writes one
    [Error rebuilding cache:] line with that error's text, exits, and
    writes nothing for the rebuilds that would have followed. *)
Theorem refresh_log_first_error flags pre t e rest :
  Forall (fun tr => is_ok tr.2 = true) pre ->
  refresh_log flags pre = Logged false (map (fun tr => success_line flags tr.1) pre) /\
  refresh_log flags (pre ++ (t, Err e) :: rest) =
    Logged true (map (fun tr => success_line flags tr.1) pre ++ [fatal_line flags t e]).
Proof.
  intros Hok. split.
  - pose proof (refresh_log_ok_prefix flags pre [] Hok) as H. rewrite app_nil_r in H.
    rewrite H. simpl. by rewrite app_nil_r.
  - rewrite (refresh_log_ok_prefix _ _ _ Hok). reflexivity.
Qed.

(** The refresh job of the interleaving model exits after a rebuild
    exactly when the loop here writes the [log.Fatalln] line. *)
Lemma job_step_exit v gl r o gl' pc' fatal flags t :
  job_step v gl (JRun (RDone r)) o = Some (gl', pc', fatal) -> fatal = lval (job_turn flags t r).
Proof. destruct r; simpl; by intros [= _ _ <-]. Qed.

End Quote.

Module LogRuns.
Import Runs.

(** Latin-1 is all the texts below need of [IsPrint]. *)
Definition latin1_print (r : Z) : bool := false.

(** A successful rebuild, then one that meets the value [abc]. *)
Example abc_log :
  refresh_log latin1_print init_flags
    [(1700000000, Ok tt); (1700000600, Err (ParseError "abc" Strconv.ErrSyntax)); (1700001200, Ok tt)] =
  Logged true
    [("2023/11/14 22:13:20 Cache rebuild successful" ++ newline)%string;
     ("2023/11/14 22:23:20 Error rebuilding cache: unable to parse pollen value for "
      ++ quote latin1_print "abc" ++ ": strconv.Atoi: parsing " ++ quote latin1_print "abc"
      ++ ": invalid syntax" ++ newline)%string].
Proof. vm_compute. reflexivity. Qed.

Lemma refresh_log_first_error_witness :
  Forall (fun tr => is_ok tr.2 = true) [(1700000000, @Ok pollen_error unit tt)] /\
  refresh_log latin1_print init_flags [(1700000000, Ok tt)] =
    Logged false (map (fun tr => success_line init_flags tr.1) [(1700000000, @Ok pollen_error unit tt)]) /\
  refresh_log latin1_print init_flags
    ([(1700000000, Ok tt)] ++ (1700000600, Err (ParseError "abc" Strconv.ErrSyntax)) :: [(1700001200, Ok tt)]) =
    Logged true (map (fun tr => success_line init_flags tr.1) [(1700000000, @Ok pollen_error unit tt)]
                 ++ [fatal_line latin1_print init_flags 1700000600 (ParseError "abc" Strconv.ErrSyntax)]).
Proof.
  assert (H : Forall (fun tr => is_ok tr.2 = true) [(1700000000, @Ok pollen_error unit tt)])
    by (repeat constructor).
  split; [exact H|]. exact (refresh_log_first_error latin1_print init_flags _ _ _ _ H).
Defined.

Lemma log_header_rfc3339_witness :
  (0 <= year 1700000000 <= 9999) /\
  exists y mo d h mi s,
    format_rfc3339 1700000000 = (y ++ "-" ++ mo ++ "-" ++ d ++ "T" ++ h ++ ":" ++ mi ++ ":" ++ s ++ "Z")%string /\
    format_header init_flags 1700000000 = (y ++ "/" ++ mo ++ "/" ++ d ++ " " ++ h ++ ":" ++ mi ++ ":" ++ s ++ " ")%string.
Proof.
  assert (H : 0 <= year 1700000000 <= 9999) by (vm_compute; split; discriminate).
  split; [exact H|]. exact (log_header_rfc3339 1700000000 H).
Defined.

End LogRuns.
End Logging.
